(** * lwan-config: a line-oriented configuration reader

    Shallow embedding of [src/core/lwan/common/lwan-config.c]: the scalar
    helpers [parse_time_period], [parse_long], [parse_int] and
    [parse_bool], the text normalisers, the line classifier
    [config_read_line], the multiline accumulator, the section-skip engine
    [find_section_end] / [config_skip_section] and the isolation engine
    [config_isolate_section].

    Conventions of the embedding.
    - A C string is the list of its characters up to (not including) the
      terminating NUL; a pointer into a buffer is the suffix it points to.
    - A [FILE] is the byte content of the backing file with a cursor;
      [fgets], [ftell] and [fseek] follow the C library on a regular file
      ([ftell] does not fail, [fseek] fails on a negative offset only).
    - Heap allocation ([vasprintf], the string buffer) does not fail.
    - [sscanf] and [strtol] follow the C library on an LP64 platform
      ([long] of 64 bits, [int] of 32), in the C locale.
    - [int line] is a [Z]; the counter stays far below [INT_MAX].
    - Loops are bounded by a fuel computed from the bytes left in the file;
      [None] is returned when the fuel runs out or when a reader without an
      open stream is read from (the C program would dereference NULL). *)

From Stdlib Require Import Ascii String ZArith Lia Bool Arith List.
Import ListNotations.

Local Open Scope char_scope.
Local Open Scope list_scope.

(** ** C strings *)

Definition bytes (s : string) : list ascii := list_ascii_of_string s.

Definition NUL : ascii := "000".
Definition LF : ascii := "010".

(** [isspace] in the C locale: space, and the controls 9 (TAB) to 13 (CR). *)
Definition isspace (c : ascii) : bool :=
  let n := nat_of_ascii c in
  (n =? 32)%nat || ((9 <=? n)%nat && (n <=? 13)%nat).

(** What the string functions see of a buffer: the bytes before the first NUL. *)
Fixpoint c_str (buf : list ascii) : list ascii :=
  match buf with
  | [] => []
  | c :: r => if Ascii.eqb c NUL then [] else c :: c_str r
  end.

(** [strchr s c]: index of the first occurrence of [c]. *)
Fixpoint strchr (s : list ascii) (c : ascii) : option nat :=
  match s with
  | [] => None
  | x :: r => if Ascii.eqb x c then Some O else option_map S (strchr r c)
  end.

(** [strrchr s c]: index of the last occurrence of [c]. *)
Fixpoint strrchr (s : list ascii) (c : ascii) : option nat :=
  match s with
  | [] => None
  | x :: r =>
      match strrchr r c with
      | Some i => Some (S i)
      | None => if Ascii.eqb x c then Some O else None
      end
  end.

(** Modelled from the spec: [streq] is a macro of lwan-private.h, which is
    not among the sources; the spec compares a trimmed line with the
    multiline sentinel for equality ("equals the sentinel"). *)
Definition streq (a b : list ascii) : bool :=
  if list_eq_dec ascii_dec a b then true else false.

(** ** Text normaliser *)

(** [strrchr] finds the LAST [#]; the line is cut there. *)
Definition remove_comments (line : list ascii) : list ascii :=
  match strrchr line "#" with
  | Some tmp => firstn tmp line
  | None => line
  end.

(** The backward scan from the end of the string: the result is the string
    without its trailing [isspace] characters. *)
Fixpoint remove_trailing_spaces (line : list ascii) : list ascii :=
  match line with
  | [] => []
  | c :: r =>
      match remove_trailing_spaces r with
      | [] => if isspace c then [] else [c]
      | r' => c :: r'
      end
  end.

Fixpoint remove_leading_spaces (line : list ascii) : list ascii :=
  match line with
  | [] => []
  | c :: r => if isspace c then remove_leading_spaces r else line
  end.

(** [find_line_end] points to the last character of a non-empty string (and
    to the terminator of an empty one): [*find_line_end line]. *)
Definition find_line_end (line : list ascii) : ascii := last line NUL.

Fixpoint replace_space_with_underscore (line : list ascii) : list ascii :=
  match line with
  | [] => []
  | c :: r =>
      (if Ascii.eqb c " " then "_" else c) :: replace_space_with_underscore r
  end.

(** ** Streams *)

Record FILE := mkFILE { content : list ascii; pos : nat }.

Definition remaining (f : FILE) : list ascii := skipn (pos f) (content f).

(** The characters [fgets] stores when it may store at most [k]: it stops
    after a newline, at the end of the file, or when [k] are stored. *)
Fixpoint fgets_chunk (k : nat) (s : list ascii) : list ascii :=
  match k, s with
  | S k', c :: r => if Ascii.eqb c LF then [c] else c :: fgets_chunk k' r
  | _, _ => []
  end.

(** [fgets buffer n file]: [None] is the NULL of end-of-file. *)
Definition fgets (n : nat) (f : FILE) : option (list ascii * FILE) :=
  match remaining f with
  | [] => None
  | _ :: _ =>
      let chunk := fgets_chunk (n - 1) (remaining f) in
      Some (chunk, mkFILE (content f) (pos f + length chunk))
  end.

Definition ftell (f : FILE) : Z := Z.of_nat (pos f).

(** [fseek file off SEEK_SET]: [None] is the -1 of a negative offset. *)
Definition fseek (f : FILE) (off : Z) : option FILE :=
  if (off <? 0)%Z then None else Some (mkFILE (content f) (Z.to_nat off)).

(** ** Reader state and structured lines *)

Record config := mkConfig {
  file : option FILE;
  path : string;
  strbuf : list ascii;
  error_message : option string;
  line : Z;
  isolated_end : Z
}.

Definition set_file (c : config) (f : option FILE) : config :=
  mkConfig f (path c) (strbuf c) (error_message c) (line c) (isolated_end c).
Definition set_strbuf (c : config) (b : list ascii) : config :=
  mkConfig (file c) (path c) b (error_message c) (line c) (isolated_end c).
Definition set_error_message (c : config) (m : option string) : config :=
  mkConfig (file c) (path c) (strbuf c) m (line c) (isolated_end c).
Definition set_line (c : config) (n : Z) : config :=
  mkConfig (file c) (path c) (strbuf c) (error_message c) n (isolated_end c).
Definition set_isolated_end (c : config) (e : Z) : config :=
  mkConfig (file c) (path c) (strbuf c) (error_message c) (line c) e.

Inductive config_line_type :=
| CONFIG_LINE_TYPE_LINE
| CONFIG_LINE_TYPE_SECTION
| CONFIG_LINE_TYPE_SECTION_END.

(** [struct config_line]: the discriminant [type] with the strings that are
    meaningful for it ([key]/[value] or [name]/[param]). The strings point
    into the scratch buffer of the line: they are those of the last record
    delivered, and a call that fails leaves nothing to rely on but the
    [type]. *)
Inductive config_line :=
| ConfigLine (key value : list ascii)
| ConfigSection (name param : list ascii)
| ConfigSectionEnd.

Definition line_type (l : config_line) : config_line_type :=
  match l with
  | ConfigLine _ _ => CONFIG_LINE_TYPE_LINE
  | ConfigSection _ _ => CONFIG_LINE_TYPE_SECTION
  | ConfigSectionEnd => CONFIG_LINE_TYPE_SECTION_END
  end.

Definition is_section (l : config_line) : bool :=
  match l with ConfigSection _ _ => true | _ => false end.

(** [l->value = ...] on a line whose type was set to LINE. *)
Definition set_value (l : config_line) (v : list ascii) : config_line :=
  match l with
  | ConfigLine k _ => ConfigLine k v
  | ConfigSection n _ => ConfigSection n v
  | ConfigSectionEnd => ConfigSectionEnd
  end.

Definition has_error (conf : config) : bool :=
  match error_message conf with Some _ => true | None => false end.

(** [config_error]: the first message is kept, later ones are dropped. *)
Definition config_error (conf : config) (msg : string) : bool * config :=
  match error_message conf with
  | Some _ => (false, conf)
  | None => (true, set_error_message conf (Some msg))
  end.

(** Modelled from the spec: the growable buffer of strbuf.c, which is not
    among the sources, is "reset (truncated, not reallocated) at the start
    of each multiline capture". *)
Definition strbuf_reset_length (c : config) : config := set_strbuf c [].

(** Modelled from the spec: strbuf.c is not among the sources; physical
    lines are "appended" to the buffer (with length 0, the C string up to
    its NUL). *)
Definition strbuf_append_str (c : config) (s : list ascii) : config :=
  set_strbuf c (strbuf c ++ s).

(** Modelled from the spec: strbuf.c is not among the sources; the buffer
    is "joined with a newline after every appended line". *)
Definition strbuf_append_char (c : config) (ch : ascii) : config :=
  set_strbuf c (strbuf c ++ [ch]).

(** Modelled from the spec: strbuf.c is not among the sources; "the
    accumulated buffer becomes the value". *)
Definition strbuf_get_buffer (c : config) : list ascii := strbuf c.

(** ** Bounded line reads *)

(** Bytes between the cursor and the end of the backing file: every
    successful [fgets] consumes at least one of them, which bounds each loop
    of the reader. *)
Definition bytes_left (conf : config) : nat :=
  match file conf with
  | Some f => length (content f) - pos f
  | None => O
  end.

(** [config_fgets]: [Some (Some buffer, conf')] is [true] with the buffer
    filled, [Some (None, conf')] is [false]. An isolated reader refuses the
    line that takes its cursor to [isolated.end] or beyond. *)
Definition config_fgets (conf : config) (buffer_len : nat)
  : option (option (list ascii) * config) :=
  match file conf with
  | None => None
  | Some f =>
      match fgets buffer_len f with
      | None => Some (None, conf)
      | Some (buffer, f') =>
          let conf1 := set_file conf (Some f') in
          if (0 <? isolated_end conf1)%Z then
            let curpos := ftell f' in
            if (curpos <? 0)%Z then
              Some (None, snd (config_error conf1 "Could not obtain file position"))
            else if (isolated_end conf1 <=? curpos)%Z then Some (None, conf1)
            else Some (Some buffer, set_line conf1 (line conf1 + 1))
          else Some (Some buffer, set_line conf1 (line conf1 + 1))
      end
  end.

(** ** Multiline accumulator *)

Definition multiline_sentinel : list ascii := bytes "'''".

(** The [while] loop of [parse_multiline]. The trailing-space removal
    truncates [buffer] in place, starting from the pointer that
    [remove_leading_spaces] returned: the leading spaces stay in [buffer]. *)
Fixpoint parse_multiline_loop (fuel : nat) (c : config) (l : config_line)
  : option (bool * config * config_line) :=
  match fuel with
  | O => None
  | S fuel' =>
      match config_fgets c 1024 with
      | None => None
      | Some (None, c1) =>
          Some (false,
                snd (config_error c1 "EOF while scanning for end of multiline string"),
                l)
      | Some (Some fbuf, c1) =>
          let buffer := c_str fbuf in
          let lead := remove_leading_spaces buffer in
          let tmp := remove_trailing_spaces lead in
          let buffer' := firstn (length buffer - length lead) buffer ++ tmp in
          if streq tmp multiline_sentinel then
            Some (true, c1, set_value l (strbuf_get_buffer c1))
          else
            let c2 := strbuf_append_str c1 buffer' in
            let c3 := strbuf_append_char c2 LF in
            parse_multiline_loop fuel' c3 l
      end
  end.

Definition parse_multiline (c : config) (l : config_line)
  : option (bool * config * config_line) :=
  let c0 := strbuf_reset_length c in
  parse_multiline_loop (S (bytes_left c0)) c0 l.

(** ** Line classifier *)

(** [parse_section line l bracket]: [line] ends with the bracket; [None] is
    [false] (no space in the line). *)
Definition parse_section (line : list ascii) : option config_line :=
  match strchr line " " with
  | None => None
  | Some space =>
      let unbracketed := removelast line in
      let name :=
        remove_trailing_spaces (remove_leading_spaces (firstn space unbracketed)) in
      let param :=
        remove_trailing_spaces (remove_leading_spaces (skipn (S space) unbracketed)) in
      Some (ConfigSection name param)
  end.

(** [parse_line c line l equal]: [equal] is the index of the first [=]. *)
Definition parse_line (c : config) (line : list ascii) (equal : nat)
  : option (bool * config * config_line) :=
  let key0 := remove_trailing_spaces (remove_leading_spaces (firstn equal line)) in
  let key := replace_space_with_underscore key0 in
  let value := remove_leading_spaces (skipn (S equal) line) in
  let l := ConfigLine key value in
  if negb (streq value multiline_sentinel) then Some (true, c, l)
  else parse_multiline c l.

(** The [do ... while] loop of [config_read_line], left when the
    normalised line is not empty:
    [Some (Some line, conf')] is the first line that is not empty once
    normalised, [Some (None, conf')] the [return false] of a failed read. *)
Fixpoint read_nonempty_line (fuel : nat) (sizeof_buffer : nat) (conf : config)
  : option (option (list ascii) * config) :=
  match fuel with
  | O => None
  | S fuel' =>
      match config_fgets conf sizeof_buffer with
      | None => None
      | Some (None, conf1) => Some (None, conf1)
      | Some (Some fbuf, conf1) =>
          let line := remove_comments (c_str fbuf) in
          let line := remove_leading_spaces line in
          let line := remove_trailing_spaces line in
          match line with
          | [] => read_nonempty_line fuel' sizeof_buffer conf1
          | _ => Some (Some line, conf1)
          end
      end
  end.

(** What [config_read_line] does with the normalised, non-empty [line]. *)
Definition interpret_line (conf : config) (l : config_line) (line : list ascii)
  : option (bool * config * config_line) :=
  if Ascii.eqb (find_line_end line) "{" then
    match parse_section line with
    | None => Some (false, snd (config_error conf "Malformed section opening"), l)
    | Some l' => Some (true, conf, l')
    end
  else if Ascii.eqb (hd NUL line) "}" && (length line =? 1)%nat then
    Some (true, conf, ConfigSectionEnd)
  else
    match strchr line "=" with
    | Some equal =>
        match parse_line conf line equal with
        | None => None
        | Some (false, c2, l2) =>
            Some (false, snd (config_error c2 "Malformed key=value line"), l2)
        | Some (true, c2, l2) => Some (true, c2, l2)
        end
    | None =>
        Some (false, snd (config_error conf "Expecting section or key=value"), l)
    end.

(** [config_read_line conf l], with [sizeof_buffer = sizeof(l->buffer)]: the
    capacity of the scratch buffer of [struct config_line], declared in
    lwan-config.h, is a parameter of the model. *)
Definition config_read_line (sizeof_buffer : nat) (conf : config) (l : config_line)
  : option (bool * config * config_line) :=
  match error_message conf with
  | Some _ => Some (false, conf, l)
  | None =>
      match read_nonempty_line (S (bytes_left conf)) sizeof_buffer conf with
      | None => None
      | Some (None, conf1) => Some (false, conf1, l)
      | Some (Some line, conf1) => interpret_line conf1 l line
      end
  end.

(** ** Section-skip engine *)

(** [find_section_end] and its [while] loop, by recursion on a fuel that
    each call and each iteration spends. *)
Fixpoint find_section_end (fuel : nat) (sizeof_buffer : nat) (conf : config)
    (l : config_line) (recursion_level : Z) {struct fuel}
  : option (bool * config * config_line) :=
  match fuel with
  | O => None
  | S fuel' =>
      if (10 <? recursion_level)%Z then
        Some (false, snd (config_error conf "Recursion level too deep"), l)
      else find_section_end_loop fuel' sizeof_buffer conf l recursion_level
  end
with find_section_end_loop (fuel : nat) (sizeof_buffer : nat) (conf : config)
    (l : config_line) (recursion_level : Z) {struct fuel}
  : option (bool * config * config_line) :=
  match fuel with
  | O => None
  | S fuel' =>
      match config_read_line sizeof_buffer conf l with
      | None => None
      | Some (false, conf1, l1) => Some (false, conf1, l1)
      | Some (true, conf1, l1) =>
          match line_type l1 with
          | CONFIG_LINE_TYPE_LINE =>
              find_section_end_loop fuel' sizeof_buffer conf1 l1 recursion_level
          | CONFIG_LINE_TYPE_SECTION =>
              match find_section_end fuel' sizeof_buffer conf1 l1
                      (recursion_level + 1) with
              | None => None
              | Some (false, conf2, l2) => Some (false, conf2, l2)
              | Some (true, conf2, l2) =>
                  find_section_end_loop fuel' sizeof_buffer conf2 l2 recursion_level
              end
          | CONFIG_LINE_TYPE_SECTION_END => Some (true, conf1, l1)
          end
      end
  end.

(** Fuel that suffices for a skip: two units per byte left, and two more. *)
Definition skip_fuel (conf : config) : nat := 2 * bytes_left conf + 2.

Definition config_skip_section (sizeof_buffer : nat) (conf : config)
    (l : config_line) : option (bool * config * config_line) :=
  match error_message conf with
  | Some _ => Some (false, conf, l)
  | None =>
      if negb (is_section l) then Some (false, conf, l)
      else find_section_end (skip_fuel conf) sizeof_buffer conf l 0
  end.

(** ** Isolation engine *)

(** [config_open conf path], over a file system [fs] that maps a path to
    the bytes of the file, if it can be opened. *)
Definition config_open (fs : string -> option (list ascii)) (conf : config)
    (p : string) : bool * config :=
  let conf1 := set_strbuf conf [] in
  match fs p with
  | None => (false, set_file conf1 None)
  | Some data =>
      (true, mkConfig (Some (mkFILE data O)) p [] None 0 (-1))
  end.

(** [config_close]: the stream is closed; the reader cannot be read again. *)
Definition config_close (conf : config) : config :=
  match file conf with
  | None => conf
  | Some _ => set_file conf None
  end.

(** The code from the label [resetpos] to the end of
    [config_isolate_section]. *)
Definition isolate_resetpos (r : bool) (current_conf : config)
    (current_line : config_line) (isolated : config) (startpos : Z)
  : option (bool * config * config_line * config) :=
  match file current_conf with
  | None => None
  | Some f =>
      let '(r, conf1) :=
        match fseek f startpos with
        | None =>
            (false, snd (config_error current_conf "Could not reset file position"))
        | Some f' => (r, set_file current_conf (Some f'))
        end in
      let '(r, conf2) :=
        if negb r || has_error conf1 then
          (false, snd (config_error conf1 "Unknown error while isolating section"))
        else (r, conf1) in
      let isolated' := if negb r then config_close isolated else isolated in
      Some (r, conf2, current_line, isolated')
  end.

(** [config_isolate_section current_conf current_line isolated]: the result
    holds the return value, the original reader, the line record (which the
    scan overwrites) and the [isolated] reader. The assignment
    [*isolated = *current_conf] copies the fields of the reader; [strbuf] is
    a pointer, so the copy shares the string buffer with the original: after
    the scan, the buffer of [isolated] holds what the scan has left in it
    (until [config_open] gives [isolated] a buffer of its own). *)
Definition config_isolate_section (fs : string -> option (list ascii))
    (sizeof_buffer : nat) (current_conf : config) (current_line : config_line)
  : option (bool * config * config_line * config) :=
  let origin_line := line current_conf in
  let isolated := set_file current_conf None in
  match error_message current_conf with
  | Some _ => Some (false, current_conf, current_line, isolated)
  | None =>
      if negb (is_section current_line) then
        Some (false, current_conf, current_line, isolated)
      else
        match file current_conf with
        | None => None
        | Some f =>
            let startpos := ftell f in
            if (startpos <? 0)%Z then
              Some (false, current_conf, current_line, isolated)
            else
              match find_section_end (skip_fuel current_conf) sizeof_buffer
                      current_conf current_line 0 with
              | None => None
              | Some (false, conf1, l1) =>
                  isolate_resetpos false conf1 l1
                    (set_strbuf isolated (strbuf conf1)) startpos
              | Some (true, conf1, l1) =>
                  let conf2 := set_line conf1 origin_line in
                  let isolated := set_strbuf isolated (strbuf conf1) in
                  match file conf2 with
                  | None => None
                  | Some f2 =>
                      let endpos := ftell f2 in
                      if (endpos <? 0)%Z then
                        isolate_resetpos false conf2 l1 isolated startpos
                      else
                        match config_open fs isolated (path conf2) with
                        | (false, iso1) =>
                            isolate_resetpos false conf2 l1 iso1 startpos
                        | (true, iso1) =>
                            match file iso1 with
                            | None => None
                            | Some fi =>
                                match fseek fi startpos with
                                | None =>
                                    isolate_resetpos false conf2 l1 iso1 startpos
                                | Some fi' =>
                                    let iso2 := set_file iso1 (Some fi') in
                                    let iso3 := set_isolated_end iso2 endpos in
                                    isolate_resetpos true conf2 l1 iso3 startpos
                                end
                            end
                        end
                  end
              end
        end
  end.

(** ** Driving a reader to the end *)

(** The lines a caller gets by calling [config_read_line] until it returns
    [false], with the reader as that last call leaves it. *)
Fixpoint read_lines (fuel : nat) (sizeof_buffer : nat) (conf : config)
    (l : config_line) : option (list config_line * config) :=
  match fuel with
  | O => None
  | S fuel' =>
      match config_read_line sizeof_buffer conf l with
      | None => None
      | Some (false, conf1, _) => Some ([], conf1)
      | Some (true, conf1, l1) =>
          match read_lines fuel' sizeof_buffer conf1 l1 with
          | None => None
          | Some (ls, conf2) => Some (l1 :: ls, conf2)
          end
      end
  end.

Definition config_read_all (sizeof_buffer : nat) (conf : config)
    (l : config_line) : option (list config_line * config) :=
  read_lines (S (bytes_left conf)) sizeof_buffer conf l.

(** A reader as [config_open] leaves it on a file with content [data]. *)
Definition opened (p : string) (data : list ascii) : config :=
  mkConfig (Some (mkFILE data O)) p [] None 0 (-1).

(** ** Scalar helper: [parse_time_period] *)

(** The multipliers [ONE_MINUTE] ... [ONE_YEAR] are macros of a header that
    is not among the sources; they are parameters of the model. *)
Record period_units := mkUnits {
  ONE_MINUTE : Z;
  ONE_HOUR : Z;
  ONE_DAY : Z;
  ONE_WEEK : Z;
  ONE_MONTH : Z;
  ONE_YEAR : Z
}.

Definition UINT_MODULUS : Z := 2 ^ 32.
Definition ULONG_MAX : Z := 2 ^ 64 - 1.

(** [unsigned int] arithmetic wraps around. *)
Definition uint (z : Z) : Z := (z mod UINT_MODULUS)%Z.

Definition isdigit (c : ascii) : bool :=
  let n := nat_of_ascii c in (48 <=? n)%nat && (n <=? 57)%nat.

Definition digit_value (c : ascii) : Z := Z.of_nat (nat_of_ascii c - 48).

Fixpoint scan_digits (s : list ascii) (acc : Z) : Z * list ascii :=
  match s with
  | c :: r =>
      if isdigit c then scan_digits r (10 * acc + digit_value c)%Z else (acc, s)
  | [] => (acc, [])
  end.

(** The [unsigned int] that the conversion [%u] stores (glibc, 64-bit
    [unsigned long]): the digits are converted as by [strtoul], which
    saturates at [ULONG_MAX] and negates after a minus sign, and the result
    is truncated to 32 bits. *)
Definition scanf_unsigned (negative : bool) (n : Z) : Z :=
  let ul :=
    if (ULONG_MAX <? n)%Z then ULONG_MAX
    else if negative then ((- n) mod (ULONG_MAX + 1))%Z else n in
  uint ul.

(** [sscanf str "%u%c" &period &multiplier == 2]: [%u] skips white space,
    takes an optional sign and at least one digit; [%c] takes the next
    character, which must exist. *)
Definition sscanf_u_c (str : list ascii) : option (Z * ascii) :=
  let s1 := remove_leading_spaces str in
  let '(negative, s2) :=
    match s1 with
    | c :: r =>
        if Ascii.eqb c "-" then (true, r)
        else if Ascii.eqb c "+" then (false, r)
        else (false, s1)
    | [] => (false, s1)
    end in
  match s2 with
  | d :: _ =>
      if isdigit d then
        let '(n, s3) := scan_digits s2 0 in
        match s3 with
        | multiplier :: _ => Some (scanf_unsigned negative n, multiplier)
        | [] => None
        end
      else None
  | [] => None
  end.

(** The [switch]: seconds that a component adds (an unknown multiplier is
    ignored with a warning). *)
Definition period_seconds (u : period_units) (period : Z) (multiplier : ascii) : Z :=
  if Ascii.eqb multiplier "s" then period
  else if Ascii.eqb multiplier "m" then period * ONE_MINUTE u
  else if Ascii.eqb multiplier "h" then period * ONE_HOUR u
  else if Ascii.eqb multiplier "d" then period * ONE_DAY u
  else if Ascii.eqb multiplier "w" then period * ONE_WEEK u
  else if Ascii.eqb multiplier "M" then period * ONE_MONTH u
  else if Ascii.eqb multiplier "y" then period * ONE_YEAR u
  else 0.

(** The [while] loop. Each iteration moves [str] past the first occurrence
    of the multiplier ([rawmemchr]), so [length str] iterations are enough
    ([parse_time_period_loop_fuel] below): the fuel never runs out. *)
Fixpoint parse_time_period_loop (fuel : nat) (u : period_units)
    (str : list ascii) (total : Z) : Z :=
  match fuel with
  | O => total
  | S fuel' =>
      match str with
      | [] => total
      | _ :: _ =>
          match sscanf_u_c str with
          | None => total
          | Some (period, multiplier) =>
              let total' := uint (total + period_seconds u period multiplier) in
              match strchr str multiplier with
              | Some i => parse_time_period_loop fuel' u (skipn (S i) str) total'
              | None => total'
              end
          end
      end
  end.

(** [parse_time_period str default_value]; [None] is the NULL string. *)
Definition parse_time_period (u : period_units) (str : option (list ascii))
    (default_value : Z) : Z :=
  match str with
  | None => default_value
  | Some s =>
      let total := parse_time_period_loop (length s) u s 0 in
      if (total =? 0)%Z then default_value else total
  end.

(** The [<integer><unit>] components of a duration string, in order: the
    pairs that successive scans of the string yield. *)
Fixpoint period_components (fuel : nat) (str : list ascii) : list (Z * ascii) :=
  match fuel with
  | O => []
  | S fuel' =>
      match str, sscanf_u_c str with
      | _ :: _, Some (period, multiplier) =>
          (period, multiplier) ::
          match strchr str multiplier with
          | Some i => period_components fuel' (skipn (S i) str)
          | None => []
          end
      | _, _ => []
      end
  end.

(** The sum of the components, in seconds. *)
Definition components_seconds (u : period_units) (cs : list (Z * ascii)) : Z :=
  fold_right (fun c acc => (period_seconds u (fst c) (snd c) + acc)%Z) 0%Z cs.

(** The hypothesis of claim C9: the string is NULL, or its components sum
    to zero seconds in [unsigned int] arithmetic. *)
Definition sums_to_zero (u : period_units) (str : option (list ascii)) : Prop :=
  match str with
  | None => True
  | Some s => uint (components_seconds u (period_components (length s) s)) = 0%Z
  end.

(** Units for the examples: a minute of 60 seconds, and so on. *)
Definition seconds_units : period_units :=
  mkUnits 60 3600 86400 604800 2678400 32140800.

(** ** Vocabulary of the statements *)

(** The reader [conf] after [n] more bytes and [k] more physical lines. *)
Definition advance (conf : config) (n : nat) (k : Z) : config :=
  match file conf with
  | Some f =>
      mkConfig (Some (mkFILE (content f) (pos f + n))) (path conf) (strbuf conf)
        (error_message conf) (line conf + k) (isolated_end conf)
  | None => conf
  end.

(** A reader without error and without isolation bound whose stream holds
    [rest] from the cursor on. *)
Definition reader_at (conf : config) (rest : list ascii) : Prop :=
  error_message conf = None /\ (isolated_end conf <= 0)%Z /\
  exists f, file conf = Some f /\ remaining f = rest.

(** The reader that has consumed [before] (in [lines] physical lines) of the
    file [before ++ rest], opened at path [p]. *)
Definition positioned (p : string) (before rest : list ascii) (lines : Z) : config :=
  mkConfig (Some (mkFILE (before ++ rest) (length before))) p [] None lines (-1).

(** The content of a physical line: no newline, no NUL. *)
Definition single_line (ln : list ascii) : bool :=
  forallb (fun c => negb (Ascii.eqb c LF) && negb (Ascii.eqb c NUL)) ln.

(** The normalisation that [config_read_line] applies to a physical line. *)
Definition normalise (buffer : list ascii) : list ascii :=
  remove_trailing_spaces (remove_leading_spaces (remove_comments buffer)).

(** The first line of the example of claim C8, and the file of the spec. *)
Definition db_line : list ascii := bytes "db { host = local".
Definition db_input : list ascii := db_line ++ [LF] ++ bytes "}" ++ [LF].

(** A line with two [#] characters (claim C6). *)
Definition two_hash_line : list ascii := bytes "a = b # c # d".

(** The synthetic input of claim C5: [n] section openings in a row, each
    nested in the one before, and [n] closing lines. *)
Definition open_line : list ascii := bytes "s x {".
Definition close_line : list ascii := bytes "}".
Definition nested_opens (n : nat) : list ascii :=
  concat (repeat (open_line ++ [LF]) n).
Definition section_closes (n : nat) : list ascii :=
  concat (repeat (close_line ++ [LF]) n).

(** ** Multiline values (claim C7) *)

(** The text of the lines [ls], each with its newline. *)
Definition text_of_lines (ls : list (list ascii)) : list ascii :=
  concat (map (fun ln => ln ++ [LF]) ls).

(** What one iteration of [parse_multiline] appends for the physical line
    [ln]: the buffer as the in-place trimming leaves it. *)
Definition multiline_capture (ln : list ascii) : list ascii :=
  let buffer := ln ++ [LF] in
  let lead := remove_leading_spaces buffer in
  firstn (length buffer - length lead) buffer ++ remove_trailing_spaces lead.

(** A line that [parse_multiline] takes as the end of the value. *)
Definition is_terminator (ln : list ascii) : bool :=
  streq (remove_trailing_spaces (remove_leading_spaces (ln ++ [LF])))
    multiline_sentinel.

(** A line with a character that is not white space. *)
Definition has_text (ln : list ascii) : bool :=
  existsb (fun c => negb (isspace c)) ln.

(** A body line of a multiline value: one physical line that fits the
    buffer of [parse_multiline] and is not the terminator. *)
Definition body_line (ln : list ascii) : bool :=
  single_line ln && (length ln + 2 <=? 1024)%nat && negb (is_terminator ln).

(** The value that claim C7 states: the body lines as they are, a newline
    after each. *)
Definition verbatim_value (ls : list (list ascii)) : list ascii :=
  text_of_lines ls.

(** The value with the trailing white space of each line removed. *)
Definition trimmed_value (ls : list (list ascii)) : list ascii :=
  concat (map (fun ln => remove_trailing_spaces ln ++ [LF]) ls).

(** A body line with a trailing space, and a body with a blank line. *)
Definition trailing_space_body : list (list ascii) := [bytes "x # y "].
Definition blank_line_body : list (list ascii) := [bytes "x"; []; bytes "y"].

(** The line that ends a multiline value, fitting the buffer. *)
Definition terminator_line (term : list ascii) : bool :=
  single_line term && (length term + 2 <=? 1024)%nat && is_terminator term.

(** A file that assigns to [k] the multiline value with body [ls]. *)
Definition multiline_input (ls : list (list ascii)) : list ascii :=
  bytes "k = '''" ++ [LF] ++ text_of_lines ls ++ multiline_sentinel ++ [LF].

(** ** Well-formed input *)

(** The lines of a well-formed configuration file. *)
Inductive source_line :=
| SrcAssign (indent : nat) (key value : list ascii)
| SrcMultiline (indent : nat) (key : list ascii) (body : list (list ascii))
| SrcOpen (indent : nat) (name param : list ascii)
| SrcClose (indent : nat)
| SrcComment (indent : nat) (text : list ascii)
| SrcBlank (indent : nat).

Definition spaces (n : nat) : list ascii := repeat " " n.

(** The physical line (without its newline) that writes a source line, or
    that starts it when it is a multiline assignment. *)
Definition render_line (s : source_line) : list ascii :=
  match s with
  | SrcAssign i k v => spaces i ++ k ++ bytes " = " ++ v
  | SrcMultiline i k _ => spaces i ++ k ++ bytes " = " ++ multiline_sentinel
  | SrcOpen i n p => spaces i ++ n ++ bytes " " ++ p ++ bytes " {"
  | SrcClose i => spaces i ++ bytes "}"
  | SrcComment i t => spaces i ++ bytes "#" ++ t
  | SrcBlank i => spaces i
  end.

(** The physical lines that follow the first one: the body of a multiline
    value and the sentinel that ends it. *)
Definition continuation (s : source_line) : list (list ascii) :=
  match s with
  | SrcMultiline _ _ body => body ++ [multiline_sentinel]
  | _ => []
  end.

Definition render_lines (s : source_line) : list (list ascii) :=
  render_line s :: continuation s.

Definition render (src : list source_line) : list ascii :=
  text_of_lines (flat_map render_lines src).

(** The record that a source line stands for, if it stands for one. *)
Definition record_of (s : source_line) : option config_line :=
  match s with
  | SrcAssign _ k v => Some (ConfigLine (replace_space_with_underscore k) v)
  | SrcMultiline _ k body =>
      Some (ConfigLine (replace_space_with_underscore k) (trimmed_value body))
  | SrcOpen _ n p => Some (ConfigSection n p)
  | SrcClose _ => Some ConfigSectionEnd
  | SrcComment _ _ => None
  | SrcBlank _ => None
  end.

Fixpoint records (src : list source_line) : list config_line :=
  match src with
  | [] => []
  | s :: r =>
      match record_of s with
      | Some l => l :: records r
      | None => records r
      end
  end.

Definition no_char (c : ascii) (s : list ascii) : bool :=
  forallb (fun x => negb (Ascii.eqb x c)) s.

(** Text of one physical line without [#] that starts and ends with a
    character that is not white space. *)
Definition is_text (s : list ascii) : bool :=
  single_line s && no_char "#" s &&
  negb (isspace (hd " " s)) && negb (isspace (find_line_end s)).

(** A word: text without a space character. *)
Definition is_word (s : list ascii) : bool := is_text s && no_char " " s.

(** Well-formed lines: a key is text without [=]; a value is text that is
    not the multiline sentinel and does not end with a brace; the body
    lines of a multiline value hold text, fit the buffer of
    [parse_multiline] and are not the sentinel; a section name is a word
    and its parameter is text; a comment holds one [#]. Each line fits the
    buffer with its newline. *)
Definition wf_line (sizeof_buffer : nat) (s : source_line) : bool :=
  (length (render_line s) + 2 <=? sizeof_buffer)%nat &&
  match s with
  | SrcAssign _ k v =>
      is_text k && no_char "=" k &&
      is_text v && negb (streq v multiline_sentinel) &&
      negb (Ascii.eqb (find_line_end v) "{")
  | SrcMultiline _ k body =>
      is_text k && no_char "=" k &&
      forallb (fun ln => body_line ln && has_text ln) body
  | SrcOpen _ n p => is_word n && is_text p
  | SrcClose _ => true
  | SrcComment _ t => single_line t && no_char "#" t
  | SrcBlank _ => true
  end.

(** Balanced nesting: no closing line without an open section, and no
    section left open at the end. *)
Fixpoint balanced_from (depth : nat) (src : list source_line) : bool :=
  match src with
  | [] => (depth =? 0)%nat
  | SrcOpen _ _ _ :: r => balanced_from (S depth) r
  | SrcClose _ :: r =>
      match depth with
      | O => false
      | S d => balanced_from d r
      end
  | _ :: r => balanced_from depth r
  end.

Definition balanced (src : list source_line) : bool := balanced_from 0 src.

(** A small well-formed file. *)
Definition sample_source : list source_line :=
  [ SrcComment 0 (bytes " listener");
    SrcOpen 0 (bytes "listener") (bytes "*:8080");
    SrcAssign 4 (bytes "keep alive timeout") (bytes "15");
    SrcBlank 0;
    SrcOpen 4 (bytes "serve_files") (bytes "/");
    SrcAssign 8 (bytes "path") (bytes "./wwwroot");
    SrcMultiline 8 (bytes "script")
      [bytes "function handle_get_root(req)";
       bytes "   req:say('hi') # greet";
       bytes "end"];
    SrcClose 4;
    SrcClose 0 ].

(** [c1] is the reader [c] moved [n] bytes forward, with the same path, the
    same error latch and the same isolation bound. *)
Definition moved_past (c : config) (n : nat) (c1 : config) : Prop :=
  path c1 = path c /\ error_message c1 = error_message c /\
  isolated_end c1 = isolated_end c /\
  exists f, file c = Some f /\ file c1 = Some (mkFILE (content f) (pos f + n)).

(** A reader that latched an error while reading, and a line record. *)
Definition failed_reader : config :=
  set_error_message (positioned "f" (bytes "oops" ++ [LF]) [] 1)
    (Some "Expecting section or key=value"%string).
Definition some_assignment : config_line := ConfigLine (bytes "a") (bytes "1").

(** ** Isolation (claims C2 and C3) *)

(** The byte offset of the cursor of a reader. *)
Definition cursor (conf : config) : nat :=
  match file conf with
  | Some f => pos f
  | None => O
  end.

(** The test of [config_fgets] on the cursor [p] reached by a read: the
    line is delivered unless the reader is isolated and [p] is at or past
    [isolated.end]. *)
Definition boundary_ok (conf : config) (p : nat) : bool :=
  negb ((0 <? isolated_end conf)%Z && (isolated_end conf <=? Z.of_nat p)%Z).

(** [c1] is the reader [c] after some reads: same backing bytes, the cursor
    not before where it was. *)
Definition advanced (c c1 : config) : Prop :=
  exists f f1,
    file c = Some f /\ file c1 = Some f1 /\
    content f1 = content f /\ pos f <= pos f1.

(** The body of the section whose opening line was just read: the lines
    that sequential reading delivers from here up to, and without, the
    closing line that matches the opening ([depth] counts the sections
    opened and not yet closed in between). The reader returned is the one
    that has just consumed that closing line. *)
Fixpoint section_body (fuel : nat) (sizeof_buffer : nat) (conf : config)
    (l : config_line) (depth : nat) : option (list config_line * config) :=
  match fuel with
  | O => None
  | S fuel' =>
      match config_read_line sizeof_buffer conf l with
      | Some (true, conf1, l1) =>
          let rest d :=
            match section_body fuel' sizeof_buffer conf1 l1 d with
            | Some (ls, conf2) => Some (l1 :: ls, conf2)
            | None => None
            end in
          match line_type l1 with
          | CONFIG_LINE_TYPE_LINE => rest depth
          | CONFIG_LINE_TYPE_SECTION => rest (S depth)
          | CONFIG_LINE_TYPE_SECTION_END =>
              match depth with
              | O => Some ([], conf1)
              | S d => rest d
              end
          end
      | _ => None
      end
  end.

(** [i1] is the reader [i] moved to the stream state [fl]: same path, same
    error latch, same isolation bound. *)
Definition follows (i i1 : config) (fl : option FILE) : Prop :=
  file i1 = fl /\ path i1 = path i /\
  error_message i1 = error_message i /\ isolated_end i1 = isolated_end i.

(** Up to the cursor [q], every line that the reader [c] may deliver, the
    reader [i] may deliver too. *)
Definition allows (c i : config) (q : nat) : Prop :=
  forall p, p <= q -> boundary_ok c p = true -> boundary_ok i p = true.

(** A file with a section of one line and a line after it; the file system
    that holds it at the path [f]; the reader that has just read the
    opening line of the section. *)
Definition section_header : list ascii := open_line ++ [LF].
Definition section_rest : list ascii :=
  bytes "a = 1" ++ [LF] ++ close_line ++ [LF] ++ bytes "b = 2" ++ [LF].
Definition one_file (p : string) : option (list ascii) :=
  if String.eqb p "f" then Some (section_header ++ section_rest) else None.
Definition after_header : config := positioned "f" section_header section_rest 1.
Definition header_record : config_line := ConfigSection (bytes "s") (bytes "x").

(** The sub-reader that isolation makes for that section ([isolated.end]
    is 14, the offset just past the closing line), and a reader of the same
    file that is past the section. *)
Definition isolated_sample : config :=
  mkConfig (Some (mkFILE (section_header ++ section_rest) 6)) "f" [] None 0 14.
Definition past_section : config :=
  positioned "f" (section_header ++ bytes "a = 1" ++ [LF] ++ close_line ++ [LF])
    (bytes "b = 2" ++ [LF]) 3.

(** ** Skipping over well-formed input *)

(** What the scan for the end of a section meets in a well-formed source. *)
Inductive skip_outcome :=
| SkipClosed (rest : list source_line)
| SkipTooDeep
| SkipUnclosed.

(** The scan by counting: [level] is the nesting level of the line read,
    [base] the level of the section whose closing line is looked for. An
    opening line leads one level down, which is refused beyond level 10; a
    closing line at level [base] ends the scan, with the lines that follow
    it. *)
Fixpoint skip_source (base level : nat) (src : list source_line) : skip_outcome :=
  match src with
  | [] => SkipUnclosed
  | SrcOpen _ _ _ :: r =>
      if (10 <? S level)%nat then SkipTooDeep else skip_source base (S level) r
  | SrcClose _ :: r =>
      if (level =? base)%nat then SkipClosed r else skip_source base (level - 1) r
  | _ :: r => skip_source base level r
  end.

(** The number of sections open after the lines [src], starting with
    [depth] open; [None] if a closing line has no opening. *)
Fixpoint open_after (depth : nat) (src : list source_line) : option nat :=
  match src with
  | [] => Some depth
  | SrcOpen _ _ _ :: r => open_after (S depth) r
  | SrcClose _ :: r =>
      match depth with
      | O => None
      | S d => open_after d r
      end
  | _ :: r => open_after depth r
  end.

(** No more than [cap] sections are open at any line of [src], starting
    with [depth] open. *)
Fixpoint nesting_within (cap depth : nat) (src : list source_line) : bool :=
  match src with
  | [] => true
  | SrcOpen _ _ _ :: r => (S depth <=? cap)%nat && nesting_within cap (S depth) r
  | SrcClose _ :: r => nesting_within cap (depth - 1) r
  | _ :: r => nesting_within cap depth r
  end.

(** A section left open: a body with nested sections and no closing line
    for the section itself. *)
Definition unclosed_body : list source_line :=
  [ SrcAssign 4 (bytes "keep alive timeout") (bytes "15");
    SrcOpen 4 (bytes "serve_files") (bytes "/");
    SrcAssign 8 (bytes "path") (bytes "./wwwroot");
    SrcClose 4;
    SrcComment 0 (bytes " end of file") ].

(** Ten sections nested in each other, with an assignment in the innermost. *)
Definition ten_open : list source_line :=
  map (fun k => SrcOpen k (bytes "level") (bytes "x")) (seq 0 10) ++
  [ SrcAssign 10 (bytes "depth") (bytes "10") ].

(** A file whose first section has [unclosed_body] as its body, followed by
    the sample file; the file system that holds it at every path. *)
Definition listener_header : list ascii := bytes "listener *:8080 {" ++ [LF].
Definition listener_file : list ascii :=
  listener_header ++ render (unclosed_body ++ SrcClose 0 :: sample_source).
Definition listener_fs : string -> option (list ascii) :=
  fun _ => Some listener_file.

(** ** Readers after a call *)

(** [c1] is the reader [c] after any number of reads, successful or not:
    the same backing bytes with the cursor not before where it was, the
    same path and the same isolation bound. *)
Definition read_on (c c1 : config) : Prop :=
  advanced c c1 /\ path c1 = path c /\ isolated_end c1 = isolated_end c.

(** The messages that [config_read_line] can record. *)
Definition read_errors : list string :=
  [ "Malformed section opening"%string;
    "Expecting section or key=value"%string;
    "EOF while scanning for end of multiline string"%string ].

(** ** Durations (for [parse_time_period]) *)

(** The number that a string of decimal digits denotes. *)
Definition decimal_value (ds : list ascii) : Z :=
  fold_left (fun acc c => (10 * acc + digit_value c)%Z) ds 0%Z.

(** The seconds in one unit: those of the multipliers [s m h d w M y], and
    0 for any other character. *)
Definition unit_seconds (u : period_units) (c : ascii) : Z := period_seconds u 1 c.

(** A component of a duration: spaces, an unsigned decimal number and the
    character that follows it, the unit. A duration is written as its
    components one after the other. *)
Definition duration_component : Type := nat * list ascii * ascii.

Definition component_text (c : duration_component) : list ascii :=
  let '(i, ds, m) := c in spaces i ++ ds ++ [m].

Definition duration_text (cs : list duration_component) : list ascii :=
  flat_map component_text cs.

Definition duration_seconds (u : period_units) (cs : list duration_component) : Z :=
  fold_right
    (fun (c : duration_component) acc =>
       let '(_, ds, m) := c in (decimal_value ds * unit_seconds u m + acc)%Z)
    0%Z cs.

(** The number has a digit and fits [unsigned long]; the unit is any
    character of a C string but a digit or a space. *)
Definition wf_component (c : duration_component) : bool :=
  let '(_, ds, m) := c in
  match ds with [] => false | _ :: _ => true end &&
  forallb isdigit ds && (decimal_value ds <=? ULONG_MAX)%Z &&
  (negb (isdigit m) && negb (Ascii.eqb m " ") && negb (Ascii.eqb m NUL)).

(** The duration [1h 30m 7x 15s], with a multiplier that is not known. *)
Definition sample_duration : list duration_component :=
  [ (0%nat, bytes "1", "h"); (1%nat, bytes "30", "m"); (1%nat, bytes "7", "x");
    (1%nat, bytes "15", "s") ].

(** ** Scalar helpers: [parse_long], [parse_int], [parse_bool] *)

(** [long] has 64 bits and [int] 32 (LP64). *)
Definition LONG_MAX : Z := 2 ^ 63 - 1.
Definition LONG_MIN : Z := - 2 ^ 63.
Definition INT_MAX : Z := 2 ^ 31 - 1.
Definition INT_MIN : Z := - 2 ^ 31.

(** The value of a character as a digit of [strtol]: [0]-[9], and the
    letters, in either case, from 10 on. *)
Definition strtol_digit (c : ascii) : option Z :=
  let n := Z.of_nat (nat_of_ascii c) in
  if (48 <=? n)%Z && (n <=? 57)%Z then Some (n - 48)%Z
  else if (97 <=? n)%Z && (n <=? 122)%Z then Some (n - 87)%Z
  else if (65 <=? n)%Z && (n <=? 90)%Z then Some (n - 55)%Z
  else None.

(** The digits of [base] at the start of [s]: the number they denote (not
    yet bounded) and what follows them. *)
Fixpoint strtol_digits (base : Z) (s : list ascii) (acc : Z) : Z * list ascii :=
  match s with
  | c :: r =>
      match strtol_digit c with
      | Some d =>
          if (d <? base)%Z then strtol_digits base r (base * acc + d)%Z
          else (acc, s)
      | None => (acc, s)
      end
  | [] => (acc, [])
  end.

(** The optional sign. *)
Definition strtol_sign (s : list ascii) : bool * list ascii :=
  match s with
  | c :: r =>
      if Ascii.eqb c "-" then (true, r)
      else if Ascii.eqb c "+" then (false, r)
      else (false, s)
  | [] => (false, s)
  end.

(** The base that [strtol] takes for the base argument 0: 16 after [0x] or
    [0X] (the prefix is skipped), 8 after [0], 10 otherwise (C99; the
    binary prefix of C23 is not modelled). The boolean tells that a prefix
    was skipped. *)
Definition strtol_base (s : list ascii) : Z * list ascii * bool :=
  match s with
  | z :: r =>
      if Ascii.eqb z "0" then
        match r with
        | x :: r' =>
            if Ascii.eqb x "x" || Ascii.eqb x "X" then (16%Z, r', true)
            else (8%Z, s, false)
        | [] => (8%Z, s, false)
        end
      else (10%Z, s, false)
  | [] => (10%Z, s, false)
  end.

(** [strtol value &endptr 0] (C99, as glibc implements it): the result, the
    offset of [endptr] from [value], and whether [errno] is set (to ERANGE;
    the result is then clamped). White space is skipped, a sign and a base
    prefix are taken, then the digits of the base; all of them are consumed
    also when the number overflows. Without any digit nothing is converted
    and [endptr] is [value], except after the prefix [0x], where [endptr] is
    left on the [x]. *)
Definition strtol (value : list ascii) : Z * nat * bool :=
  let s1 := remove_leading_spaces value in
  let '(negative, s2) := strtol_sign s1 in
  let '(base, s3, prefixed) := strtol_base s2 in
  let '(n, s4) := strtol_digits base s3 0 in
  if (length s4 =? length s3)%nat then
    if prefixed then (0%Z, length value - length s3 - 1, false)
    else (0%Z, O, false)
  else
    let endptr := length value - length s4 in
    let v := if negative then (- n)%Z else n in
    if (v <? LONG_MIN)%Z then (LONG_MIN, endptr, true)
    else if (LONG_MAX <? v)%Z then (LONG_MAX, endptr, true)
    else (v, endptr, false).

(** [parse_long value default_value]: [*endptr != 0] is an offset before
    the end of the string, [value == endptr] the offset 0. *)
Definition parse_long (value : list ascii) (default_value : Z) : Z :=
  let '(parsed, endptr, erange) := strtol value in
  if erange then default_value
  else if negb (endptr =? length value)%nat || (endptr =? 0)%nat then default_value
  else parsed.

(** The conversion [(int)long_value]: the low 32 bits, as a signed number. *)
Definition int_of_long (z : Z) : Z := ((z + 2 ^ 31) mod 2 ^ 32 - 2 ^ 31)%Z.

Definition parse_int (value : list ascii) (default_value : Z) : Z :=
  let long_value := parse_long value default_value in
  if negb (int_of_long long_value =? long_value)%Z then default_value
  else int_of_long long_value.

(** [parse_bool value default_value]; [None] is the NULL string. The [int]
    that [parse_int] returns becomes a [bool]: anything but 0 is [true]. *)
Definition parse_bool (value : option (list ascii)) (default_value : bool) : bool :=
  match value with
  | None => default_value
  | Some v =>
      if streq v (bytes "true") || streq v (bytes "on") || streq v (bytes "yes")
      then true
      else if streq v (bytes "false") || streq v (bytes "off") || streq v (bytes "no")
      then false
      else negb (parse_int v (if default_value then 1 else 0) =? 0)%Z
  end.

(** A decimal literal: white space, an optional minus sign, and digits
    without a leading zero (the literal [0] apart). *)
Definition is_decimal (ds : list ascii) : bool :=
  forallb isdigit ds &&
  match ds with
  | [] => false
  | [_] => true
  | d :: _ => negb (Ascii.eqb d "0")
  end.

Definition literal_text (i : nat) (negative : bool) (ds : list ascii) : list ascii :=
  spaces i ++ (if negative then ["-"] else []) ++ ds.

Definition literal_value (negative : bool) (ds : list ascii) : Z :=
  if negative then (- decimal_value ds)%Z else decimal_value ds.

(** The words that [parse_bool] knows. *)
Definition bool_words : list (list ascii) :=
  [bytes "true"; bytes "on"; bytes "yes"; bytes "false"; bytes "off"; bytes "no"].

(** A string that [strtol] converts nothing of: it is empty, or starts with
    a character that is neither white space, nor a sign, nor a digit. *)
Definition not_numeric (value : list ascii) : bool :=
  match value with
  | [] => true
  | c :: _ =>
      negb (isspace c) && negb (isdigit c) &&
      negb (Ascii.eqb c "-") && negb (Ascii.eqb c "+")
  end.

(** Octal digits, and the number that a string of them denotes. *)
Definition is_octal (c : ascii) : bool := isdigit c && (digit_value c <? 8)%Z.

Definition octal_value (ds : list ascii) : Z :=
  fold_left (fun acc c => (8 * acc + digit_value c)%Z) ds 0%Z.

(** ** Line endings *)

(** The physical line of a source line with white space [ws] (spaces,
    tabs, a carriage return) and possibly a comment [#t] at its end. *)
Definition line_tail (ws : list ascii) (comment : option (list ascii)) : list ascii :=
  ws ++ match comment with Some t => "#" :: t | None => [] end.

Definition with_tail (s : source_line) (ws : list ascii)
    (comment : option (list ascii)) : list ascii :=
  render_line s ++ line_tail ws comment.

(** White space of one physical line, and the text of a comment. *)
Definition is_blank (ws : list ascii) : bool := forallb isspace ws && single_line ws.

Definition is_comment (comment : option (list ascii)) : bool :=
  match comment with
  | Some t => single_line t && no_char "#" t
  | None => true
  end.

(** A file whose first line is a comment with a second [#], followed by an
    assignment. *)
Definition two_hash_comment_input : list ascii :=
  bytes "# a # b" ++ [LF] ++ bytes "x = 1" ++ [LF].
Definition one_hash_comment_input : list ascii :=
  bytes "# a" ++ [LF] ++ bytes "x = 1" ++ [LF].

(** * Properties *)

(** ** [parse_time_period] *)

Lemma uint_idem (z : Z) : uint (uint z) = uint z.
Proof. unfold uint, UINT_MODULUS. apply Z.mod_mod. lia. Qed.

Lemma uint_add_l (a b : Z) : uint (uint a + b) = uint (a + b).
Proof. unfold uint, UINT_MODULUS. apply Zplus_mod_idemp_l. Qed.

Lemma length_skipn_le {A} (n : nat) (l : list A) : length (skipn n l) <= length l.
Proof. rewrite length_skipn. lia. Qed.

(** The fuel of the loop is not a restriction: any fuel that covers the
    length of the string gives the same total. *)
Lemma parse_time_period_loop_fuel (u : period_units) :
  forall f1 f2 str total,
    length str <= f1 -> length str <= f2 ->
    parse_time_period_loop f1 u str total = parse_time_period_loop f2 u str total.
Proof.
  induction f1 as [|f1 IH]; intros f2 str total H1 H2.
  - destruct str; [|simpl in H1; lia]. destruct f2; reflexivity.
  - destruct f2 as [|f2].
    + destruct str; [reflexivity | simpl in H2; lia].
    + destruct str as [|c r]; [reflexivity|].
      cbn [parse_time_period_loop].
      destruct (sscanf_u_c (c :: r)) as [[period multiplier]|]; [|reflexivity].
      destruct (strchr (c :: r) multiplier) as [i|]; [|reflexivity].
      simpl in H1, H2. pose proof (length_skipn_le i r).
      apply IH; cbn [skipn]; lia.
Qed.

(** The loop adds up the components, modulo [2^32]. *)
Lemma parse_time_period_loop_sum (u : period_units) :
  forall fuel str total,
    parse_time_period_loop fuel u str (uint total) =
    uint (total + components_seconds u (period_components fuel str)).
Proof.
  induction fuel as [|fuel IH]; intros str total.
  - cbn. now rewrite Z.add_0_r.
  - destruct str as [|c r]; [cbn; now rewrite Z.add_0_r|].
    cbn [parse_time_period_loop period_components].
    destruct (sscanf_u_c (c :: r)) as [[period multiplier]|];
      [|cbn; now rewrite Z.add_0_r].
    destruct (strchr (c :: r) multiplier) as [i|].
    + rewrite uint_add_l, IH. cbn [components_seconds fold_right fst snd].
      f_equal. fold (components_seconds u (period_components fuel (skipn (S i) (c :: r)))).
      lia.
    + rewrite uint_add_l. cbn. now rewrite Z.add_0_r.
Qed.

(** C9. For a NULL string, and for every string whose [<integer><unit>]
    components sum to zero seconds (such as [0s]), [parse_time_period]
    returns the default value of the caller, not 0. *)
Theorem parse_time_period_zero_is_default (u : period_units)
    (str : option (list ascii)) (default_value : Z) :
  sums_to_zero u str ->
  parse_time_period u str default_value = default_value.
Proof.
  destruct str as [s|]; [|reflexivity].
  cbn [sums_to_zero parse_time_period]. intros H.
  change 0%Z with (uint 0) at 1.
  rewrite parse_time_period_loop_sum, Z.add_0_l, H. reflexivity.
Qed.

Lemma parse_time_period_zero_is_default_witness :
  sums_to_zero seconds_units (Some (bytes "0s")) /\
  parse_time_period seconds_units (Some (bytes "0s")) 15 = 15%Z.
Proof.
  split.
  - reflexivity.
  - apply (parse_time_period_zero_is_default seconds_units (Some (bytes "0s")) 15).
    reflexivity.
Defined.

(** The example of the spec: 30 seconds and 5 minutes. *)
Example parse_time_period_330 :
  parse_time_period seconds_units (Some (bytes "30s 5m")) 0 = 330%Z.
Proof. reflexivity. Qed.

(** ** The error latch *)

(** C4. Once a message is recorded, [config_error] keeps it, and
    [config_read_line], [config_skip_section] and [config_isolate_section]
    return [false] at once and leave the reader, message included, as it
    was; a second call therefore returns the same failure and message. *)
Theorem error_latch (fs : string -> option (list ascii)) (sizeof_buffer : nat)
    (conf : config) (l : config_line) (m : string) :
  error_message conf = Some m ->
  (forall msg, config_error conf msg = (false, conf)) /\
  config_read_line sizeof_buffer conf l = Some (false, conf, l) /\
  config_skip_section sizeof_buffer conf l = Some (false, conf, l) /\
  config_isolate_section fs sizeof_buffer conf l =
    Some (false, conf, l, set_file conf None).
Proof.
  intros H. unfold config_error, config_read_line, config_skip_section,
    config_isolate_section. rewrite H. auto.
Qed.

(** ** Skipping or isolating what is not a section *)

(** C10. With no error latched and a line that is not a section opening,
    [config_skip_section] and [config_isolate_section] return [false] and
    leave the reader as it was: no message, same cursor, same line count. *)
Theorem not_a_section_is_refused (fs : string -> option (list ascii))
    (sizeof_buffer : nat) (conf : config) (l : config_line) :
  error_message conf = None ->
  line_type l <> CONFIG_LINE_TYPE_SECTION ->
  config_skip_section sizeof_buffer conf l = Some (false, conf, l) /\
  config_isolate_section fs sizeof_buffer conf l =
    Some (false, conf, l, set_file conf None).
Proof.
  intros He Ht. unfold config_skip_section, config_isolate_section.
  rewrite He. destruct l; cbn in *; try congruence; auto.
Qed.

(** ** Streams and physical lines *)

Lemma single_line_c_str (ln : list ascii) :
  single_line ln = true -> c_str (ln ++ [LF]) = ln ++ [LF].
Proof.
  induction ln as [|c r IH]; [reflexivity|]. cbn.
  intros H. apply andb_prop in H as [Hc Hr]. apply andb_prop in Hc as [_ Hn].
  apply negb_true_iff in Hn. rewrite Hn. f_equal. now apply IH.
Qed.

Lemma fgets_chunk_line (ln rest : list ascii) :
  single_line ln = true ->
  forall k, length ln < k -> fgets_chunk k (ln ++ LF :: rest) = ln ++ [LF].
Proof.
  induction ln as [|c r IH]; intros H k Hk.
  - destruct k; [lia | reflexivity].
  - cbn in H. apply andb_prop in H as [Hc Hr]. apply andb_prop in Hc as [Hl _].
    apply negb_true_iff in Hl.
    destruct k; [simpl in Hk; lia|]. cbn. rewrite Hl. f_equal.
    apply IH; [assumption | simpl in Hk; lia].
Qed.

Lemma remaining_nonempty (f : FILE) (c : ascii) (r : list ascii) :
  remaining f = c :: r -> pos f < length (content f).
Proof.
  unfold remaining. intros H.
  assert (length (skipn (pos f) (content f)) = S (length r)) by now rewrite H.
  rewrite length_skipn in *. lia.
Qed.

Lemma remaining_advance (f : FILE) (a b : list ascii) :
  remaining f = a ++ b ->
  remaining (mkFILE (content f) (pos f + length a)) = b.
Proof.
  unfold remaining. cbn. intros H.
  rewrite Nat.add_comm, <- skipn_skipn, H.
  rewrite skipn_app, skipn_all, Nat.sub_diag. reflexivity.
Qed.

Lemma reader_at_bytes_left (conf : config) (rest : list ascii) :
  reader_at conf rest -> bytes_left conf = length rest.
Proof.
  intros (_ & _ & f & Hf & Hr). unfold bytes_left. rewrite Hf, <- Hr.
  unfold remaining. now rewrite length_skipn.
Qed.

Lemma reader_at_advance (conf : config) (a b : list ascii) (k : Z) :
  reader_at conf (a ++ b) -> reader_at (advance conf (length a) k) b.
Proof.
  intros (He & Hi & f & Hf & Hr). unfold advance. rewrite Hf.
  repeat split; cbn; try assumption.
  eexists. split; [reflexivity|]. now apply remaining_advance.
Qed.

Lemma reader_at_positioned (p : string) (before rest : list ascii) (lines : Z) :
  reader_at (positioned p before rest lines) rest.
Proof.
  unfold reader_at, positioned. cbn. repeat split; try lia.
  eexists. split; [reflexivity|]. unfold remaining. cbn.
  rewrite skipn_app, skipn_all, Nat.sub_diag. reflexivity.
Qed.

Lemma advance_advance (conf : config) (n m : nat) (j k : Z) :
  advance (advance conf n j) m k = advance conf (n + m) (j + k).
Proof.
  unfold advance. destruct (file conf) as [f|] eqn:Hf; cbn; [|now rewrite Hf].
  f_equal; [|lia]. do 2 f_equal. lia.
Qed.

Lemma advance_positioned (p : string) (before a rest : list ascii) (lines k : Z) :
  advance (positioned p before (a ++ rest) lines) (length a) k =
  positioned p (before ++ a) rest (lines + k).
Proof.
  unfold advance, positioned. cbn. rewrite <- app_assoc, length_app. reflexivity.
Qed.

(** [config_fgets] at end of file, and on a whole line that fits the buffer. *)
Lemma config_fgets_eof (conf : config) (n : nat) :
  reader_at conf [] -> config_fgets conf n = Some (None, conf).
Proof.
  intros (_ & _ & f & Hf & Hr). unfold config_fgets, fgets. now rewrite Hf, Hr.
Qed.

Lemma config_fgets_line (conf : config) (n : nat) (ln rest : list ascii) :
  reader_at conf (ln ++ LF :: rest) ->
  single_line ln = true ->
  length ln + 2 <= n ->
  config_fgets conf n = Some (Some (ln ++ [LF]), advance conf (S (length ln)) 1).
Proof.
  intros (He & Hi & f & Hf & Hr) Hs Hn.
  unfold config_fgets, fgets, advance. rewrite Hf, Hr.
  rewrite fgets_chunk_line by (assumption || lia).
  destruct (ln ++ LF :: rest) eqn:E; [now destruct ln|].
  cbn [set_file set_line isolated_end file path strbuf error_message line].
  apply Z.ltb_ge in Hi. rewrite Hi.
  rewrite length_app. cbn. rewrite Nat.add_1_r. reflexivity.
Qed.

(** Every successful [config_fgets] into a buffer of two bytes or more
    moves the cursor forward. *)
Lemma config_fgets_progress (conf conf1 : config) (n : nat) (buffer : list ascii) :
  2 <= n ->
  config_fgets conf n = Some (Some buffer, conf1) ->
  bytes_left conf1 < bytes_left conf.
Proof.
  intros Hn. unfold config_fgets, fgets, bytes_left.
  destruct (file conf) as [f|]; [|discriminate].
  destruct (remaining f) as [|c r] eqn:Hr; [discriminate|].
  apply remaining_nonempty in Hr.
  destruct n as [|[|k]]; try lia.
  replace (S (S k) - 1) with (S k) by lia.
  cbn [set_file isolated_end line].
  destruct (0 <? isolated_end conf)%Z.
  - destruct (ftell _ <? 0)%Z; [discriminate|].
    destruct (isolated_end conf <=? _)%Z; [discriminate|].
    intros [= _ <-]. unfold set_line, set_file. cbn [file content pos].
    destruct (Ascii.eqb c LF); cbn [length]; lia.
  - intros [= _ <-]. unfold set_line, set_file. cbn [file content pos].
    destruct (Ascii.eqb c LF); cbn [length]; lia.
Qed.

(** ** The loop of [config_read_line] *)

(** Any fuel above the number of bytes left gives the same result: the
    bound of [config_read_line] is not a restriction. *)
Lemma read_nonempty_line_fuel (sizeof_buffer : nat) :
  2 <= sizeof_buffer ->
  forall f1 f2 conf,
    bytes_left conf < f1 -> bytes_left conf < f2 ->
    read_nonempty_line f1 sizeof_buffer conf =
    read_nonempty_line f2 sizeof_buffer conf.
Proof.
  intros Hn. induction f1 as [|f1 IH]; intros f2 conf H1 H2; [lia|].
  destruct f2 as [|f2]; [lia|]. cbn [read_nonempty_line].
  destruct (config_fgets conf sizeof_buffer) as [[[fbuf|] conf1]|] eqn:E;
    try reflexivity.
  apply config_fgets_progress in E; [|assumption].
  destruct (remove_trailing_spaces _); [|reflexivity].
  apply IH; lia.
Qed.

(** With a buffer of two bytes or more, the loop of an open reader ends. *)
Lemma read_nonempty_line_total (sizeof_buffer : nat) :
  2 <= sizeof_buffer ->
  forall fuel conf,
    file conf <> None -> bytes_left conf < fuel ->
    read_nonempty_line fuel sizeof_buffer conf <> None.
Proof.
  intros Hn. induction fuel as [|fuel IH]; intros conf Hf Hb; [lia|].
  cbn [read_nonempty_line].
  destruct (config_fgets conf sizeof_buffer) as [[[fbuf|] conf1]|] eqn:E.
  - pose proof (config_fgets_progress _ _ _ _ Hn E) as Hp.
    destruct (remove_trailing_spaces _); [|discriminate].
    apply IH; [|lia].
    unfold config_fgets in E. destruct (file conf); [|discriminate].
    destruct (fgets _ _) as [[b f']|]; [|discriminate].
    cbn [set_file isolated_end] in E.
    destruct (0 <? isolated_end conf)%Z;
      [destruct (ftell f' <? 0)%Z; [discriminate|];
       destruct (isolated_end conf <=? ftell f')%Z; [discriminate|]|];
      injection E as _ <-; discriminate.
  - discriminate.
  - unfold config_fgets in E. destruct (file conf); [|congruence].
    destruct (fgets _ _) as [[b f']|]; [|discriminate].
    destruct (0 <? _)%Z; [|discriminate].
    destruct (ftell f' <? 0)%Z; [discriminate|].
    destruct (_ <=? _)%Z; discriminate.
Qed.

Lemma reader_at_next (conf : config) (ln rest : list ascii) (k : Z) :
  reader_at conf (ln ++ LF :: rest) ->
  reader_at (advance conf (S (length ln)) k) rest.
Proof.
  intros Hat.
  replace (S (length ln)) with (length (ln ++ [LF]))
    by (rewrite length_app; cbn; lia).
  apply reader_at_advance. now rewrite <- app_assoc.
Qed.

Section PhysicalLine.
Variable sizeof_buffer : nat.
Variables (conf : config) (ln rest : list ascii).
Hypothesis Hat : reader_at conf (ln ++ LF :: rest).
Hypothesis Hline : single_line ln = true.
Hypothesis Hfits : length ln + 2 <= sizeof_buffer.

Lemma read_nonempty_line_first (fuel : nat) :
  normalise (ln ++ [LF]) <> [] ->
  read_nonempty_line (S fuel) sizeof_buffer conf =
    Some (Some (normalise (ln ++ [LF])), advance conf (S (length ln)) 1).
Proof.
  intros Hne. cbn [read_nonempty_line].
  rewrite (config_fgets_line _ _ _ _ Hat Hline Hfits).
  rewrite single_line_c_str by assumption. fold (normalise (ln ++ [LF])).
  destruct (normalise (ln ++ [LF])); [congruence | reflexivity].
Qed.

Lemma read_nonempty_line_skip (fuel : nat) :
  normalise (ln ++ [LF]) = [] ->
  read_nonempty_line (S fuel) sizeof_buffer conf =
    read_nonempty_line fuel sizeof_buffer (advance conf (S (length ln)) 1).
Proof.
  intros He. cbn [read_nonempty_line].
  rewrite (config_fgets_line _ _ _ _ Hat Hline Hfits).
  rewrite single_line_c_str by assumption. fold (normalise (ln ++ [LF])).
  now rewrite He.
Qed.

(** A first line with content: [config_read_line] interprets it. *)
Lemma config_read_line_first (l : config_line) :
  normalise (ln ++ [LF]) <> [] ->
  config_read_line sizeof_buffer conf l =
    interpret_line (advance conf (S (length ln)) 1) l (normalise (ln ++ [LF])).
Proof.
  intros Hne. unfold config_read_line.
  destruct Hat as (He & _). rewrite He.
  now rewrite read_nonempty_line_first.
Qed.

(** A first line without content (blank or comment) is passed over. *)
Lemma config_read_line_skip (l : config_line) :
  normalise (ln ++ [LF]) = [] ->
  config_read_line sizeof_buffer conf l =
    config_read_line sizeof_buffer (advance conf (S (length ln)) 1) l.
Proof.
  intros Hn. unfold config_read_line.
  pose proof (reader_at_next _ _ _ 1 Hat) as Hnext.
  destruct Hat as (He & _). destruct Hnext as (He' & _). rewrite He, He'.
  rewrite read_nonempty_line_skip by assumption.
  rewrite (read_nonempty_line_fuel sizeof_buffer ltac:(lia) _
    (S (bytes_left (advance conf (S (length ln)) 1)))).
  - reflexivity.
  - rewrite (reader_at_bytes_left _ _ Hat),
      (reader_at_bytes_left _ _ (reader_at_next _ _ _ 1 Hat)).
    rewrite length_app. cbn. lia.
  - lia.
Qed.
End PhysicalLine.

Lemma config_read_line_eof (sizeof_buffer : nat) (conf : config) (l : config_line) :
  reader_at conf [] ->
  config_read_line sizeof_buffer conf l = Some (false, conf, l).
Proof.
  intros H. unfold config_read_line. destruct H as (He & Hr). rewrite He.
  cbn [read_nonempty_line]. rewrite config_fgets_eof; [reflexivity|].
  split; assumption.
Qed.

Lemma advance_positioned_line (p : string) (before ln rest : list ascii)
    (lines k : Z) :
  advance (positioned p before (ln ++ LF :: rest) lines) (S (length ln)) k =
  positioned p (before ++ ln ++ [LF]) rest (lines + k).
Proof.
  unfold advance, positioned. cbn.
  rewrite <- !app_assoc, !length_app. cbn. rewrite Nat.add_1_r. reflexivity.
Qed.

(** [config_read_line] on a positioned reader whose next line has content. *)
Lemma config_read_line_positioned (sizeof_buffer : nat) (p : string)
    (before ln rest : list ascii) (lines : Z) (l : config_line) :
  single_line ln = true ->
  length ln + 2 <= sizeof_buffer ->
  normalise (ln ++ [LF]) <> [] ->
  config_read_line sizeof_buffer (positioned p before (ln ++ LF :: rest) lines) l =
  interpret_line (positioned p (before ++ ln ++ [LF]) rest (lines + 1)) l
    (normalise (ln ++ [LF])).
Proof.
  intros Hs Hf Hn.
  rewrite (config_read_line_first sizeof_buffer _ ln rest); try assumption.
  - now rewrite advance_positioned_line.
  - apply reader_at_positioned.
Qed.

(** ** The examples of the spec on comments and section openings *)

(** C6 (the code departs from the claim). [remove_comments] cuts the line at
    its LAST [#]: of [a = b # c # d] the reader keeps [a = b # c], so the
    value it delivers is [b # c] and not [b]. *)
Theorem remove_comments_cuts_at_last_hash :
  remove_comments (two_hash_line ++ [LF]) = bytes "a = b # c " /\
  config_read_line 1024 (opened "f" (two_hash_line ++ [LF])) ConfigSectionEnd =
    Some (true, positioned "f" (two_hash_line ++ [LF]) [] 1,
          ConfigLine (bytes "a") (bytes "b # c")).
Proof. split; reflexivity. Qed.

(** In general the cut is at a [#] after which no [#] follows. *)
Lemma strrchr_app_last (a b : list ascii) (c : ascii) :
  strrchr b c = None -> strrchr (a ++ c :: b) c = Some (length a).
Proof.
  intros Hb. induction a as [|x a IH]; cbn.
  - now rewrite Hb, Ascii.eqb_refl.
  - now rewrite IH.
Qed.

Lemma remove_comments_last_hash (a b : list ascii) :
  strrchr b "#" = None -> remove_comments (a ++ "#" :: b) = a.
Proof.
  intros Hb. unfold remove_comments. rewrite strrchr_app_last by assumption.
  rewrite firstn_app, firstn_all, Nat.sub_diag. cbn. apply app_nil_r.
Qed.

(** C8, as the spec states it, fails: the reader does not stop on the line
    [db { host = local] with the malformed-section-opening error. *)
Lemma db_line_is_not_malformed :
  exists conf' l',
    config_read_line 1024 (opened "f" db_input) ConfigSectionEnd =
      Some (true, conf', l') /\
    l' = ConfigLine (bytes "db_{_host") (bytes "local") /\
    error_message conf' = None /\
    config_read_line 1024 (opened "f" db_input) ConfigSectionEnd <>
      Some (false,
            set_error_message conf' (Some "Malformed section opening"%string),
            ConfigSectionEnd).
Proof.
  eexists. eexists. split; [reflexivity|].
  split; [reflexivity|]. split; [reflexivity|]. discriminate.
Qed.

(** C8, amended. The line [db { host = local] does not end in a brace: it is
    classified as the assignment of [local] to the key [db_{_host], with no
    error. The malformed-section-opening error is that of a line that ends
    in a brace and has no space, such as [db{]. *)
Theorem db_line_is_an_assignment (sizeof_buffer : nat) (p : string)
    (before rest : list ascii) (lines : Z) (l : config_line) :
  19 <= sizeof_buffer ->
  config_read_line sizeof_buffer
      (positioned p before (db_line ++ LF :: rest) lines) l =
    Some (true, positioned p (before ++ db_line ++ [LF]) rest (lines + 1),
          ConfigLine (bytes "db_{_host") (bytes "local")) /\
  exists l',
    config_read_line sizeof_buffer
        (positioned p before (bytes "db{" ++ LF :: rest) lines) l =
      Some (false,
            set_error_message
              (positioned p (before ++ bytes "db{" ++ [LF]) rest (lines + 1))
              (Some "Malformed section opening"%string),
            l').
Proof.
  intros Hn. split.
  - rewrite config_read_line_positioned;
      [reflexivity | reflexivity | cbn; lia | discriminate].
  - exists l. rewrite config_read_line_positioned;
      [reflexivity | reflexivity | cbn; lia | discriminate].
Qed.

Lemma db_line_is_an_assignment_witness :
  config_read_line 1024 (positioned "f" [] (db_line ++ LF :: bytes "}" ++ [LF]) 0)
      ConfigSectionEnd =
    Some (true, positioned "f" ([] ++ db_line ++ [LF]) (bytes "}" ++ [LF]) (0 + 1),
          ConfigLine (bytes "db_{_host") (bytes "local")) /\
  exists l',
    config_read_line 1024
        (positioned "f" [] (bytes "db{" ++ LF :: bytes "}" ++ [LF]) 0)
        ConfigSectionEnd =
      Some (false,
            set_error_message
              (positioned "f" ([] ++ bytes "db{" ++ [LF]) (bytes "}" ++ [LF]) (0 + 1))
              (Some "Malformed section opening"%string),
            l').
Proof.
  apply (db_line_is_an_assignment 1024 "f" [] (bytes "}" ++ [LF]) 0 ConfigSectionEnd).
  lia.
Defined.

(** ** The depth cap of the section-skip engine *)

Lemma advance_0 (conf : config) : advance conf 0 0 = conf.
Proof.
  unfold advance. destruct conf as [[[c q]|] p b e n i]; cbn; [|reflexivity].
  rewrite Nat.add_0_r, Z.add_0_r. reflexivity.
Qed.

Lemma section_closes_S (n : nat) :
  section_closes (S n) = section_closes n ++ close_line ++ [LF].
Proof.
  unfold section_closes.
  change (S n) with (1 + n). rewrite Nat.add_comm, repeat_app, concat_app.
  cbn [repeat concat]. now rewrite app_nil_r.
Qed.

Lemma length_nested_opens (n : nat) : length (nested_opens n) = 6 * n.
Proof.
  induction n as [|n IH]; [reflexivity|].
  change (nested_opens (S n)) with ((open_line ++ [LF]) ++ nested_opens n).
  rewrite length_app, IH. cbn [length app open_line bytes list_ascii_of_string]. lia.
Qed.

Lemma length_section_closes (n : nat) : length (section_closes n) = 2 * n.
Proof.
  induction n as [|n IH]; [reflexivity|].
  change (section_closes (S n)) with ((close_line ++ [LF]) ++ section_closes n).
  rewrite length_app, IH. cbn [length app close_line bytes list_ascii_of_string]. lia.
Qed.

Section Depth.
Variable sizeof_buffer : nat.
Hypothesis Hsize : 7 <= sizeof_buffer.

Lemma read_open_line (conf : config) (rest : list ascii) (l : config_line) :
  reader_at conf (open_line ++ LF :: rest) ->
  config_read_line sizeof_buffer conf l =
    Some (true, advance conf 6 1, ConfigSection (bytes "s") (bytes "x")).
Proof.
  intros H.
  rewrite (config_read_line_first sizeof_buffer conf open_line rest);
    [reflexivity | assumption | reflexivity | cbn; lia | discriminate].
Qed.

Lemma read_close_line (conf : config) (rest : list ascii) (l : config_line) :
  reader_at conf (close_line ++ LF :: rest) ->
  config_read_line sizeof_buffer conf l =
    Some (true, advance conf 2 1, ConfigSectionEnd).
Proof.
  intros H.
  rewrite (config_read_line_first sizeof_buffer conf close_line rest);
    [reflexivity | assumption | reflexivity | cbn; lia | discriminate].
Qed.

(** [k] openings that lead from level [lev] to level 11. *)
Lemma find_section_end_too_deep :
  forall k lev fuel conf tail l,
    (lev + Z.of_nat k = 11)%Z ->
    reader_at conf (nested_opens k ++ tail) ->
    2 * k + 1 <= fuel ->
    exists l',
      find_section_end fuel sizeof_buffer conf l lev =
      Some (false,
            set_error_message (advance conf (6 * k) (Z.of_nat k))
              (Some "Recursion level too deep"%string),
            l').
Proof.
  induction k as [|k IH]; intros lev fuel conf tail l Hlev Hat Hfuel.
  - destruct fuel as [|fuel]; [lia|]. exists l. cbn [find_section_end].
    replace (10 <? lev)%Z with true by (symmetry; apply Z.ltb_lt; lia).
    unfold config_error. destruct Hat as (He & _). rewrite He.
    cbn [snd]. now rewrite advance_0.
  - destruct fuel as [|[|fuel]]; try lia. cbn [find_section_end].
    replace (10 <? lev)%Z with false by (symmetry; apply Z.ltb_ge; lia).
    cbn [find_section_end_loop].
    change (nested_opens (S k) ++ tail)
      with (open_line ++ LF :: (nested_opens k ++ tail)) in Hat.
    rewrite (read_open_line _ _ _ Hat). cbn [line_type].
    pose proof (reader_at_next _ _ _ 1 Hat) as Hnext.
    change (S (length open_line)) with 6 in Hnext.
    destruct (IH (lev + 1)%Z fuel _ tail
      (ConfigSection (bytes "s") (bytes "x")) ltac:(lia) Hnext
      ltac:(lia)) as (l' & ->).
    exists l'. rewrite advance_advance.
    replace (6 + 6 * k) with (6 * S k) by lia.
    replace (1 + Z.of_nat k)%Z with (Z.of_nat (S k)) by lia.
    reflexivity.
Qed.

(** [k] openings from level [lev], within the cap, and their closings. *)
Lemma find_section_end_nested :
  forall k lev fuel conf tail l,
    (lev + Z.of_nat k <= 10)%Z ->
    reader_at conf (nested_opens k ++ section_closes (S k) ++ tail) ->
    3 * k + 2 <= fuel ->
    find_section_end fuel sizeof_buffer conf l lev =
      Some (true, advance conf (6 * k + 2 * S k) (2 * Z.of_nat k + 1),
      ConfigSectionEnd).
Proof.
  induction k as [|k IH]; intros lev fuel conf tail l Hlev Hat Hfuel.
  - destruct fuel as [|[|fuel]]; try lia. cbn [find_section_end].
    replace (10 <? lev)%Z with false by (symmetry; apply Z.ltb_ge; lia).
    cbn [find_section_end_loop].
    change (nested_opens 0 ++ section_closes 1 ++ tail)
      with (close_line ++ LF :: tail) in Hat.
    now rewrite (read_close_line _ _ _ Hat).
  - destruct fuel as [|[|fuel]]; try lia. cbn [find_section_end].
    replace (10 <? lev)%Z with false by (symmetry; apply Z.ltb_ge; lia).
    cbn [find_section_end_loop].
    rewrite section_closes_S, <- app_assoc in Hat.
    change (nested_opens (S k) ++ ?x)
      with (open_line ++ LF :: (nested_opens k ++ x)) in Hat.
    rewrite (read_open_line _ _ _ Hat). cbn [line_type].
    pose proof (reader_at_next _ _ _ 1 Hat) as Hnext.
    change (S (length open_line)) with 6 in Hnext.
    rewrite (IH (lev + 1)%Z fuel _ ((close_line ++ [LF]) ++ tail)
      (ConfigSection (bytes "s") (bytes "x")) ltac:(lia) Hnext
      ltac:(lia)).
    rewrite app_assoc in Hnext.
    apply (reader_at_advance _ _ _ (2 * Z.of_nat k + 1)) in Hnext.
    rewrite length_app, length_nested_opens, length_section_closes in Hnext.
    destruct fuel as [|fuel]; [lia|]. cbn [find_section_end_loop].
    change ((close_line ++ [LF]) ++ tail) with (close_line ++ LF :: tail) in Hnext.
    rewrite (read_close_line _ _ _ Hnext). cbn [line_type].
    rewrite !advance_advance.
    replace (6 + (6 * k + 2 * S k + 2)) with (6 * S k + 2 * S (S k)) by lia.
    replace (1 + (2 * Z.of_nat k + 1 + 1))%Z with (2 * Z.of_nat (S k) + 1)%Z by lia.
    reflexivity.
Qed.

(** C5. A section is being skipped ([config_skip_section] on its opening
    line, the reader just past it). If 11 section openings, each nested in
    the one before, follow before any closing line, the skip fails with
    the recursion-too-deep error; if exactly 10 follow, with the closing
    lines of all of them and of the skipped section, the skip succeeds and
    leaves the reader past the last closing line. *)
Theorem skip_depth_cap (p : string) (before tail : list ascii) (lines : Z)
    (name param : list ascii) :
  (exists l',
      config_skip_section sizeof_buffer
        (positioned p before (nested_opens 11 ++ tail) lines)
        (ConfigSection name param) =
      Some (false,
            set_error_message
              (positioned p (before ++ nested_opens 11) tail (lines + 11))
              (Some "Recursion level too deep"%string),
            l')) /\
  config_skip_section sizeof_buffer
    (positioned p before (nested_opens 10 ++ section_closes 11 ++ tail) lines)
    (ConfigSection name param) =
  Some (true,
        positioned p (before ++ nested_opens 10 ++ section_closes 11) tail
          (lines + 21),
        ConfigSectionEnd).
Proof.
  split.
  - pose proof (reader_at_positioned p before (nested_opens 11 ++ tail) lines)
      as Hat.
    destruct (find_section_end_too_deep 11 0
      (skip_fuel (positioned p before (nested_opens 11 ++ tail) lines))
      _ tail (ConfigSection name param) eq_refl Hat) as (l' & Hl).
    + unfold skip_fuel. rewrite (reader_at_bytes_left _ _ Hat), length_app,
        length_nested_opens. lia.
    + exists l'. unfold config_skip_section. cbn [error_message positioned is_section negb].
      fold (positioned p before (nested_opens 11 ++ tail) lines).
      rewrite Hl. rewrite <- (length_nested_opens 11), advance_positioned.
      reflexivity.
  - pose proof (reader_at_positioned p before
      (nested_opens 10 ++ section_closes 11 ++ tail) lines) as Hat.
    unfold config_skip_section. cbn [error_message positioned is_section negb].
    fold (positioned p before (nested_opens 10 ++ section_closes 11 ++ tail) lines).
    rewrite (find_section_end_nested 10 0 _ _ tail _ ltac:(lia) Hat).
    + replace (6 * 10 + 2 * 11)
        with (length (nested_opens 10 ++ section_closes 11))
        by (now rewrite length_app, length_nested_opens, length_section_closes).
      rewrite (app_assoc (nested_opens 10)), advance_positioned. reflexivity.
    + unfold skip_fuel. rewrite (reader_at_bytes_left _ _ Hat), !length_app,
        length_nested_opens, length_section_closes. lia.
Qed.
End Depth.

Lemma skip_depth_cap_witness :
  (exists l',
     config_skip_section 1024
       (positioned "f" (open_line ++ [LF]) (nested_opens 11 ++ []) 1)
       (ConfigSection (bytes "s") (bytes "x")) =
     Some (false,
           set_error_message
             (positioned "f" ((open_line ++ [LF]) ++ nested_opens 11) [] (1 + 11))
             (Some "Recursion level too deep"%string),
           l')) /\
  config_skip_section 1024
    (positioned "f" (open_line ++ [LF])
       (nested_opens 10 ++ section_closes 11 ++ []) 1)
    (ConfigSection (bytes "s") (bytes "x")) =
  Some (true,
        positioned "f"
          ((open_line ++ [LF]) ++ nested_opens 10 ++ section_closes 11) []
          (1 + 21),
        ConfigSectionEnd).
Proof.
  apply (skip_depth_cap 1024 ltac:(lia) "f" (open_line ++ [LF]) [] 1
           (bytes "s") (bytes "x")).
Defined.

(** ** The multiline accumulator *)

Lemma remove_trailing_spaces_snoc_space (x : list ascii) (c : ascii) :
  isspace c = true ->
  remove_trailing_spaces (x ++ [c]) = remove_trailing_spaces x.
Proof.
  intros Hc. induction x as [|a x IH]; cbn.
  - now rewrite Hc.
  - now rewrite IH.
Qed.

Lemma has_text_remove_trailing_spaces (x : list ascii) :
  has_text x = true -> remove_trailing_spaces x <> [].
Proof.
  induction x as [|a x IH]; cbn; [discriminate|].
  intros H. destruct (remove_trailing_spaces x) eqn:E; [|discriminate].
  destruct (isspace a); [|discriminate].
  cbn in H. now apply IH in H.
Qed.

Lemma remove_leading_spaces_length (x : list ascii) :
  length (remove_leading_spaces x) <= length x.
Proof.
  induction x as [|a x IH]; cbn; [lia|].
  destruct (isspace a); cbn; lia.
Qed.

(** A line with text is captured with its leading white space; only its
    trailing white space (the newline included) is removed. *)
Lemma multiline_capture_text (ln : list ascii) :
  has_text ln = true -> multiline_capture ln = remove_trailing_spaces ln.
Proof.
  unfold multiline_capture.
  induction ln as [|c r IH]; [discriminate|]. cbn [has_text existsb].
  destruct (isspace c) eqn:Hc; cbn [negb orb]; intros H.
  - cbn [app remove_leading_spaces]. rewrite Hc.
    pose proof (remove_leading_spaces_length (r ++ [LF])) as Hl.
    cbn [length]. rewrite Nat.sub_succ_l by assumption.
    cbn [firstn app]. rewrite (IH H). cbn [remove_trailing_spaces].
    destruct (remove_trailing_spaces r) eqn:E; [|reflexivity].
    now apply has_text_remove_trailing_spaces in H.
  - cbn [app remove_leading_spaces]. rewrite Hc, Nat.sub_diag. cbn [firstn app].
    change (c :: r ++ [LF]) with ((c :: r) ++ [LF]).
    now apply remove_trailing_spaces_snoc_space.
Qed.

(** A line of white space only is captured with its own newline: the
    trimming starts after the leading white space and finds nothing. *)
Lemma multiline_capture_blank (ln : list ascii) :
  has_text ln = false -> multiline_capture ln = ln ++ [LF].
Proof.
  unfold multiline_capture. intros H.
  assert (remove_leading_spaces (ln ++ [LF]) = []) as ->.
  { induction ln as [|c r IH]; [reflexivity|]. cbn in *.
    destruct (isspace c); [now apply IH | discriminate]. }
  cbn [length remove_trailing_spaces]. rewrite Nat.sub_0_r, firstn_all.
  apply app_nil_r.
Qed.

Lemma reader_at_set_strbuf (conf : config) (b rest : list ascii) :
  reader_at conf rest -> reader_at (set_strbuf conf b) rest.
Proof. intros H. exact H. Qed.

Lemma advance_set_strbuf (conf : config) (b : list ascii) (n : nat) (k : Z) :
  advance (set_strbuf conf b) n k = set_strbuf (advance conf n k) b.
Proof. destruct conf as [[f|] pa sb er li ie]; reflexivity. Qed.

Lemma strbuf_advance (conf : config) (n : nat) (k : Z) :
  strbuf (advance conf n k) = strbuf conf.
Proof. unfold advance. now destruct (file conf). Qed.

Lemma body_line_inv (ln : list ascii) :
  body_line ln = true ->
  single_line ln = true /\ length ln + 2 <= 1024 /\ is_terminator ln = false.
Proof.
  unfold body_line. intros H.
  apply andb_prop in H as [H Ht]. apply andb_prop in H as [Hs Hl].
  apply Nat.leb_le in Hl. apply negb_true_iff in Ht. auto.
Qed.

(** The loop of [parse_multiline] over the body lines [ls] and the
    terminator [term]: each line is appended as [multiline_capture] leaves
    it, with a newline. *)
Lemma parse_multiline_loop_lines (term rest : list ascii) (l : config_line) :
  single_line term = true -> length term + 2 <= 1024 ->
  is_terminator term = true ->
  forall ls fuel conf,
    forallb body_line ls = true ->
    reader_at conf (text_of_lines ls ++ term ++ LF :: rest) ->
    length ls < fuel ->
    let value :=
      strbuf conf ++ concat (map (fun ln => multiline_capture ln ++ [LF]) ls) in
    parse_multiline_loop fuel conf l =
    Some (true,
          set_strbuf
            (advance conf (length (text_of_lines ls) + S (length term))
               (Z.of_nat (length ls) + 1))
            value,
          set_value l value).
Proof.
  intros Hts Htl Htt. induction ls as [|ln ls IH]; intros fuel conf Hls Hat Hfuel.
  - destruct fuel as [|fuel]; [cbn in Hfuel; lia|].
    cbn [parse_multiline_loop text_of_lines map concat app] in *.
    rewrite (config_fgets_line _ _ _ _ Hat Hts Htl).
    rewrite single_line_c_str by assumption.
    unfold is_terminator in Htt. rewrite Htt.
    unfold strbuf_get_buffer. rewrite strbuf_advance, app_nil_r.
    cbn [length Nat.add Z.of_nat Z.add].
    destruct conf as [fl pa sb er li ie]. unfold advance, set_strbuf. cbn.
    now destruct fl.
  - destruct fuel as [|fuel]; [cbn in Hfuel; lia|].
    cbn [forallb] in Hls. apply andb_prop in Hls as [Hln Hls].
    apply body_line_inv in Hln as (Hs & Hl & Ht).
    unfold text_of_lines in Hat. cbn [map concat] in Hat.
    fold (text_of_lines ls) in Hat. rewrite <- !app_assoc in Hat.
    cbn [app] in Hat.
    cbn [parse_multiline_loop].
    rewrite (config_fgets_line _ _ _ _ Hat Hs Hl).
    rewrite single_line_c_str by assumption.
    unfold is_terminator in Ht. rewrite Ht.
    fold (multiline_capture ln).
    pose proof (reader_at_next _ _ _ 1 Hat) as Hnext.
    unfold strbuf_append_char, strbuf_append_str.
    cbn [strbuf set_strbuf file path error_message line isolated_end].
    rewrite strbuf_advance.
    match goal with |- parse_multiline_loop _ ?c _ = _ =>
      replace c with (set_strbuf (advance conf (S (length ln)) 1)
                        ((strbuf conf ++ multiline_capture ln) ++ [LF]))
        by (unfold set_strbuf; reflexivity)
    end.
    rewrite IH; [|assumption|now apply reader_at_set_strbuf|cbn in Hfuel; lia].
    cbn [strbuf set_strbuf]. rewrite advance_set_strbuf, advance_advance.
    cbn [map concat]. rewrite <- !app_assoc.
    unfold text_of_lines at 2. cbn [map concat]. fold (text_of_lines ls).
    rewrite !length_app. cbn [length].
    replace (S (length ln) + (length (text_of_lines ls) + S (length term)))
      with (length ln + 1 + length (text_of_lines ls) + S (length term)) by lia.
    replace (1 + (Z.of_nat (length ls) + 1))%Z
      with (Z.of_nat (S (length ls)) + 1)%Z by lia.
    reflexivity.
Qed.

Lemma length_text_of_lines (ls : list (list ascii)) :
  length ls <= length (text_of_lines ls).
Proof.
  induction ls as [|ln ls IH]; [cbn; lia|].
  unfold text_of_lines in *. cbn [map concat length].
  rewrite !length_app. cbn [length]. lia.
Qed.

Lemma trimmed_value_capture (ls : list (list ascii)) :
  forallb (fun ln => body_line ln && has_text ln) ls = true ->
  concat (map (fun ln => multiline_capture ln ++ [LF]) ls) = trimmed_value ls.
Proof.
  unfold trimmed_value. induction ls as [|ln ls IH]; [reflexivity|].
  cbn [forallb map concat]. intros H.
  apply andb_prop in H as [H Hls]. apply andb_prop in H as [_ Ht].
  now rewrite IH, multiline_capture_text.
Qed.

(** C7, as the spec states it, fails: a body line that ends with a space is
    not captured verbatim. *)
Lemma multiline_value_is_not_verbatim :
  exists conf' value,
    config_read_line 1024 (opened "f" (multiline_input trailing_space_body))
      ConfigSectionEnd =
    Some (true, conf', ConfigLine (bytes "k") value) /\
    value = bytes "x # y" ++ [LF] /\
    value <> verbatim_value trailing_space_body.
Proof.
  eexists. exists (bytes "x # y" ++ [LF]).
  split; [reflexivity|]. split; [reflexivity|]. discriminate.
Qed.

(** [parse_multiline] on body lines that hold text. *)
Lemma parse_multiline_trimmed (conf : config)
    (ls : list (list ascii)) (term rest : list ascii) (l : config_line) :
  reader_at conf (text_of_lines ls ++ term ++ LF :: rest) ->
  forallb (fun ln => body_line ln && has_text ln) ls = true ->
  terminator_line term = true ->
  parse_multiline conf l =
  Some (true,
        set_strbuf
          (advance conf (length (text_of_lines ls) + S (length term))
             (Z.of_nat (length ls) + 1))
          (trimmed_value ls),
        set_value l (trimmed_value ls)).
Proof.
  intros Hat Hls Hterm.
  unfold terminator_line in Hterm.
  apply andb_prop in Hterm as [Hterm Ht]. apply andb_prop in Hterm as [Hs Hl].
  apply Nat.leb_le in Hl.
  assert (forallb body_line ls = true) as Hbody.
  { rewrite forallb_forall in *. intros ln Hin.
    specialize (Hls ln Hin). now apply andb_prop in Hls as [? _]. }
  unfold parse_multiline, strbuf_reset_length.
  rewrite (parse_multiline_loop_lines term rest l Hs Hl Ht ls);
    [|assumption|now apply reader_at_set_strbuf|].
  - cbn [strbuf set_strbuf app]. rewrite (trimmed_value_capture ls Hls).
    rewrite advance_set_strbuf. reflexivity.
  - change (bytes_left (set_strbuf conf [])) with (bytes_left conf).
    rewrite (reader_at_bytes_left _ _ Hat), length_app.
    pose proof (length_text_of_lines ls). lia.
Qed.

(** C7, amended. Take body lines that each hold a character that is not
    white space, fit the buffer and do not trim to the sentinel, followed by
    a terminator line. The value captured is the body lines in order, each
    with its trailing white space removed and nothing else changed (leading
    white space and [#] are kept: no comment is stripped), and a newline
    after each line, the last one included. *)
Theorem multiline_value_is_trimmed_lines (conf : config)
    (ls : list (list ascii)) (term rest : list ascii) (l : config_line) :
  reader_at conf (text_of_lines ls ++ term ++ LF :: rest) ->
  forallb (fun ln => body_line ln && has_text ln) ls = true ->
  terminator_line term = true ->
  parse_multiline conf l =
  Some (true,
        set_strbuf
          (advance conf (length (text_of_lines ls) + S (length term))
             (Z.of_nat (length ls) + 1))
          (trimmed_value ls),
        set_value l (trimmed_value ls)).
Proof. apply parse_multiline_trimmed. Qed.

Lemma multiline_value_is_trimmed_lines_witness :
  parse_multiline
    (positioned "f" (bytes "k = '''" ++ [LF])
       (text_of_lines trailing_space_body ++ multiline_sentinel ++ LF :: []) 1)
    (ConfigLine (bytes "k") multiline_sentinel) =
  Some (true,
        set_strbuf
          (advance
             (positioned "f" (bytes "k = '''" ++ [LF])
                (text_of_lines trailing_space_body ++ multiline_sentinel ++ LF :: []) 1)
             (length (text_of_lines trailing_space_body) + S (length multiline_sentinel))
             (Z.of_nat (length trailing_space_body) + 1))
          (trimmed_value trailing_space_body),
        set_value (ConfigLine (bytes "k") multiline_sentinel)
          (trimmed_value trailing_space_body)).
Proof.
  apply (multiline_value_is_trimmed_lines _ trailing_space_body multiline_sentinel []).
  - unfold reader_at. cbn. repeat split; try lia.
    eexists. split; reflexivity.
  - reflexivity.
  - reflexivity.
Defined.

(** The same capture on a body with a blank line: the blank line keeps its
    own newline and gets one more. *)
Example multiline_blank_line :
  config_read_line 1024 (opened "f" (multiline_input blank_line_body))
    ConfigSectionEnd =
  Some (true,
        set_strbuf (positioned "f" (multiline_input blank_line_body) [] 5)
          (bytes "x" ++ [LF] ++ [LF; LF] ++ bytes "y" ++ [LF]),
        ConfigLine (bytes "k") (bytes "x" ++ [LF] ++ [LF; LF] ++ bytes "y" ++ [LF])).
Proof. reflexivity. Qed.

(** ** Normalising and interpreting well-formed lines *)

Lemma strrchr_none (c : ascii) (s : list ascii) :
  no_char c s = true -> strrchr s c = None.
Proof.
  induction s as [|x s IH]; [reflexivity|]. cbn. intros H.
  apply andb_prop in H as [Hx Hs]. apply negb_true_iff in Hx.
  now rewrite IH, Hx.
Qed.

Lemma strchr_first (c : ascii) (a b : list ascii) :
  no_char c a = true -> strchr (a ++ c :: b) c = Some (length a).
Proof.
  induction a as [|x a IH]; cbn.
  - now rewrite Ascii.eqb_refl.
  - intros H. apply andb_prop in H as [Hx Ha]. apply negb_true_iff in Hx.
    now rewrite Hx, IH.
Qed.

Lemma no_char_app (c : ascii) (a b : list ascii) :
  no_char c (a ++ b) = no_char c a && no_char c b.
Proof. apply forallb_app. Qed.

Lemma single_line_app (a b : list ascii) :
  single_line (a ++ b) = single_line a && single_line b.
Proof. apply forallb_app. Qed.

Lemma single_line_spaces (i : nat) : single_line (spaces i) = true.
Proof. induction i; [reflexivity | assumption]. Qed.

Lemma no_hash_spaces (i : nat) : no_char "#" (spaces i) = true.
Proof. induction i; [reflexivity | assumption]. Qed.

Lemma length_spaces (i : nat) : length (spaces i) = i.
Proof. apply repeat_length. Qed.

Lemma remove_leading_spaces_spaces (i : nat) (s : list ascii) :
  remove_leading_spaces (spaces i ++ s) = remove_leading_spaces s.
Proof. induction i; [reflexivity | assumption]. Qed.

Lemma remove_leading_spaces_id (s : list ascii) :
  isspace (hd " " s) = false -> remove_leading_spaces s = s.
Proof. destruct s as [|c s]; [reflexivity|]. cbn. now intros ->. Qed.

Lemma remove_trailing_spaces_id (s : list ascii) :
  isspace (find_line_end s) = false -> remove_trailing_spaces s = s.
Proof.
  unfold find_line_end. induction s as [|c s IH]; [reflexivity|].
  destruct s as [|d s].
  - cbn. now intros ->.
  - intros H. change (last (c :: d :: s) NUL) with (last (d :: s) NUL) in H.
    specialize (IH H). cbn [remove_trailing_spaces] in *. now rewrite IH.
Qed.

Lemma find_line_end_app (a b : list ascii) :
  b <> [] -> find_line_end (a ++ b) = find_line_end b.
Proof.
  unfold find_line_end. intros Hb. induction a as [|x a IH]; [reflexivity|].
  cbn [app]. destruct (a ++ b) eqn:E.
  - now apply app_eq_nil in E as [_ ?].
  - exact IH.
Qed.

Lemma hd_app (d : ascii) (a b : list ascii) : a <> [] -> hd d (a ++ b) = hd d a.
Proof. now destruct a. Qed.

Lemma firstn_exact {A} (a b : list A) : firstn (length a) (a ++ b) = a.
Proof. rewrite firstn_app, firstn_all, Nat.sub_diag. cbn. apply app_nil_r. Qed.

Lemma skipn_exact {A} (a b : list A) : skipn (length a) (a ++ b) = b.
Proof. rewrite skipn_app, skipn_all, Nat.sub_diag. reflexivity. Qed.

(** What [is_text] gives. *)
Lemma is_text_inv (s : list ascii) :
  is_text s = true ->
  single_line s = true /\ no_char "#" s = true /\ s <> [] /\
  isspace (hd " " s) = false /\ isspace (find_line_end s) = false.
Proof.
  unfold is_text. intros H.
  apply andb_prop in H as [H Hl]. apply andb_prop in H as [H Hh].
  apply andb_prop in H as [Hs Hc].
  apply negb_true_iff in Hl, Hh. repeat split; try assumption.
  intros ->. discriminate Hh.
Qed.

(** A physical line made of an indentation and a text normalises to the
    text. *)
Lemma normalise_text (i : nat) (body : list ascii) :
  is_text body = true -> normalise (spaces i ++ body ++ [LF]) = body.
Proof.
  intros H. apply is_text_inv in H as (Hs & Hc & Hne & Hh & Hl).
  unfold normalise, remove_comments.
  rewrite strrchr_none
    by (now rewrite !no_char_app, no_hash_spaces, Hc).
  rewrite remove_leading_spaces_spaces.
  rewrite remove_leading_spaces_id by (now rewrite hd_app).
  rewrite remove_trailing_spaces_snoc_space by reflexivity.
  now apply remove_trailing_spaces_id.
Qed.

(** A comment line and a blank line normalise to nothing. *)
Lemma normalise_comment (i : nat) (t : list ascii) :
  no_char "#" t = true -> normalise (spaces i ++ (bytes "#" ++ t) ++ [LF]) = [].
Proof.
  intros Ht. unfold normalise.
  change (spaces i ++ (bytes "#" ++ t) ++ [LF])
    with (spaces i ++ "#" :: (t ++ [LF])).
  rewrite remove_comments_last_hash
    by (apply strrchr_none; now rewrite no_char_app, Ht).
  rewrite <- (app_nil_r (spaces i)), remove_leading_spaces_spaces. reflexivity.
Qed.

Lemma normalise_blank (i : nat) : normalise (spaces i ++ [LF]) = [].
Proof.
  unfold normalise, remove_comments.
  rewrite strrchr_none by (now rewrite no_char_app, no_hash_spaces).
  rewrite remove_leading_spaces_spaces. reflexivity.
Qed.

Lemma is_text_join (a b : list ascii) :
  is_text a = true ->
  single_line b = true -> no_char "#" b = true -> b <> [] ->
  isspace (find_line_end b) = false ->
  is_text (a ++ b) = true.
Proof.
  intros Ha Hs Hc Hne Hl. apply is_text_inv in Ha as (Hs' & Hc' & Hne' & Hh & _).
  unfold is_text.
  rewrite single_line_app, no_char_app, Hs, Hs', Hc, Hc', hd_app, Hh,
    find_line_end_app, Hl by assumption.
  reflexivity.
Qed.

Lemma is_text_assign (k v : list ascii) :
  is_text k = true -> is_text v = true -> is_text (k ++ bytes " = " ++ v) = true.
Proof.
  intros Hk Hv. apply is_text_inv in Hv as (Hs & Hc & Hne & _ & Hl).
  apply is_text_join; try assumption.
  - discriminate.
  - now rewrite find_line_end_app.
Qed.

Lemma is_text_open (n p : list ascii) :
  is_text n = true -> is_text p = true ->
  is_text (n ++ bytes " " ++ p ++ bytes " {") = true.
Proof.
  intros Hn Hp. apply is_text_inv in Hp as (Hs & Hc & Hne & _ & Hl).
  apply is_text_join; try assumption.
  - now rewrite !single_line_app, Hs.
  - now rewrite !no_char_app, Hc.
  - discriminate.
  - rewrite app_assoc, find_line_end_app by discriminate. reflexivity.
Qed.

(** A line [key = value]: the key up to the first [=], spaces replaced, and
    the value after it, handed to [parse_line]. *)
Lemma interpret_key_value (conf : config) (l : config_line) (k v : list ascii) :
  is_text k = true -> no_char "=" k = true ->
  is_text v = true ->
  Ascii.eqb (find_line_end v) "{" = false ->
  interpret_line conf l (k ++ bytes " = " ++ v) =
  match
    (if negb (streq v multiline_sentinel)
     then Some (true, conf, ConfigLine (replace_space_with_underscore k) v)
     else parse_multiline conf (ConfigLine (replace_space_with_underscore k) v))
  with
  | None => None
  | Some (false, c2, l2) =>
      Some (false, snd (config_error c2 "Malformed key=value line"), l2)
  | Some (true, c2, l2) => Some (true, c2, l2)
  end.
Proof.
  intros Hk Hke Hv Hvb.
  apply is_text_inv in Hk as (_ & _ & Hkne & Hkh & Hkl).
  apply is_text_inv in Hv as (_ & _ & Hvne & Hvh & Hvl).
  unfold interpret_line.
  rewrite app_assoc, find_line_end_app, Hvb by assumption.
  replace (length ((k ++ bytes " = ") ++ v) =? 1)%nat with false
    by (symmetry; apply Nat.eqb_neq; rewrite !length_app; cbn; lia).
  rewrite andb_false_r.
  replace ((k ++ bytes " = ") ++ v) with ((k ++ [" "]) ++ "=" :: " " :: v)
    by (now rewrite <- !app_assoc).
  rewrite strchr_first by (now rewrite no_char_app, Hke).
  unfold parse_line.
  rewrite firstn_exact.
  replace ((k ++ [" "]) ++ "=" :: " " :: v) with ((k ++ [" "; "="]) ++ " " :: v)
    by (now rewrite <- !app_assoc).
  replace (S (length (k ++ [" "]))) with (length (k ++ [" "; "="]))
    by (rewrite !length_app; cbn; lia).
  rewrite skipn_exact.
  rewrite (remove_leading_spaces_id (k ++ [" "])) by (now rewrite hd_app).
  rewrite remove_trailing_spaces_snoc_space by reflexivity.
  rewrite remove_trailing_spaces_id by assumption.
  change (remove_leading_spaces (" " :: v)) with (remove_leading_spaces v).
  rewrite remove_leading_spaces_id by assumption.
  reflexivity.
Qed.

Lemma interpret_assign (conf : config) (l : config_line) (k v : list ascii) :
  is_text k = true -> no_char "=" k = true ->
  is_text v = true -> streq v multiline_sentinel = false ->
  Ascii.eqb (find_line_end v) "{" = false ->
  interpret_line conf l (k ++ bytes " = " ++ v) =
  Some (true, conf, ConfigLine (replace_space_with_underscore k) v).
Proof.
  intros Hk Hke Hv Hvs Hvb. rewrite interpret_key_value by assumption.
  now rewrite Hvs.
Qed.

(** A section opening: the name up to the first space, and the parameter
    from there to the brace. *)
Lemma interpret_open (conf : config) (l : config_line) (n p : list ascii) :
  is_word n = true -> is_text p = true ->
  interpret_line conf l (n ++ bytes " " ++ p ++ bytes " {") =
  Some (true, conf, ConfigSection n p).
Proof.
  intros Hn Hp. unfold is_word in Hn. apply andb_prop in Hn as [Hn Hns].
  apply is_text_inv in Hn as (_ & _ & Hnne & Hnh & Hnl).
  apply is_text_inv in Hp as (_ & _ & Hpne & Hph & Hpl).
  unfold interpret_line.
  replace (n ++ bytes " " ++ p ++ bytes " {")
    with ((n ++ " " :: p ++ [" "]) ++ ["{"])
    by (rewrite <- !app_assoc; cbn; now rewrite <- !app_assoc).
  rewrite find_line_end_app by discriminate.
  cbn [find_line_end last Ascii.eqb Bool.eqb]. cbn match.
  unfold parse_section. rewrite removelast_last.
  rewrite <- app_assoc. cbn [app].
  rewrite strchr_first by assumption.
  rewrite firstn_exact.
  replace (n ++ " " :: p ++ [" "]) with ((n ++ [" "]) ++ p ++ [" "])
    by (now rewrite <- app_assoc).
  replace (S (length n)) with (length (n ++ [" "]))
    by (rewrite length_app; cbn; lia).
  rewrite skipn_exact.
  rewrite (remove_leading_spaces_id n), (remove_trailing_spaces_id n)
    by assumption.
  rewrite remove_leading_spaces_id by (now rewrite hd_app).
  rewrite remove_trailing_spaces_snoc_space by reflexivity.
  now rewrite remove_trailing_spaces_id.
Qed.

(** ** Sequential classification of a well-formed input *)

(** Splits the boolean conjunctions among the hypotheses. *)
Ltac split_andb :=
  repeat match goal with
         | H : (_ && _) = true |- _ =>
             let H1 := fresh H in
             apply andb_prop in H as [H H1]
         end.

Lemma is_text_sentinel : is_text multiline_sentinel = true.
Proof. reflexivity. Qed.

Lemma wf_line_single_line (sizeof_buffer : nat) (s : source_line) :
  wf_line sizeof_buffer s = true -> single_line (render_line s) = true.
Proof.
  unfold wf_line. intros H. split_andb.
  destruct s as [i k v|i k body|i n p|i|i t|i]; cbn [render_line]; split_andb;
    rewrite ?single_line_app, ?single_line_spaces; cbn [andb].
  - match goal with
    | Hk : is_text k = true, Hv : is_text v = true |- _ =>
        destruct (is_text_inv _ (is_text_assign k v Hk Hv)) as (Hs & _)
    end.
    now rewrite single_line_app in Hs.
  - match goal with
    | Hk : is_text k = true |- _ =>
        destruct (is_text_inv _ (is_text_assign k _ Hk is_text_sentinel))
          as (Hs & _)
    end.
    now rewrite single_line_app in Hs.
  - match goal with
    | Hn : is_word n = true, Hp : is_text p = true |- _ =>
        unfold is_word in Hn; apply andb_prop in Hn as [Hn _];
        destruct (is_text_inv _ (is_text_open n p Hn Hp)) as (Hs & _)
    end.
    now rewrite !single_line_app in Hs.
  - reflexivity.
  - assumption.
  - reflexivity.
Qed.

Lemma wf_line_fits (sizeof_buffer : nat) (s : source_line) :
  wf_line sizeof_buffer s = true -> length (render_line s) + 2 <= sizeof_buffer.
Proof.
  unfold wf_line. intros H. apply andb_prop in H as [H _]. now apply Nat.leb_le.
Qed.

(** The normal form of a well-formed line that is not a multiline
    assignment, and what it is interpreted as. *)
Lemma normalise_source_line (sizeof_buffer : nat) (s : source_line) :
  wf_line sizeof_buffer s = true ->
  continuation s = [] ->
  match record_of s with
  | Some rec =>
      normalise (render_line s ++ [LF]) <> [] /\
      forall conf l,
        interpret_line conf l (normalise (render_line s ++ [LF])) =
        Some (true, conf, rec)
  | None => normalise (render_line s ++ [LF]) = []
  end.
Proof.
  unfold wf_line. intros H Hc. apply andb_prop in H as [_ H].
  destruct s as [i k v|i k body|i n p|i|i t|i]; cbn [render_line record_of];
    rewrite <- ?app_assoc.
  - split_andb.
    match goal with
    | Hk : is_text k = true, Hv : is_text v = true |- _ =>
        pose proof (is_text_assign k v Hk Hv) as Ht
    end.
    rewrite (app_assoc k), (app_assoc (k ++ _)), <- (app_assoc k).
    rewrite normalise_text by assumption. split.
    + now destruct (is_text_inv _ Ht) as (_ & _ & ? & _).
    + intros conf l. apply interpret_assign; try assumption;
        now apply negb_true_iff.
  - cbn in Hc. now destruct body.
  - split_andb.
    match goal with
    | Hn : is_word n = true, Hp : is_text p = true |- _ =>
        pose proof Hn as Hw; unfold is_word in Hn;
        apply andb_prop in Hn as [Hn _];
        pose proof (is_text_open n p Hn Hp) as Ht
    end.
    replace (spaces i ++ n ++ bytes " " ++ p ++ bytes " {" ++ [LF])
      with (spaces i ++ (n ++ bytes " " ++ p ++ bytes " {") ++ [LF])
      by (now rewrite <- !app_assoc).
    rewrite normalise_text by assumption. split.
    + now destruct (is_text_inv _ Ht) as (_ & _ & ? & _).
    + intros conf l. now apply interpret_open.
  - rewrite (normalise_text i (bytes "}")) by reflexivity.
    split; [discriminate | reflexivity].
  - split_andb. rewrite (app_assoc (bytes "#")). now apply normalise_comment.
  - apply normalise_blank.
Qed.

Lemma moved_past_advance (c : config) (n : nat) (k : Z) (rest : list ascii) :
  reader_at c rest -> moved_past c n (advance c n k).
Proof.
  intros (_ & _ & f & Hf & _). unfold moved_past, advance. rewrite Hf. cbn.
  repeat split. now exists f.
Qed.

Lemma moved_past_set_strbuf (c c1 : config) (n : nat) (b : list ascii) :
  moved_past c n c1 -> moved_past c n (set_strbuf c1 b).
Proof. intros H. exact H. Qed.

Lemma moved_past_trans (c c1 c2 : config) (n m : nat) :
  moved_past c n c1 -> moved_past c1 m c2 -> moved_past c (n + m) c2.
Proof.
  intros (Hp & He & Hi & f & Hf & Hf1) (Hp' & He' & Hi' & g & Hg & Hg1).
  rewrite Hf1 in Hg. injection Hg as <-. cbn in Hg1.
  unfold moved_past. repeat split; try congruence.
  exists f. split; [assumption|]. rewrite Hg1. do 2 f_equal. lia.
Qed.

Lemma moved_past_0 (c : config) (rest : list ascii) :
  reader_at c rest -> moved_past c 0 c.
Proof.
  intros (_ & _ & f & Hf & _). unfold moved_past. repeat split.
  exists f. split; [assumption|]. rewrite Hf, Nat.add_0_r. now destruct f.
Qed.

Lemma reader_at_moved (c c1 : config) (a b : list ascii) :
  reader_at c (a ++ b) -> moved_past c (length a) c1 -> reader_at c1 b.
Proof.
  intros (He & Hi & f & Hf & Hr) (_ & He' & Hi' & g & Hg & Hg1).
  rewrite Hf in Hg. injection Hg as <-.
  unfold reader_at. repeat split; try congruence.
  eexists. split; [eassumption|]. now apply remaining_advance.
Qed.

Section WellFormed.
Variable sizeof_buffer : nat.

(** One call of [config_read_line] on a source line that stands for a
    record: the record is delivered and the reader is past the line. *)
Lemma read_source_record (s : source_line) (rec : config_line) (conf : config)
    (rest : list ascii) (l : config_line) :
  wf_line sizeof_buffer s = true ->
  record_of s = Some rec ->
  reader_at conf (text_of_lines (render_lines s) ++ rest) ->
  exists c1,
    config_read_line sizeof_buffer conf l = Some (true, c1, rec) /\
    moved_past conf (length (text_of_lines (render_lines s))) c1.
Proof.
  intros Hwf Hrec Hat.
  unfold render_lines, text_of_lines in *. cbn [map concat] in *.
  fold (text_of_lines (continuation s)) in *.
  rewrite <- !app_assoc in Hat. cbn [app] in Hat.
  pose proof (wf_line_single_line _ _ Hwf) as Hs.
  pose proof (wf_line_fits _ _ Hwf) as Hfit.
  destruct (continuation s) as [|ln more] eqn:Hc.
  - pose proof (normalise_source_line _ _ Hwf Hc) as Hn. rewrite Hrec in Hn.
    destruct Hn as [Hne Hi].
    exists (advance conf (S (length (render_line s))) 1). split.
    + rewrite (config_read_line_first sizeof_buffer conf (render_line s) _ Hat);
        auto.
    + cbn [text_of_lines map concat]. rewrite app_nil_r, length_app.
      cbn [length]. rewrite Nat.add_1_r.
      eapply moved_past_advance; eassumption.
  - destruct s as [i k v|i k body|i n p|i|i t|i]; try discriminate Hc.
    cbn [continuation] in Hc. cbn [record_of] in Hrec. injection Hrec as <-.
    cbn [render_line] in *.
    unfold wf_line in Hwf. apply andb_prop in Hwf as [_ Hwf]. split_andb.
    match goal with
      | Hk : is_text k = true |- _ =>
      pose proof (is_text_assign k _ Hk is_text_sentinel) as Ht
      end.
    assert (normalise ((spaces i ++ k ++ bytes " = " ++ multiline_sentinel) ++ [LF])
      = k ++ bytes " = " ++ multiline_sentinel) as Hn.
    { rewrite <- app_assoc. now apply normalise_text. }
    rewrite (config_read_line_first sizeof_buffer conf _ _ Hat Hs Hfit)
      by (rewrite Hn; now destruct (is_text_inv _ Ht) as (_ & _ & ? & _)).
    rewrite Hn, interpret_key_value by (assumption || reflexivity).
    cbn [streq negb]. change (streq multiline_sentinel multiline_sentinel) with true.
    cbn [negb].
    pose proof (reader_at_next _ _ _ 1 Hat) as Hnext.
    rewrite <- Hc in *. unfold text_of_lines in Hnext.
    rewrite map_app, concat_app in Hnext. cbn [map concat] in Hnext.
    fold (text_of_lines body) in Hnext.
    rewrite app_nil_r, <- !app_assoc in Hnext. cbn [app] in Hnext.
    rewrite (parse_multiline_trimmed _ body multiline_sentinel rest _ Hnext)
      by (assumption || reflexivity).
    cbn [set_value]. eexists. split; [reflexivity|].
    apply moved_past_set_strbuf. rewrite advance_advance.
    match goal with
      | |- moved_past _ ?n (advance _ ?m _) =>
      replace n with m; [eapply moved_past_advance; eassumption|]
      end.
    unfold text_of_lines. rewrite map_app, concat_app, !length_app.
    cbn [map concat length app]. rewrite !length_app. cbn [length]. lia.
Qed.

(** A comment or a blank line is passed over within the call. *)
Lemma read_source_silent (s : source_line) (conf : config)
    (rest : list ascii) (l : config_line) :
  wf_line sizeof_buffer s = true ->
  record_of s = None ->
  reader_at conf (text_of_lines (render_lines s) ++ rest) ->
  exists c1,
    config_read_line sizeof_buffer conf l = config_read_line sizeof_buffer c1 l /\
    moved_past conf (length (text_of_lines (render_lines s))) c1.
Proof.
  intros Hwf Hrec Hat.
  assert (continuation s = []) as Hc by (destruct s; try reflexivity; discriminate).
  unfold render_lines, text_of_lines in *. rewrite Hc in *. cbn [map concat] in *.
  rewrite app_nil_r in *. rewrite <- app_assoc in Hat. cbn [app] in Hat.
  pose proof (normalise_source_line _ _ Hwf Hc) as Hn. rewrite Hrec in Hn.
  exists (advance conf (S (length (render_line s))) 1). split.
  - apply (config_read_line_skip sizeof_buffer conf (render_line s) rest);
      eauto using wf_line_single_line, wf_line_fits.
  - rewrite length_app. cbn [length]. rewrite Nat.add_1_r.
    eapply moved_past_advance; eassumption.
Qed.

Lemma render_cons (s : source_line) (src : list source_line) :
  render (s :: src) = text_of_lines (render_lines s) ++ render src.
Proof.
  unfold render, text_of_lines. cbn [flat_map]. now rewrite map_app, concat_app.
Qed.

(** Reading to the end delivers the records of the source, in order, and
    leaves the reader at the end of the file without error. *)
Lemma read_lines_source :
  forall src fuel conf l,
    forallb (wf_line sizeof_buffer) src = true ->
    reader_at conf (render src) ->
    length src < fuel ->
    exists final,
      read_lines fuel sizeof_buffer conf l = Some (records src, final) /\
      moved_past conf (length (render src)) final.
Proof.
  induction src as [|s src IH]; intros fuel conf l Hwf Hat Hfuel.
  - destruct fuel as [|fuel]; [cbn in Hfuel; lia|]. cbn [read_lines].
    rewrite config_read_line_eof by assumption.
    exists conf. split; [reflexivity|]. eapply moved_past_0; eassumption.
  - cbn [forallb] in Hwf. apply andb_prop in Hwf as [Hs Hwf].
    rewrite render_cons in *. rewrite length_app.
    destruct fuel as [|fuel]; [cbn in Hfuel; lia|].
    destruct (record_of s) as [rec|] eqn:Hrec.
    + destruct (read_source_record s rec conf _ l Hs Hrec Hat) as (c1 & Hr & Hm).
      pose proof (reader_at_moved _ _ _ _ Hat Hm) as Hnext.
      destruct (IH fuel c1 rec Hwf Hnext) as (final & Hf & Hm');
        [cbn in Hfuel; lia|].
      exists final. cbn [read_lines records]. rewrite Hrec, Hr, Hf.
      split; [reflexivity|]. eapply moved_past_trans; eassumption.
    + destruct (read_source_silent s conf _ l Hs Hrec Hat) as (c1 & Hr & Hm).
      pose proof (reader_at_moved _ _ _ _ Hat Hm) as Hnext.
      destruct (IH (S fuel) c1 l Hwf Hnext) as (final & Hf & Hm');
        [cbn in Hfuel; lia|].
      exists final. cbn [records]. rewrite Hrec, <- Hf. cbn [read_lines].
      rewrite Hr. split; [reflexivity|]. eapply moved_past_trans; eassumption.
Qed.

Lemma length_render (src : list source_line) : length src <= length (render src).
Proof.
  induction src as [|s src IH]; [cbn; lia|].
  rewrite render_cons, length_app.
  unfold render_lines, text_of_lines. cbn [map concat length].
  rewrite !length_app. cbn [length]. lia.
Qed.

(** X27. For every input made of the lines that [wf_line] describes
    (indented single-line and multiline assignments, section openings,
    closing lines, comment lines that hold one [#] only, blank lines; no
    comment after a record; each line fitting its buffer), with balanced
    nesting or not, calling [config_read_line] until it returns [false]
    delivers every assignment and every section opening and closing of the
    input exactly once, in source order, and ends at the end of the file
    with no error latched. *)
Theorem config_read_all_well_formed (p : string) (src : list source_line)
    (l : config_line) :
  forallb (wf_line sizeof_buffer) src = true ->
  exists final,
    config_read_all sizeof_buffer (opened p (render src)) l =
      Some (records src, final) /\
    error_message final = None /\
    file final = Some (mkFILE (render src) (length (render src))).
Proof.
  intros Hwf. unfold config_read_all.
  change (opened p (render src)) with (positioned p [] (render src) 0).
  pose proof (reader_at_positioned p [] (render src) 0) as Hat.
  destruct (read_lines_source src (S (bytes_left (positioned p [] (render src) 0)))
    _ l Hwf Hat) as (final & Hr & (_ & He & _ & f & Hf & Hf1)).
  - rewrite (reader_at_bytes_left _ _ Hat). pose proof (length_render src). lia.
  - exists final. split; [assumption|]. split; [exact He|].
    cbn in Hf. injection Hf as <-. exact Hf1.
Qed.
End WellFormed.

Lemma config_read_all_well_formed_witness :
  exists final,
    config_read_all 1024 (opened "lwan.conf" (render sample_source))
      ConfigSectionEnd =
      Some (records sample_source, final) /\
    error_message final = None /\
    file final =
      Some (mkFILE (render sample_source) (length (render sample_source))).
Proof.
  apply (config_read_all_well_formed 1024 "lwan.conf" sample_source ConfigSectionEnd).
  reflexivity.
Defined.

(** C1. The claim fails on a well-formed input whose comment holds a second
    [#]: on the file of the two lines [# a # b] and [x = 1], the first call
    of [config_read_line] cuts the comment line at its last [#], is left
    with [# a], and returns [false] with the message
    [Expecting section or key=value]; reading to the end delivers no record
    at all, where the input has the one assignment [x = 1]. The same file
    with the comment [# a] is read as the claim says. *)
Theorem comment_with_two_hashes_stops_the_reader :
  normalise (bytes "# a # b" ++ [LF]) = bytes "# a" /\
  (exists final,
      config_read_all 1024 (opened "lwan.conf" two_hash_comment_input)
        ConfigSectionEnd = Some ([], final) /\
      error_message final = Some "Expecting section or key=value"%string) /\
  (exists final,
      config_read_all 1024 (opened "lwan.conf" one_hash_comment_input)
        ConfigSectionEnd = Some ([ConfigLine (bytes "x") (bytes "1")], final) /\
      error_message final = None).
Proof.
  split; [reflexivity|].
  split; eexists; (split; [vm_compute; reflexivity | reflexivity]).
Qed.

(** ** Cursor movement of the reading functions *)

Lemma fgets_some (n : nat) (f f' : FILE) (buffer : list ascii) :
  fgets n f = Some (buffer, f') ->
  f' = mkFILE (content f) (pos f + length buffer).
Proof.
  unfold fgets. destruct (remaining f); [discriminate|].
  now intros [= <- <-].
Qed.

(** [config_fgets] in terms of [fgets] and of the boundary test. *)
Lemma config_fgets_eq (conf : config) (n : nat) (f : FILE) :
  file conf = Some f ->
  config_fgets conf n =
  match fgets n f with
  | None => Some (None, conf)
  | Some (buffer, f') =>
      if boundary_ok conf (pos f') then
        Some (Some buffer,
              mkConfig (Some f') (path conf) (strbuf conf) (error_message conf)
                (line conf + 1) (isolated_end conf))
      else Some (None, set_file conf (Some f'))
  end.
Proof.
  intros Hf. unfold config_fgets, boundary_ok. rewrite Hf.
  destruct (fgets n f) as [[buffer f']|]; [|reflexivity].
  cbn [set_file isolated_end]. destruct (0 <? isolated_end conf)%Z; [|reflexivity].
  unfold ftell. replace (Z.of_nat (pos f') <? 0)%Z with false
    by (symmetry; apply Z.ltb_ge; lia).
  cbn [andb negb]. now destruct (isolated_end conf <=? Z.of_nat (pos f'))%Z.
Qed.

Lemma advanced_refl (c : config) (f : FILE) : file c = Some f -> advanced c c.
Proof. intros H. exists f, f. auto. Qed.

Lemma advanced_trans (a b c : config) : advanced a b -> advanced b c -> advanced a c.
Proof.
  intros (f & f1 & Hf & Hf1 & Hc & Hp) (g & g1 & Hg & Hg1 & Hc' & Hp').
  rewrite Hf1 in Hg. injection Hg as <-.
  exists f, g1. repeat split; try assumption; [congruence | lia].
Qed.

Lemma advanced_bytes_left (c c1 : config) :
  advanced c c1 -> bytes_left c1 <= bytes_left c.
Proof.
  intros (f & f1 & Hf & Hf1 & Hc & Hp). unfold bytes_left.
  rewrite Hf, Hf1, Hc. lia.
Qed.

Lemma advanced_cursor (c c1 : config) : advanced c c1 -> cursor c <= cursor c1.
Proof. intros (f & f1 & Hf & Hf1 & _ & Hp). unfold cursor. now rewrite Hf, Hf1. Qed.

Lemma config_fgets_advanced (conf conf1 : config) (n : nat)
    (r : option (list ascii)) :
  config_fgets conf n = Some (r, conf1) ->
  advanced conf conf1 /\
  (forall buffer, r = Some buffer -> cursor conf1 = cursor conf + length buffer).
Proof.
  destruct (file conf) as [f|] eqn:Hf;
    [|unfold config_fgets; now rewrite Hf].
  rewrite (config_fgets_eq _ _ _ Hf).
  destruct (fgets n f) as [[buffer f']|] eqn:E.
  - apply fgets_some in E. subst f'.
    destruct (boundary_ok conf _); intros [= <- <-]; (split; [|intros b [= <-]]).
    + eexists f, _. cbn.
      split; [exact Hf|]. split; [reflexivity|]. split; [reflexivity | cbn; lia].
    + unfold cursor. cbn. now rewrite Hf.
    + eexists f, _. cbn.
      split; [exact Hf|]. split; [reflexivity|]. split; [reflexivity | cbn; lia].
  - intros [= <- <-]. split; [now apply (advanced_refl _ f) | discriminate].
Qed.

Lemma read_nonempty_line_advanced (sizeof_buffer : nat) :
  forall fuel conf conf1 r,
    read_nonempty_line fuel sizeof_buffer conf = Some (r, conf1) ->
    advanced conf conf1 /\
    (forall ln, r = Some ln -> cursor conf < cursor conf1).
Proof.
  induction fuel as [|fuel IH]; intros conf conf1 r; [discriminate|].
  cbn [read_nonempty_line].
  destruct (config_fgets conf sizeof_buffer) as [[[fbuf|] c1]|] eqn:E;
    [| |discriminate].
  - apply config_fgets_advanced in E as [Ha Hc]. specialize (Hc _ eq_refl).
    destruct (remove_trailing_spaces _) as [|x t] eqn:Hn.
    + intros H. apply IH in H as [Ha' Hc']. split.
      * eapply advanced_trans; eassumption.
      * intros ln Hr. specialize (Hc' ln Hr). lia.
    + intros [= <- <-]. split; [assumption|]. intros _ _.
      destruct fbuf; [discriminate Hn | cbn in Hc; lia].
  - intros [= <- <-]. apply config_fgets_advanced in E as [Ha _].
    split; [assumption | discriminate].
Qed.

Lemma parse_multiline_loop_advanced :
  forall fuel c l b c1 l1,
    parse_multiline_loop fuel c l = Some (b, c1, l1) -> advanced c c1.
Proof.
  induction fuel as [|fuel IH]; intros c l b c1 l1; [discriminate|].
  cbn [parse_multiline_loop].
  destruct (config_fgets c 1024) as [[[fbuf|] c'] |] eqn:E; [| |discriminate].
  - apply config_fgets_advanced in E as [Ha _].
    destruct (streq _ _).
    + now intros [= _ <- _].
    + intros H. apply IH in H. eapply advanced_trans; [eassumption|].
      destruct H as (f & f1 & Hf & Hf1 & Hc & Hp).
      destruct Ha as (g & g1 & Hg & Hg1 & Hc' & Hp').
      exists g1, f1. cbn in Hf. rewrite Hg1 in Hf. injection Hf as <-.
      auto.
  - apply config_fgets_advanced in E as [Ha _].
    unfold config_error. destruct (error_message c'); intros [= _ <- _];
      [assumption|].
    destruct Ha as (f & f1 & ? & ? & ? & ?). now exists f, f1.
Qed.

Lemma bytes_left_file (c i : config) : file i = file c -> bytes_left i = bytes_left c.
Proof. unfold bytes_left. now intros ->. Qed.

Lemma cursor_file (c i : config) : file i = file c -> cursor i = cursor c.
Proof. unfold cursor. now intros ->. Qed.

Lemma boundary_ok_ext (c c' : config) (p : nat) :
  isolated_end c' = isolated_end c -> boundary_ok c' p = boundary_ok c p.
Proof. unfold boundary_ok. now intros ->. Qed.

Lemma admits_ext (c c' i i' : config) (q q' : nat) :
  isolated_end c' = isolated_end c -> isolated_end i' = isolated_end i ->
  q' <= q -> allows c i q -> allows c' i' q'.
Proof.
  intros Hc Hi Hq H p Hp. rewrite (boundary_ok_ext _ _ _ Hc), (boundary_ok_ext _ _ _ Hi).
  apply H. lia.
Qed.

Lemma admits_self (c : config) (q : nat) : allows c c q.
Proof. now intros p _. Qed.

(** ** Two readers on the same stream *)

(** A line delivered to [conf] is delivered to every reader [iso] on the
    same stream state that allows the cursor reached. *)
Lemma config_fgets_sim (conf c1 : config) (n : nat) (buffer : list ascii) :
  config_fgets conf n = Some (Some buffer, c1) ->
  boundary_ok conf (cursor c1) = true /\
  follows conf c1 (file c1) /\
  (buffer <> [] -> bytes_left c1 < bytes_left conf) /\
  forall iso,
    file iso = file conf ->
    boundary_ok iso (cursor c1) = true ->
    exists i1,
      config_fgets iso n = Some (Some buffer, i1) /\
      follows iso i1 (file c1) /\ strbuf i1 = strbuf iso.
Proof.
  destruct (file conf) as [f|] eqn:Hf;
    [|unfold config_fgets; now rewrite Hf].
  rewrite (config_fgets_eq _ _ _ Hf).
  destruct (fgets n f) as [[b f']|] eqn:E; [|discriminate].
  destruct (boundary_ok conf (pos f')) eqn:Hb; [|discriminate].
  intros [= <- <-]. unfold cursor, follows. cbn.
  split; [assumption|]. split; [auto|]. split.
  - intros Hne. unfold bytes_left. cbn. rewrite Hf.
    pose proof (fgets_some _ _ _ _ E) as ->. cbn.
    unfold fgets in E. destruct (remaining f) eqn:Hr; [discriminate|].
    apply remaining_nonempty in Hr. destruct b; [congruence|]. cbn. lia.
  - intros iso Hfi Hbi. rewrite (config_fgets_eq _ _ f) by congruence.
    rewrite E, Hbi. eexists. split; [reflexivity|]. cbn. auto.
Qed.

Lemma read_nonempty_line_sim (sizeof_buffer : nat) :
  forall fuel conf c1 ln,
    read_nonempty_line fuel sizeof_buffer conf = Some (Some ln, c1) ->
    follows conf c1 (file c1) /\
    bytes_left c1 < bytes_left conf /\
    boundary_ok conf (cursor c1) = true /\
    forall iso,
      file iso = file conf ->
      allows conf iso (cursor c1) ->
      exists i1,
        read_nonempty_line fuel sizeof_buffer iso = Some (Some ln, i1) /\
        follows iso i1 (file c1) /\ strbuf i1 = strbuf iso.
Proof.
  induction fuel as [|fuel IH]; intros conf c1 ln; [discriminate|].
  cbn [read_nonempty_line].
  destruct (config_fgets conf sizeof_buffer) as [[[fbuf|] cm]|] eqn:E;
    [| discriminate | discriminate].
  pose proof (config_fgets_advanced _ _ _ _ E) as [Hadv _].
  apply config_fgets_sim in E as (Hb & Hfo & Hbl & Hsim).
  destruct Hfo as (_ & Hp & He & Hi).
  destruct (remove_trailing_spaces _) as [|x t] eqn:Hn.
  - intros H.
    pose proof (read_nonempty_line_advanced _ _ _ _ _ H) as [Hadv' _].
    apply advanced_cursor in Hadv'.
    apply IH in H as ((Hf1 & Hp1 & He1 & Hi1) & Hbl1 & Hb1 & Hsim1).
    split; [unfold follows; repeat split; congruence|].
    split.
    { pose proof (advanced_bytes_left _ _ Hadv). lia. }
    split; [now rewrite <- (boundary_ok_ext _ _ _ Hi)|].
    intros iso Hfi Had.
    destruct (Hsim iso Hfi) as (im & Him & (Hfm & Hpm & Hem & Him') & Hsm).
    { apply Had; [lia | assumption]. }
    rewrite Him, Hn.
    destruct (Hsim1 im) as (i1 & Hr & (? & ? & ? & ?) & ?).
    + assumption.
    + eapply admits_ext; [exact Hi | exact Him' | | exact Had]. lia.
    + exists i1. split; [assumption|]. unfold follows.
      repeat split; congruence.
  - intros [= <- <-].
    split; [unfold follows; auto|].
    split; [apply Hbl; destruct fbuf; [discriminate Hn | discriminate]|].
    split; [assumption|].
    intros iso Hfi Had.
    destruct (Hsim iso Hfi) as (im & Him & Hfo & Hsm).
    { apply Had; [lia | assumption]. }
    rewrite Him, Hn. exists im. auto.
Qed.

Lemma parse_multiline_loop_sim :
  forall fuel c l c1 l1,
    parse_multiline_loop fuel c l = Some (true, c1, l1) ->
    follows c c1 (file c1) /\
    l1 = set_value l (strbuf c1) /\
    forall iso l0,
      file iso = file c -> strbuf iso = strbuf c ->
      allows c iso (cursor c1) ->
      exists i1,
        parse_multiline_loop fuel iso l0 =
          Some (true, i1, set_value l0 (strbuf c1)) /\
        follows iso i1 (file c1).
Proof.
  induction fuel as [|fuel IH]; intros c l c1 l1; [discriminate|].
  cbn [parse_multiline_loop].
  destruct (config_fgets c 1024) as [[[fbuf|] cm]|] eqn:E;
    [| |discriminate].
  2: { unfold config_error. destruct (error_message cm); discriminate. }
  pose proof (config_fgets_sim _ _ _ _ E) as (Hb & Hfo & _ & Hsim).
  destruct (Hsim c eq_refl Hb) as (cm' & Hcm & _ & Hsb).
  rewrite E in Hcm. injection Hcm as <-.
  destruct Hfo as (_ & Hp & He & Hi).
  destruct (streq _ multiline_sentinel) eqn:Ht.
  - intros [= <- <-]. split; [unfold follows; auto|]. split; [reflexivity|].
    intros iso l0 Hfi Hsi Had.
    destruct (Hsim iso Hfi) as (im & Him & Hfm & Hsm).
    { apply Had; [lia | assumption]. }
    rewrite Him, Ht. exists im. split; [|assumption].
    unfold strbuf_get_buffer. now rewrite Hsm, Hsi, Hsb.
  - intros H.
    pose proof (parse_multiline_loop_advanced _ _ _ _ _ _ H) as Hadv.
    apply advanced_cursor in Hadv.
    apply IH in H as ((Hf1 & Hp1 & He1 & Hi1) & Hl1 & Hsim1).
    split; [unfold follows; repeat split; cbn in *; congruence|].
    split; [assumption|].
    intros iso l0 Hfi Hsi Had.
    destruct (Hsim iso Hfi) as (im & Him & (Hfm & Hpm & Hem & Him') & Hsm).
    { apply Had; [exact Hadv | assumption]. }
    rewrite Him, Ht.
    match goal with |- exists _, parse_multiline_loop _ ?i3 _ = _ /\ _ =>
      destruct (Hsim1 i3 l0) as (i1 & Hr & (? & ? & ? & ?))
    end.
    + cbn. congruence.
    + unfold strbuf_append_char, strbuf_append_str. cbn. congruence.
    + eapply admits_ext; [| | | exact Had]; cbn; [congruence | congruence | lia].
    + exists i1. split; [assumption|]. unfold follows.
      repeat split; cbn in *; congruence.
Qed.

Lemma parse_line_sim (c c1 : config) (ln : list ascii) (equal : nat)
    (l1 : config_line) :
  parse_line c ln equal = Some (true, c1, l1) ->
  follows c c1 (file c1) /\
  line_type l1 = CONFIG_LINE_TYPE_LINE /\
  bytes_left c1 <= bytes_left c /\ cursor c <= cursor c1 /\
  forall iso,
    file iso = file c -> allows c iso (cursor c1) ->
    exists i1,
      parse_line iso ln equal = Some (true, i1, l1) /\ follows iso i1 (file c1).
Proof.
  unfold parse_line. destruct (streq _ multiline_sentinel).
  - cbn [negb]. unfold parse_multiline. intros H.
    pose proof (parse_multiline_loop_advanced _ _ _ _ _ _ H) as Hadv.
    pose proof (parse_multiline_loop_sim _ _ _ _ _ H)
      as ((Hf1 & Hp1 & He1 & Hi1) & Hl1 & Hsim).
    split; [unfold follows; auto|].
    split; [now rewrite Hl1|].
    split; [exact (advanced_bytes_left _ _ Hadv)|].
    split; [exact (advanced_cursor _ _ Hadv)|].
    intros iso Hfi Had.
    rewrite (bytes_left_file (strbuf_reset_length c) (strbuf_reset_length iso))
      by exact Hfi.
    destruct (Hsim (strbuf_reset_length iso) (ConfigLine
                (replace_space_with_underscore
                   (remove_trailing_spaces
                      (remove_leading_spaces (firstn equal ln))))
                (remove_leading_spaces (skipn (S equal) ln))))
      as (i1 & Hr & Hfo); [exact Hfi | reflexivity | exact Had |].
    exists i1. rewrite Hr, Hl1. auto.
  - cbn [negb]. intros [= <- <-].
    split; [unfold follows; auto|]. split; [reflexivity|].
    split; [lia|]. split; [lia|].
    intros iso Hfi _. exists iso. unfold follows. auto.
Qed.

Lemma interpret_line_sim (c c1 : config) (l l1 : config_line) (ln : list ascii) :
  interpret_line c l ln = Some (true, c1, l1) ->
  follows c c1 (file c1) /\
  (line_type l1 = CONFIG_LINE_TYPE_SECTION_END -> c1 = c) /\
  bytes_left c1 <= bytes_left c /\ cursor c <= cursor c1 /\
  forall iso l0,
    file iso = file c -> allows c iso (cursor c1) ->
    exists i1,
      interpret_line iso l0 ln = Some (true, i1, l1) /\ follows iso i1 (file c1).
Proof.
  unfold interpret_line. destruct (Ascii.eqb (find_line_end ln) "{").
  - destruct (parse_section ln) as [l'|] eqn:Hs; [|discriminate].
    intros [= <- <-].
    unfold parse_section in Hs. destruct (strchr ln " "); [|discriminate].
    injection Hs as <-.
    split; [unfold follows; auto|]. split; [discriminate|].
    split; [lia|]. split; [lia|].
    intros iso l0 Hfi _. exists iso. unfold follows. auto.
  - destruct (_ && _).
    + intros [= <- <-].
      split; [unfold follows; auto|]. split; [reflexivity|].
      split; [lia|]. split; [lia|].
      intros iso l0 Hfi _. exists iso. unfold follows. auto.
    + destruct (strchr ln "=") as [equal|]; [|discriminate].
      destruct (parse_line c ln equal) as [[[[] c2] l2]|] eqn:Hp;
        try discriminate.
      intros [= <- <-].
      apply parse_line_sim in Hp as (Hfo & Ht & Hbl & Hc & Hsim).
      split; [assumption|]. split; [congruence|].
      split; [assumption|]. split; [assumption|].
      intros iso l0 Hfi Had. destruct (Hsim iso Hfi Had) as (i1 & -> & Hfo').
      exists i1. auto.
Qed.

(** What a successful [config_read_line] does to its reader, and that any
    reader on the same stream state, without error, that allows the cursor
    reached delivers the same line. *)
Lemma config_read_line_sim (sizeof_buffer : nat) (conf c1 : config)
    (l l1 : config_line) :
  config_read_line sizeof_buffer conf l = Some (true, c1, l1) ->
  error_message conf = None /\
  follows conf c1 (file c1) /\
  bytes_left c1 < bytes_left conf /\ cursor conf < cursor c1 /\
  forall iso l0,
    file iso = file conf -> error_message iso = None ->
    allows conf iso (cursor c1) ->
    exists i1,
      config_read_line sizeof_buffer iso l0 = Some (true, i1, l1) /\
      follows iso i1 (file c1).
Proof.
  unfold config_read_line.
  destruct (error_message conf) eqn:He; [discriminate|].
  destruct (read_nonempty_line _ _ conf) as [[[ln|] cr]|] eqn:Hr;
    try discriminate.
  intros Hi.
  pose proof (read_nonempty_line_advanced _ _ _ _ _ Hr) as [_ Hcur].
  specialize (Hcur _ eq_refl).
  apply read_nonempty_line_sim in Hr
    as ((Hfr & Hpr & Her & Hir) & Hbl & Hb & Hsim).
  apply interpret_line_sim in Hi
    as ((Hf1 & Hp1 & He1 & Hi1) & _ & Hbl1 & Hc1 & Hsim1).
  split; [reflexivity|].
  split; [unfold follows; repeat split; congruence|].
  split; [lia|]. split; [lia|].
  intros iso l0 Hfi Hei Had. rewrite Hei.
  rewrite (bytes_left_file conf iso) by exact Hfi.
  destruct (Hsim iso Hfi) as (ir & -> & (Hfr' & Hpr' & Her' & Hir') & _).
  { eapply admits_ext; [reflexivity | reflexivity | | exact Had]. exact Hc1. }
  destruct (Hsim1 ir l0) as (i1 & -> & (? & ? & ? & ?)).
  - congruence.
  - eapply admits_ext; [exact Hir | exact Hir' | | exact Had]. lia.
  - exists i1. split; [reflexivity|]. unfold follows.
    repeat split; congruence.
Qed.

(** ** The isolation bound *)

Lemma boundary_ok_below (iso : config) (p : nat) :
  (Z.of_nat p < isolated_end iso)%Z -> boundary_ok iso p = true.
Proof.
  intros H. unfold boundary_ok.
  replace (isolated_end iso <=? Z.of_nat p)%Z with false
    by (symmetry; apply Z.leb_gt; lia).
  now rewrite andb_false_r.
Qed.

Lemma boundary_ok_at (iso : config) (p : nat) :
  (0 < isolated_end iso)%Z -> (isolated_end iso <= Z.of_nat p)%Z ->
  boundary_ok iso p = false.
Proof.
  intros H0 H. unfold boundary_ok.
  replace (0 <? isolated_end iso)%Z with true by (symmetry; apply Z.ltb_lt; lia).
  replace (isolated_end iso <=? Z.of_nat p)%Z with true
    by (symmetry; apply Z.leb_le; lia).
  reflexivity.
Qed.

(** The line that takes the cursor to [isolated.end] is refused: the
    isolated reader reports the end of its input, with its cursor there. *)
Lemma read_nonempty_line_refused (sizeof_buffer : nat) :
  forall fuel conf c1 ln,
    read_nonempty_line fuel sizeof_buffer conf = Some (Some ln, c1) ->
    forall iso,
      file iso = file conf ->
      (0 < isolated_end iso)%Z ->
      isolated_end iso = Z.of_nat (cursor c1) ->
      exists i1,
        read_nonempty_line fuel sizeof_buffer iso = Some (None, i1) /\
        follows iso i1 (file c1).
Proof.
  induction fuel as [|fuel IH]; intros conf c1 ln; [discriminate|].
  cbn [read_nonempty_line].
  destruct (config_fgets conf sizeof_buffer) as [[[fbuf|] cm]|] eqn:E;
    [| discriminate | discriminate].
  destruct (remove_trailing_spaces _) as [|x t] eqn:Hn.
  - intros H iso Hfi H0 HE.
    pose proof (read_nonempty_line_advanced _ _ _ _ _ H) as [_ Hcur].
    specialize (Hcur _ eq_refl).
    apply config_fgets_sim in E as (_ & _ & _ & Hsim).
    destruct (Hsim iso Hfi) as (im & Him & (Hfm & Hpm & Hem & Him') & _).
    { apply boundary_ok_below. lia. }
    rewrite Him, Hn.
    destruct (IH _ _ _ H im) as (i1 & Hr & (? & ? & ? & ?));
      [assumption | congruence | congruence |].
    exists i1. split; [assumption|]. unfold follows. repeat split; congruence.
  - intros [= <- <-] iso Hfi H0 HE.
    destruct (file conf) as [f|] eqn:Hf;
      [|unfold config_fgets in E; now rewrite Hf in E].
    rewrite (config_fgets_eq _ _ _ Hf) in E.
    rewrite (config_fgets_eq iso _ f) by congruence.
    destruct (fgets sizeof_buffer f) as [[b f']|]; [|discriminate].
    destruct (boundary_ok conf (pos f')); [|discriminate].
    injection E as <- <-. unfold cursor in HE. cbn in HE.
    rewrite boundary_ok_at by lia.
    eexists. split; [reflexivity|]. unfold follows. cbn. auto.
Qed.

Lemma config_read_line_refused (sizeof_buffer : nat) (conf c1 : config)
    (l l1 : config_line) :
  config_read_line sizeof_buffer conf l = Some (true, c1, l1) ->
  line_type l1 = CONFIG_LINE_TYPE_SECTION_END ->
  forall iso l0,
    file iso = file conf -> error_message iso = None ->
    (0 < isolated_end iso)%Z ->
    isolated_end iso = Z.of_nat (cursor c1) ->
    exists i1,
      config_read_line sizeof_buffer iso l0 = Some (false, i1, l0) /\
      follows iso i1 (file c1).
Proof.
  unfold config_read_line.
  destruct (error_message conf) eqn:He; [discriminate|].
  destruct (read_nonempty_line _ _ conf) as [[[ln|] cr]|] eqn:Hr;
    try discriminate.
  intros Hi Ht iso l0 Hfi Hei H0 HE.
  apply interpret_line_sim in Hi as (_ & Hsame & _).
  specialize (Hsame Ht). subst c1.
  rewrite Hei, (bytes_left_file conf iso) by exact Hfi.
  destruct (read_nonempty_line_refused _ _ _ _ _ Hr iso Hfi H0 HE)
    as (i1 & -> & Hfo).
  exists i1. auto.
Qed.

(** ** The section body and the isolated reader *)

Lemma section_body_cursor (sizeof_buffer : nat) :
  forall fuel conf l depth body cE,
    section_body fuel sizeof_buffer conf l depth = Some (body, cE) ->
    cursor conf < cursor cE.
Proof.
  induction fuel as [|fuel IH]; intros conf l depth body cE; [discriminate|].
  cbn [section_body].
  destruct (config_read_line sizeof_buffer conf l) as [[[[] c1] l1]|] eqn:Hr;
    try discriminate.
  apply config_read_line_sim in Hr as (_ & _ & _ & Hc & _).
  destruct (line_type l1); [| |destruct depth as [|d]];
    try (destruct (section_body fuel _ c1 l1 _) as [[ls c2]|] eqn:Hs;
         [|discriminate]; intros [= _ <-]; apply IH in Hs; lia).
  intros [= _ <-]. exact Hc.
Qed.

(** The reader isolated on a section delivers the body of the section and
    then reports the end of its input, with its cursor at [isolated.end]. *)
Lemma isolated_reads_body (sizeof_buffer : nat) :
  forall fuel conf l depth body cE,
    section_body fuel sizeof_buffer conf l depth = Some (body, cE) ->
    forall iso l0 h,
      file iso = file conf -> error_message iso = None ->
      isolated_end iso = Z.of_nat (cursor cE) ->
      bytes_left iso < h ->
      exists iE,
        read_lines h sizeof_buffer iso l0 = Some (body, iE) /\
        follows iso iE (file cE).
Proof.
  induction fuel as [|fuel IH]; intros conf l depth body cE; [discriminate|].
  intros Hbody. pose proof (section_body_cursor _ _ _ _ _ _ _ Hbody) as Hpos.
  revert Hbody. cbn [section_body].
  destruct (config_read_line sizeof_buffer conf l) as [[[[] c1] l1]|] eqn:Hr;
    try discriminate.
  intros Hbody iso l0 h Hfi Hei HE Hh.
  destruct h as [|h]; [lia|]. cbn [read_lines].
  assert (forall d ls c2,
             section_body fuel sizeof_buffer c1 l1 d = Some (ls, c2) ->
             body = l1 :: ls -> cE = c2 ->
             exists iE,
               match config_read_line sizeof_buffer iso l0 with
               | Some (true, conf1, l2) =>
                   match read_lines h sizeof_buffer conf1 l2 with
                   | Some (ls', conf2) => Some (l2 :: ls', conf2)
                   | None => None
                   end
               | Some (false, conf1, _) => Some ([], conf1)
               | None => None
               end = Some (body, iE) /\ follows iso iE (file cE)) as Hstep.
  { intros d ls c2 Hs -> ->.
    pose proof (section_body_cursor _ _ _ _ _ _ _ Hs) as Hlt.
    pose proof (config_read_line_sim _ _ _ _ _ Hr) as (_ & _ & Hbl & _ & Hsim).
    destruct (Hsim iso l0 Hfi Hei) as (i1 & -> & (Hf1 & Hp1 & He1 & Hi1)).
    { intros p Hp _. apply boundary_ok_below. lia. }
    destruct (IH _ _ _ _ _ Hs i1 l1 h) as (iE & -> & (? & ? & ? & ?));
      try congruence.
    - pose proof (bytes_left_file c1 i1 Hf1).
      pose proof (bytes_left_file conf iso Hfi). lia.
    - exists iE. split; [reflexivity|]. unfold follows.
      repeat split; congruence. }
  destruct (line_type l1) eqn:Ht.
  - destruct (section_body fuel _ c1 l1 depth) as [[ls c2]|] eqn:Hs;
      [|discriminate]. injection Hbody as <- <-. eapply Hstep; eauto.
  - destruct (section_body fuel _ c1 l1 (S depth)) as [[ls c2]|] eqn:Hs;
      [|discriminate]. injection Hbody as <- <-. eapply Hstep; eauto.
  - destruct depth as [|d].
    + injection Hbody as <- <-.
      destruct (config_read_line_refused _ _ _ _ _ Hr Ht iso l0 Hfi Hei)
        as (i1 & -> & Hfo); [lia | assumption |].
      exists i1. auto.
    + destruct (section_body fuel _ c1 l1 d) as [[ls c2]|] eqn:Hs;
        [|discriminate]. injection Hbody as <- <-. eapply Hstep; eauto.
Qed.

Lemma line_type_section_end (l : config_line) :
  line_type l = CONFIG_LINE_TYPE_SECTION_END -> l = ConfigSectionEnd.
Proof. destruct l; cbn; congruence. Qed.

(** The body of a section nested at depth [k + S d] is the body up to the
    closing line that ends depth [k], that line, and the body from there. *)
Lemma section_body_deeper (sizeof_buffer : nat) :
  forall g1 conf l k b1 c2,
    section_body g1 sizeof_buffer conf l k = Some (b1, c2) ->
    forall d b2 c',
      (forall g, bytes_left c2 < g ->
         section_body g sizeof_buffer c2 ConfigSectionEnd d = Some (b2, c')) ->
      forall g, bytes_left conf < g ->
        section_body g sizeof_buffer conf l (k + S d) =
        Some (b1 ++ ConfigSectionEnd :: b2, c').
Proof.
  induction g1 as [|g1 IH]; intros conf l k b1 c2; [discriminate|].
  cbn [section_body].
  destruct (config_read_line sizeof_buffer conf l) as [[[[] c1] l1]|] eqn:Hr;
    try discriminate.
  pose proof (config_read_line_sim _ _ _ _ _ Hr) as (_ & _ & Hbl & _).
  intros Hb d b2 c' Hrest g Hg.
  destruct g as [|g]; [lia|]. cbn [section_body]. rewrite Hr.
  destruct (line_type l1) eqn:Ht.
  - destruct (section_body g1 _ c1 l1 k) as [[ls c3]|] eqn:Hs; [|discriminate].
    injection Hb as <- <-.
    now rewrite (IH _ _ _ _ _ Hs d b2 c' Hrest g) by lia.
  - destruct (section_body g1 _ c1 l1 (S k)) as [[ls c3]|] eqn:Hs; [|discriminate].
    injection Hb as <- <-.
    change (S (k + S d)) with (S k + S d).
    now rewrite (IH _ _ _ _ _ Hs d b2 c' Hrest g) by lia.
  - apply line_type_section_end in Ht. subst l1.
    destruct k as [|k].
    + injection Hb as <- <-. cbn [Nat.add app].
      now rewrite Hrest by lia.
    + destruct (section_body g1 _ c1 _ k) as [[ls c3]|] eqn:Hs; [|discriminate].
      injection Hb as <- <-. cbn [Nat.add].
      now rewrite (IH _ _ _ _ _ Hs d b2 c' Hrest g) by lia.
Qed.

(** A successful [find_section_end] stops just past the closing line that
    matches the opening: it has scanned the body of the section. *)
Lemma find_section_end_body (sizeof_buffer : nat) :
  forall fuel,
    (forall conf l lev c' l',
        find_section_end fuel sizeof_buffer conf l lev = Some (true, c', l') ->
        l' = ConfigSectionEnd /\
        exists body, forall g, bytes_left conf < g ->
          section_body g sizeof_buffer conf l 0 = Some (body, c')) /\
    (forall conf l lev c' l',
        find_section_end_loop fuel sizeof_buffer conf l lev = Some (true, c', l') ->
        l' = ConfigSectionEnd /\
        exists body, forall g, bytes_left conf < g ->
          section_body g sizeof_buffer conf l 0 = Some (body, c')).
Proof.
  induction fuel as [|fuel [IHf IHl]]; [split; discriminate|]. split.
  - intros conf l lev c' l'. cbn [find_section_end].
    destruct (10 <? lev)%Z; [|apply IHl].
    unfold config_error. destruct (error_message conf); discriminate.
  - intros conf l lev c' l'. cbn [find_section_end_loop].
    destruct (config_read_line sizeof_buffer conf l) as [[[[] c1] l1]|] eqn:Hr;
      try discriminate.
    pose proof (config_read_line_sim _ _ _ _ _ Hr) as (_ & _ & Hbl & _).
    destruct (line_type l1) eqn:Ht.
    + intros H. apply IHl in H as (-> & body & Hbody).
      split; [reflexivity|]. exists (l1 :: body). intros g Hg.
      destruct g as [|g]; [lia|]. cbn [section_body].
      now rewrite Hr, Ht, Hbody by lia.
    + destruct (find_section_end fuel _ c1 l1 (lev + 1)) as [[[[] c2] l2]|] eqn:Hn;
        try discriminate.
      intros H. apply IHf in Hn as (-> & b1 & Hb1).
      apply IHl in H as (-> & b2 & Hb2).
      split; [reflexivity|]. exists (l1 :: b1 ++ ConfigSectionEnd :: b2).
      intros g Hg. destruct g as [|g]; [lia|]. cbn [section_body].
      rewrite Hr, Ht.
      pose proof (section_body_deeper _ _ _ _ 0 _ _
                    (Hb1 (S (bytes_left c1)) ltac:(lia)) 0 b2 c' Hb2 g) as Hd.
      cbn [Nat.add] in Hd. now rewrite Hd by lia.
    + intros [= <- <-]. split; [now apply line_type_section_end|].
      exists []. intros g Hg. destruct g as [|g]; [lia|]. cbn [section_body].
      now rewrite Hr, Ht.
Qed.

Lemma interpret_line_advanced (c c1 : config) (l l1 : config_line)
    (ln : list ascii) (f : FILE) :
  file c = Some f ->
  interpret_line c l ln = Some (true, c1, l1) -> advanced c c1.
Proof.
  intros Hf. unfold interpret_line.
  destruct (Ascii.eqb (find_line_end ln) "{").
  - destruct (parse_section ln); [|discriminate].
    intros [= <- _]. now apply (advanced_refl _ f).
  - destruct (_ && _).
    + intros [= <- _]. now apply (advanced_refl _ f).
    + destruct (strchr ln "=") as [equal|]; [|discriminate].
      unfold parse_line. destruct (negb _).
      * intros [= <- _]. now apply (advanced_refl _ f).
      * unfold parse_multiline.
        destruct (parse_multiline_loop _ _ _) as [[[[] c2] l2]|] eqn:Hp;
          try discriminate.
        intros [= <- _]. apply parse_multiline_loop_advanced in Hp.
        destruct Hp as (g & g1 & Hg & Hg1 & Hc & Hp). now exists g, g1.
Qed.

Lemma config_read_line_advanced (sizeof_buffer : nat) (conf c1 : config)
    (l l1 : config_line) :
  config_read_line sizeof_buffer conf l = Some (true, c1, l1) -> advanced conf c1.
Proof.
  unfold config_read_line. destruct (error_message conf); [discriminate|].
  destruct (read_nonempty_line _ _ conf) as [[[ln|] cr]|] eqn:Hr;
    try discriminate.
  apply read_nonempty_line_advanced in Hr as [Hadv _]. intros Hi.
  eapply advanced_trans; [exact Hadv|].
  destruct Hadv as (f & f1 & _ & Hf1 & _).
  exact (interpret_line_advanced _ _ _ _ _ _ Hf1 Hi).
Qed.

(** The scan of a body keeps the path, the isolation bound and the bytes
    of the stream, and meets no error. *)
Lemma section_body_frame (sizeof_buffer : nat) :
  forall fuel conf l depth body cE,
    section_body fuel sizeof_buffer conf l depth = Some (body, cE) ->
    follows conf cE (file cE) /\ error_message conf = None /\ advanced conf cE.
Proof.
  induction fuel as [|fuel IH]; intros conf l depth body cE; [discriminate|].
  cbn [section_body].
  destruct (config_read_line sizeof_buffer conf l) as [[[[] c1] l1]|] eqn:Hr;
    try discriminate.
  pose proof (config_read_line_advanced _ _ _ _ _ Hr) as Hadv.
  pose proof (config_read_line_sim _ _ _ _ _ Hr) as (He & Hfo & _ & _ & Hsim).
  destruct (Hsim conf l eq_refl He (admits_self _ _)) as (c1' & Hr' & Hfo').
  rewrite Hr in Hr'. injection Hr' as <-.
  assert (forall d ls c2,
             section_body fuel sizeof_buffer c1 l1 d = Some (ls, c2) ->
             follows conf c2 (file c2) /\ error_message conf = None /\
             advanced conf c2) as Hstep.
  { intros d ls c2 Hs. apply IH in Hs as ((? & ? & ? & ?) & ? & ?).
    destruct Hfo' as (? & ? & ? & ?).
    split; [unfold follows; repeat split; congruence|].
    split; [assumption|]. eapply advanced_trans; eassumption. }
  destruct (line_type l1); [| |destruct depth as [|d]];
    try (destruct (section_body fuel _ c1 l1 _) as [[ls c2]|] eqn:Hs;
         [|discriminate]; intros [= _ <-]; eapply Hstep; eassumption).
  intros [= _ <-]. destruct Hfo' as (? & ? & ? & ?).
  split; [unfold follows; repeat split; congruence|]. auto.
Qed.

(** ** [config_isolate_section] *)

Lemma fseek_ftell (f g : FILE) : fseek f (ftell g) = Some (mkFILE (content f) (pos g)).
Proof.
  unfold fseek, ftell.
  replace (Z.of_nat (pos g) <? 0)%Z with false by (symmetry; apply Z.ltb_ge; lia).
  now rewrite Nat2Z.id.
Qed.

(** What a successful isolation has done. *)
Lemma config_isolate_section_success (fs : string -> option (list ascii))
    (sizeof_buffer : nat) (conf conf' iso : config) (l l' : config_line) :
  config_isolate_section fs sizeof_buffer conf l = Some (true, conf', l', iso) ->
  exists f c1 f1 data,
    error_message conf = None /\ is_section l = true /\ file conf = Some f /\
    find_section_end (skip_fuel conf) sizeof_buffer conf l 0 = Some (true, c1, l') /\
    file c1 = Some f1 /\ error_message c1 = None /\
    fs (path c1) = Some data /\
    conf' = set_file (set_line c1 (line conf)) (Some (mkFILE (content f1) (pos f))) /\
    iso = mkConfig (Some (mkFILE data (pos f))) (path c1) [] None 0
            (Z.of_nat (pos f1)).
Proof.
  unfold config_isolate_section.
  destruct (error_message conf) eqn:He; [discriminate|].
  destruct (is_section l) eqn:Hs; [|discriminate]. cbn [negb].
  destruct (file conf) as [f|] eqn:Hf; [|discriminate].
  replace (ftell f <? 0)%Z with false
    by (symmetry; apply Z.ltb_ge; unfold ftell; lia).
  destruct (find_section_end _ _ conf l 0) as [[[[] c1] l1]|] eqn:Hfind;
    [| |discriminate].
  2: { unfold isolate_resetpos. destruct (file c1); [|discriminate].
       rewrite fseek_ftell. cbn [negb orb]. discriminate. }
  cbn [file set_line]. destruct (file c1) as [f1|] eqn:Hf1; [|discriminate].
  replace (ftell f1 <? 0)%Z with false
    by (symmetry; apply Z.ltb_ge; unfold ftell; lia).
  unfold config_open. cbn [path set_line].
  destruct (fs (path c1)) as [data|] eqn:Hfs.
  2: { unfold isolate_resetpos. cbn [file set_line]. rewrite Hf1, fseek_ftell.
       cbn [negb orb]. discriminate. }
  cbn [file]. rewrite fseek_ftell. unfold isolate_resetpos.
  cbn [file set_line]. rewrite Hf1, fseek_ftell. cbn [negb orb content pos].
  unfold has_error. cbn [error_message set_file set_line].
  destruct (error_message c1) eqn:He1; [discriminate|].
  cbn [negb]. intros [= <- <- <-].
  exists f, c1, f1, data. repeat split; try assumption.
Qed.

Lemma first_line_of_body (sizeof_buffer : nat) (fuel : nat) (conf cE : config)
    (l : config_line) (body : list config_line) :
  section_body fuel sizeof_buffer conf l 0 = Some (body, cE) ->
  exists c1,
    config_read_line sizeof_buffer conf l =
    Some (true, c1, hd ConfigSectionEnd (body ++ [ConfigSectionEnd])).
Proof.
  destruct fuel as [|fuel]; [discriminate|]. cbn [section_body].
  destruct (config_read_line sizeof_buffer conf l) as [[[[] c1] l1]|] eqn:Hr;
    try discriminate.
  destruct (line_type l1) eqn:Ht.
  - destruct (section_body fuel _ c1 l1 0) as [[ls c2]|]; [|discriminate].
    intros [= <- _]. now exists c1.
  - destruct (section_body fuel _ c1 l1 1) as [[ls c2]|]; [|discriminate].
    intros [= <- _]. now exists c1.
  - intros [= <- _]. apply line_type_section_end in Ht. subst l1. now exists c1.
Qed.

Section Isolation.
Variable fs : string -> option (list ascii).
Variable sizeof_buffer : nat.
Variables (conf conf' iso : config) (l l' : config_line) (f : FILE).
Hypothesis Hfile : file conf = Some f.
Hypothesis Hbacking : fs (path conf) = Some (content f).
Hypothesis Hisolate :
  config_isolate_section fs sizeof_buffer conf l = Some (true, conf', l', iso).

(** The facts behind claims C2 and C3. *)
Lemma isolation_facts :
  exists body after_close,
    section_body (S (bytes_left conf)) sizeof_buffer conf l 0 =
      Some (body, after_close) /\
    file after_close = Some (mkFILE (content f) (cursor after_close)) /\
    file iso = Some f /\ error_message iso = None /\
    isolated_end iso = Z.of_nat (cursor after_close) /\
    file conf' = Some f /\ line conf' = line conf /\
    error_message conf' = None /\ isolated_end conf' = isolated_end conf.
Proof.
  destruct (config_isolate_section_success _ _ _ _ _ _ _ Hisolate)
    as (f0 & c1 & f1 & data & He & Hs & Hf0 & Hfind & Hf1 & He1 & Hfs & -> & ->).
  rewrite Hfile in Hf0. injection Hf0 as <-.
  destruct (find_section_end_body sizeof_buffer (skip_fuel conf)) as [Hfse _].
  destruct (Hfse _ _ _ _ _ Hfind) as (_ & body & Hbody).
  specialize (Hbody (S (bytes_left conf)) ltac:(lia)).
  destruct (section_body_frame _ _ _ _ _ _ _ Hbody)
    as ((_ & Hp & _ & Hi) & _ & (g & g1 & Hg & Hg1 & Hc & Hpos)).
  rewrite Hfile in Hg. injection Hg as <-.
  rewrite Hf1 in Hg1. injection Hg1 as <-.
  rewrite Hp, Hbacking in Hfs. injection Hfs as <-.
  exists body, c1. unfold cursor. rewrite Hf1. cbn.
  split; [assumption|].
  split; [rewrite <- Hc; now destruct f1|].
  split; [now destruct f|]. split; [reflexivity|]. split; [reflexivity|].
  split; [rewrite Hc; now destruct f|]. auto.
Qed.

(** C2. After a successful [config_isolate_section] on a reader that is
    just past a section opening, the lines that the sub-reader delivers
    until it reports the end of its input are exactly the body of the
    section (the lines between the opening and the matching closing line,
    both excluded); it reports the end with its cursor at [isolated.end],
    the offset just past the closing line, whatever follows in the file,
    and without error. The cursor of the original reader is back where it
    was, just past the opening line, and its line counter has its value
    from before the scan. *)
Theorem isolated_reader_delivers_the_body (l0 : config_line) :
  exists body after_close iso_end,
    section_body (S (bytes_left conf)) sizeof_buffer conf l 0 =
      Some (body, after_close) /\
    config_read_all sizeof_buffer iso l0 = Some (body, iso_end) /\
    isolated_end iso = Z.of_nat (cursor after_close) /\
    file iso_end = Some (mkFILE (content f) (cursor after_close)) /\
    error_message iso_end = None /\
    file conf' = Some f /\ line conf' = line conf.
Proof.
  destruct isolation_facts
    as (body & cE & Hbody & HfE & Hfi & Hei & HE & Hf' & Hl' & _).
  destruct (isolated_reads_body _ _ _ _ _ _ _ Hbody iso l0 (S (bytes_left iso)))
    as (iE & Hread & (HfiE & _ & HeE & _)); try congruence; try lia.
  exists body, cE, iE. unfold config_read_all.
  repeat split; try assumption; congruence.
Qed.

(** C3, amended. After a successful [config_isolate_section] on the section
    S, the next [config_read_line] of the original reader returns the first
    line after the opening line of S: the first line of the body of S, or
    the closing line of S when the body is empty. The lines of the
    sub-reader are exactly those of the body of S. *)
Theorem original_reader_continues_in_the_section (l0 : config_line) :
  exists body after_close next iso_end,
    section_body (S (bytes_left conf)) sizeof_buffer conf l 0 =
      Some (body, after_close) /\
    config_read_line sizeof_buffer conf' l' =
      Some (true, next, hd ConfigSectionEnd (body ++ [ConfigSectionEnd])) /\
    config_read_all sizeof_buffer iso l0 = Some (body, iso_end).
Proof.
  destruct isolation_facts
    as (body & cE & Hbody & HfE & Hfi & Hei & HE & Hf' & Hl' & He' & Hi').
  destruct (isolated_reads_body _ _ _ _ _ _ _ Hbody iso l0 (S (bytes_left iso)))
    as (iE & Hread & _); try congruence; try lia.
  destruct (first_line_of_body _ _ _ _ _ _ Hbody) as (c1 & Hr).
  pose proof (config_read_line_sim _ _ _ _ _ Hr) as (_ & _ & _ & _ & Hsim).
  destruct (Hsim conf' l') as (next & Hnext & _); try congruence.
  { intros p _. now rewrite (boundary_ok_ext _ _ _ Hi'). }
  exists body, cE, next, iE. auto.
Qed.
End Isolation.

Lemma isolated_reader_delivers_the_body_witness :
  exists body after_close iso_end,
    section_body (S (bytes_left after_header)) 1024 after_header header_record 0 =
      Some (body, after_close) /\
    config_read_all 1024 isolated_sample ConfigSectionEnd = Some (body, iso_end) /\
    isolated_end isolated_sample = Z.of_nat (cursor after_close) /\
    file iso_end =
      Some (mkFILE (content (mkFILE (section_header ++ section_rest) 6))
              (cursor after_close)) /\
    error_message iso_end = None /\
    file after_header = Some (mkFILE (section_header ++ section_rest) 6) /\
    line after_header = line after_header.
Proof.
  apply (isolated_reader_delivers_the_body one_file 1024 after_header
           after_header isolated_sample header_record ConfigSectionEnd
           (mkFILE (section_header ++ section_rest) 6)).
  - reflexivity.
  - reflexivity.
  - vm_compute. reflexivity.
Defined.

(** C3, as the spec states it, fails: after the isolation of the section of
    [one_file], the next line of the original reader is the first line of
    the section, [a = 1], and not the line that follows the closing line of
    the section, [b = 2]. *)
Lemma original_reader_does_not_skip_the_section :
  exists conf' l' iso next first after following,
    config_isolate_section one_file 1024 after_header header_record =
      Some (true, conf', l', iso) /\
    config_read_line 1024 conf' l' = Some (true, next, first) /\
    first = ConfigLine (bytes "a") (bytes "1") /\
    config_read_line 1024 past_section ConfigSectionEnd =
      Some (true, after, following) /\
    following = ConfigLine (bytes "b") (bytes "2") /\
    first <> following.
Proof.
  do 7 eexists.
  split; [vm_compute; reflexivity|].
  split; [vm_compute; reflexivity|].
  split; [reflexivity|].
  split; [vm_compute; reflexivity|].
  split; [reflexivity|]. discriminate.
Qed.

Lemma original_reader_continues_in_the_section_witness :
  exists body after_close next iso_end,
    section_body (S (bytes_left after_header)) 1024 after_header header_record 0 =
      Some (body, after_close) /\
    config_read_line 1024 after_header ConfigSectionEnd =
      Some (true, next, hd ConfigSectionEnd (body ++ [ConfigSectionEnd])) /\
    config_read_all 1024 isolated_sample ConfigSectionEnd = Some (body, iso_end).
Proof.
  apply (original_reader_continues_in_the_section one_file 1024 after_header
           after_header isolated_sample header_record ConfigSectionEnd
           (mkFILE (section_header ++ section_rest) 6)).
  - reflexivity.
  - reflexivity.
  - vm_compute. reflexivity.
Defined.

Lemma error_latch_witness :
  (forall msg, config_error failed_reader msg = (false, failed_reader)) /\
  config_read_line 1024 failed_reader some_assignment =
    Some (false, failed_reader, some_assignment) /\
  config_skip_section 1024 failed_reader some_assignment =
    Some (false, failed_reader, some_assignment) /\
  config_isolate_section one_file 1024 failed_reader some_assignment =
    Some (false, failed_reader, some_assignment, set_file failed_reader None).
Proof.
  apply (error_latch one_file 1024 failed_reader some_assignment
           "Expecting section or key=value").
  reflexivity.
Defined.

Lemma not_a_section_is_refused_witness :
  config_skip_section 1024 after_header some_assignment =
    Some (false, after_header, some_assignment) /\
  config_isolate_section one_file 1024 after_header some_assignment =
    Some (false, after_header, some_assignment, set_file after_header None).
Proof.
  apply (not_a_section_is_refused one_file 1024 after_header some_assignment).
  - reflexivity.
  - discriminate.
Defined.

(** ** The fuel is enough *)

(** The bounds built into [config_read_line], [config_skip_section],
    [config_isolate_section] and [config_read_all] are never reached: on an
    open reader, with a line buffer of two bytes or more, each of them
    returns a result. *)

Lemma advanced_open (c c1 : config) : advanced c c1 -> file c1 <> None.
Proof. intros (f & f1 & _ & Hf1 & _). congruence. Qed.

Lemma config_fgets_total (conf : config) (n : nat) :
  file conf <> None -> config_fgets conf n <> None.
Proof.
  destruct (file conf) as [f|] eqn:Hf; [|congruence]. intros _.
  rewrite (config_fgets_eq _ _ _ Hf).
  destruct (fgets n f) as [[b f']|]; [|discriminate].
  destruct (boundary_ok conf (pos f')); discriminate.
Qed.

Lemma parse_multiline_loop_total :
  forall fuel c l,
    file c <> None -> bytes_left c < fuel ->
    parse_multiline_loop fuel c l <> None.
Proof.
  induction fuel as [|fuel IH]; intros c l Hf Hb; [lia|].
  cbn [parse_multiline_loop].
  pose proof (config_fgets_total c 1024 Hf) as Ht.
  destruct (config_fgets c 1024) as [[[fbuf|] cm]|] eqn:E; [| |congruence].
  - pose proof (config_fgets_progress c cm 1024 fbuf ltac:(lia) E) as Hp.
    apply config_fgets_advanced in E as [Hadv _]. apply advanced_open in Hadv.
    destruct (streq _ _); [discriminate|].
    apply IH; [exact Hadv|]. cbn. unfold bytes_left in *. cbn. lia.
  - discriminate.
Qed.

Section Totality.
Variable sizeof_buffer : nat.
Hypothesis Hsize : 2 <= sizeof_buffer.

Lemma interpret_line_total (c : config) (l : config_line) (ln : list ascii) :
  file c <> None -> interpret_line c l ln <> None.
Proof.
  intros Hf. unfold interpret_line. destruct (Ascii.eqb _ "{").
  - destruct (parse_section ln); discriminate.
  - destruct (_ && _); [discriminate|].
    destruct (strchr ln "=") as [equal|]; [|discriminate].
    unfold parse_line. destruct (negb _); [discriminate|].
    unfold parse_multiline.
    pose proof (parse_multiline_loop_total
      (S (bytes_left (strbuf_reset_length c))) (strbuf_reset_length c)
      (ConfigLine
      (replace_space_with_underscore
      (remove_trailing_spaces
      (remove_leading_spaces (firstn equal ln))))
      (remove_leading_spaces (skipn (S equal) ln)))
      Hf ltac:(lia)) as Ht.
    destruct (parse_multiline_loop _ _ _) as [[[[] c2] l2]|];
      [discriminate | discriminate | congruence].
Qed.

Lemma config_read_line_total (conf : config) (l : config_line) :
  file conf <> None -> config_read_line sizeof_buffer conf l <> None.
Proof.
  intros Hf. unfold config_read_line.
  destruct (error_message conf); [discriminate|].
  pose proof (read_nonempty_line_total _ Hsize (S (bytes_left conf)) conf Hf
    ltac:(lia)) as Ht.
  destruct (read_nonempty_line _ _ conf) as [[[ln|] c1]|] eqn:Hr;
    [| discriminate | congruence].
  apply read_nonempty_line_advanced in Hr as [Hadv _].
  apply interpret_line_total. exact (advanced_open _ _ Hadv).
Qed.

Lemma find_section_end_total :
  forall fuel,
    (forall conf l lev,
        file conf <> None -> 2 * bytes_left conf + 2 <= fuel ->
        find_section_end fuel sizeof_buffer conf l lev <> None) /\
    (forall conf l lev,
        file conf <> None -> 2 * bytes_left conf + 1 <= fuel ->
        find_section_end_loop fuel sizeof_buffer conf l lev <> None).
Proof.
  induction fuel as [|fuel [IHf IHl]]; [split; intros; lia|]. split.
  - intros conf l lev Hf Hb. cbn [find_section_end].
    destruct (10 <? lev)%Z; [discriminate|]. apply IHl; [assumption | lia].
  - intros conf l lev Hf Hb. cbn [find_section_end_loop].
    pose proof (config_read_line_total conf l Hf) as Ht.
    destruct (config_read_line sizeof_buffer conf l) as [[[[] c1] l1]|] eqn:Hr;
      [| discriminate | congruence].
    pose proof (config_read_line_sim _ _ _ _ _ Hr) as (_ & _ & Hbl & _).
    pose proof (advanced_open _ _ (config_read_line_advanced _ _ _ _ _ Hr)) as Hf1.
    destruct (line_type l1).
    + apply IHl; [assumption | lia].
    + pose proof (IHf c1 l1 (lev + 1)%Z Hf1 ltac:(lia)) as Hn.
      destruct (find_section_end fuel _ c1 l1 (lev + 1)) as [[[[] c2] l2]|] eqn:Hs;
        [| discriminate | congruence].
      destruct (find_section_end_body sizeof_buffer fuel) as [Hbody _].
      destruct (Hbody _ _ _ _ _ Hs) as (_ & body & Hsb).
      destruct (section_body_frame _ _ _ _ _ _ _
        (Hsb (S (bytes_left c1)) ltac:(lia))) as (_ & _ & Hadv).
      pose proof (advanced_bytes_left _ _ Hadv).
      apply IHl; [exact (advanced_open _ _ Hadv) | lia].
    + discriminate.
Qed.

Lemma file_config_error (c : config) (msg : string) :
  file (snd (config_error c msg)) = file c.
Proof. unfold config_error. now destruct (error_message c). Qed.

(** Whatever [config_read_line] returns, the stream is still open. *)
Lemma config_read_line_open (conf c1 : config) (l l1 : config_line) (b : bool) :
  file conf <> None ->
  config_read_line sizeof_buffer conf l = Some (b, c1, l1) ->
  file c1 <> None.
Proof.
  intros Hf. unfold config_read_line.
  destruct (error_message conf); [now intros [= _ <- _]|].
  destruct (read_nonempty_line _ _ conf) as [[[ln|] cr]|] eqn:Hr;
    [| |discriminate].
  2: { intros [= _ <- _].
    apply read_nonempty_line_advanced in Hr as [Hadv _].
    exact (advanced_open _ _ Hadv). }
  apply read_nonempty_line_advanced in Hr as [Hadv _].
  apply advanced_open in Hadv.
  unfold interpret_line. destruct (Ascii.eqb _ "{").
  - destruct (parse_section ln); intros [= _ <- _];
      [assumption | now rewrite file_config_error].
  - destruct (_ && _); [now intros [= _ <- _]|].
    destruct (strchr ln "=") as [equal|];
      [|intros [= _ <- _]; now rewrite file_config_error].
    unfold parse_line. destruct (negb _); [now intros [= _ <- _]|].
    unfold parse_multiline.
    destruct (parse_multiline_loop _ _ _) as [[[[] c2] l2]|] eqn:Hp;
      [| |discriminate];
      apply parse_multiline_loop_advanced in Hp; apply advanced_open in Hp;
      intros [= _ <- _]; [assumption | now rewrite file_config_error].
Qed.

Lemma isolate_resetpos_total (r : bool) (c i : config) (l : config_line)
    (startpos : Z) :
  file c <> None -> isolate_resetpos r c l i startpos <> None.
Proof.
  intros Hf. unfold isolate_resetpos. destruct (file c); [|congruence].
  destruct (fseek f startpos).
  - destruct (negb r || has_error (set_file c (Some f0))); discriminate.
  - cbn [negb orb]. discriminate.
Qed.

(** Whatever [find_section_end] returns, the stream of the reader is still
    open. *)
Lemma find_section_end_open :
  forall fuel,
    (forall conf l lev b c' l',
        file conf <> None ->
        find_section_end fuel sizeof_buffer conf l lev = Some (b, c', l') ->
        file c' <> None) /\
    (forall conf l lev b c' l',
        file conf <> None ->
        find_section_end_loop fuel sizeof_buffer conf l lev = Some (b, c', l') ->
        file c' <> None).
Proof.
  induction fuel as [|fuel [IHf IHl]]; [split; discriminate|]. split.
  - intros conf l lev b c' l' Hf. cbn [find_section_end].
    destruct (10 <? lev)%Z; [|now apply IHl].
    unfold config_error. destruct (error_message conf); intros [= _ <- _];
      assumption.
  - intros conf l lev b c' l' Hf. cbn [find_section_end_loop].
    destruct (config_read_line sizeof_buffer conf l) as [[[[] c1] l1]|] eqn:Hr;
      [| |discriminate].
    + pose proof (advanced_open _ _ (config_read_line_advanced _ _ _ _ _ Hr)) as Hf1.
      destruct (line_type l1).
      * now apply IHl.
      * destruct (find_section_end fuel _ c1 l1 (lev + 1)) as [[[[] c2] l2]|] eqn:Hs;
          [| |discriminate].
        -- apply IHl. exact (IHf _ _ _ _ _ _ Hf1 Hs).
        -- intros [= _ <- _]. exact (IHf _ _ _ _ _ _ Hf1 Hs).
      * now intros [= _ <- _].
    + intros [= _ <- _]. exact (config_read_line_open _ _ _ _ _ Hf Hr).
Qed.

Lemma config_skip_section_total (conf : config) (l : config_line) :
  file conf <> None -> config_skip_section sizeof_buffer conf l <> None.
Proof.
  intros Hf. unfold config_skip_section.
  destruct (error_message conf); [discriminate|].
  destruct (negb (is_section l)); [discriminate|].
  apply (find_section_end_total (skip_fuel conf)); [assumption|].
  unfold skip_fuel. lia.
Qed.

Lemma read_lines_total :
  forall fuel conf l,
    file conf <> None -> bytes_left conf < fuel ->
    read_lines fuel sizeof_buffer conf l <> None.
Proof.
  induction fuel as [|fuel IH]; intros conf l Hf Hb; [lia|].
  cbn [read_lines].
  pose proof (config_read_line_total conf l Hf) as Ht.
  destruct (config_read_line sizeof_buffer conf l) as [[[[] c1] l1]|] eqn:Hr;
    [| discriminate | congruence].
  pose proof (config_read_line_sim _ _ _ _ _ Hr) as (_ & _ & Hbl & _).
  pose proof (advanced_open _ _ (config_read_line_advanced _ _ _ _ _ Hr)) as Hf1.
  pose proof (IH c1 l1 Hf1 ltac:(lia)) as Hn.
  destruct (read_lines fuel _ c1 l1) as [[ls c2]|]; [discriminate | congruence].
Qed.

Lemma config_read_all_total (conf : config) (l : config_line) :
  file conf <> None -> config_read_all sizeof_buffer conf l <> None.
Proof. intros Hf. apply read_lines_total; [assumption | lia]. Qed.

Lemma config_isolate_section_total (fs : string -> option (list ascii))
    (conf : config) (l : config_line) :
  file conf <> None -> config_isolate_section fs sizeof_buffer conf l <> None.
Proof.
  intros Hf. unfold config_isolate_section.
  destruct (error_message conf); [discriminate|].
  destruct (negb (is_section l)); [discriminate|].
  destruct (file conf) as [f|] eqn:Hfile; [|congruence].
  destruct (ftell f <? 0)%Z; [discriminate|].
  pose proof (config_skip_section_total conf l) as Ht.
  assert (find_section_end (skip_fuel conf) sizeof_buffer conf l 0 <> None) as Hn.
  { apply (find_section_end_total (skip_fuel conf)); [congruence|].
    unfold skip_fuel. lia. }
  destruct (find_section_end _ _ conf l 0) as [[[[] c1] l1]|] eqn:Hs;
    [| |congruence].
  - destruct (find_section_end_body sizeof_buffer (skip_fuel conf)) as [Hbody _].
    destruct (Hbody _ _ _ _ _ Hs) as (_ & body & Hsb).
    destruct (section_body_frame _ _ _ _ _ _ _
      (Hsb (S (bytes_left conf)) ltac:(lia)))
      as (_ & _ & (g & g1 & _ & Hg1 & _)).
    assert (file (set_line c1 (line conf)) <> None) as Hopen
      by (cbn; congruence).
    cbn [file set_line]. rewrite Hg1.
    destruct (ftell g1 <? 0)%Z; [now apply isolate_resetpos_total|].
    unfold config_open. destruct (fs _); [|now apply isolate_resetpos_total].
    cbn [file]. destruct (fseek _ _); now apply isolate_resetpos_total.
  - apply isolate_resetpos_total.
    destruct (file c1) eqn:Hc1; [discriminate|].
    exfalso. revert Hs. clear - Hfile Hc1 Hsize.
    generalize (skip_fuel conf). intros fuel Hs.
    apply (find_section_end_open fuel) in Hs; congruence.
Qed.
End Totality.


(** ** [config_skip_section] on well-formed input *)

Lemma skip_source_nested (base level : nat) :
  base < level ->
  forall src m,
    level <= m ->
    skip_source base m src =
    match skip_source level m src with
    | SkipClosed r => skip_source base (level - 1) r
    | SkipTooDeep => SkipTooDeep
    | SkipUnclosed => SkipUnclosed
    end.
Proof.
  intros Hb. induction src as [|s src IH]; intros m Hm; [reflexivity|].
  destruct s as [i k v|i k body|i n p|i|i t|i]; cbn [skip_source];
    try (now apply IH).
  - destruct (10 <? S m)%nat; [reflexivity|]. apply IH. lia.
  - replace (m =? base)%nat with false by (symmetry; apply Nat.eqb_neq; lia).
    destruct (m =? level)%nat eqn:E.
    + apply Nat.eqb_eq in E. now subst m.
    + apply Nat.eqb_neq in E. apply IH. lia.
Qed.

Lemma skip_source_suffix :
  forall src base m r,
    skip_source base m src = SkipClosed r ->
    exists pre, src = pre ++ r /\ pre <> [].
Proof.
  induction src as [|s src IH]; intros base m r; [discriminate|].
  assert (forall b' m', skip_source b' m' src = SkipClosed r ->
                        exists pre, s :: src = pre ++ r /\ pre <> []) as Hrec.
  { intros b' m' H. destruct (IH _ _ _ H) as (pre & -> & _).
    exists (s :: pre). split; [reflexivity | discriminate]. }
  destruct s as [i k v|i k body|i n p|i|i t|i]; cbn [skip_source];
    try (now apply Hrec).
  - destruct (10 <? S m)%nat; [discriminate | now apply Hrec].
  - destruct (m =? base)%nat; [|now apply Hrec].
    intros [= <-]. exists [SrcClose i]. split; [reflexivity | discriminate].
Qed.

Lemma skip_source_rest (sizeof_buffer : nat) (src r : list source_line)
    (base m : nat) :
  skip_source base m src = SkipClosed r ->
  forallb (wf_line sizeof_buffer) src = true ->
  length r < length src /\ forallb (wf_line sizeof_buffer) r = true.
Proof.
  intros H Hwf. destruct (skip_source_suffix _ _ _ _ H) as (pre & -> & Hne).
  rewrite forallb_app in Hwf. apply andb_prop in Hwf as [_ Hr].
  rewrite length_app. destruct pre; [congruence|]. cbn. split; [lia | assumption].
Qed.

(** The [while] loop of [find_section_end] over well-formed source lines. *)
Lemma find_section_end_loop_source (sizeof_buffer : nat) :
  forall n src,
    length src <= n ->
    forall lev conf l fuel,
      forallb (wf_line sizeof_buffer) src = true ->
      reader_at conf (render src) ->
      lev <= 10 ->
      2 * length src + 1 <= fuel ->
      match skip_source lev lev src with
      | SkipClosed r =>
          exists c',
            find_section_end_loop fuel sizeof_buffer conf l (Z.of_nat lev) =
              Some (true, c', ConfigSectionEnd) /\
            reader_at c' (render r)
      | SkipTooDeep =>
          exists c' l',
            find_section_end_loop fuel sizeof_buffer conf l (Z.of_nat lev) =
              Some (false, c', l') /\
            error_message c' = Some "Recursion level too deep"%string
      | SkipUnclosed =>
          exists c' l',
            find_section_end_loop fuel sizeof_buffer conf l (Z.of_nat lev) =
              Some (false, c', l') /\
            reader_at c' []
      end.
Proof.
  induction n as [|n IH]; intros src Hlen lev conf l fuel Hwf Hat Hlev Hfuel.
  - destruct src; [|cbn in Hlen; lia]. cbn [skip_source].
    destruct fuel as [|fuel]; [lia|]. cbn [find_section_end_loop].
    rewrite config_read_line_eof by assumption. now exists conf, l.
  - destruct src as [|s src].
    { cbn [skip_source]. destruct fuel as [|fuel]; [lia|].
      cbn [find_section_end_loop].
      rewrite config_read_line_eof by assumption. now exists conf, l. }
    cbn [forallb] in Hwf. apply andb_prop in Hwf as [Hs Hwf].
    rewrite render_cons in Hat. cbn [length] in Hlen, Hfuel.
    destruct fuel as [|fuel]; [lia|].
    destruct (record_of s) as [rec|] eqn:Hrec.
    2: { destruct (read_source_silent _ s conf _ l Hs Hrec Hat) as (c1 & Hr & Hm).
         pose proof (reader_at_moved _ _ _ _ Hat Hm) as Hnext.
         pose proof (IH src ltac:(lia) lev c1 l (S fuel) Hwf Hnext Hlev ltac:(lia))
           as Hrest.
         cbn [find_section_end_loop] in *. rewrite Hr.
         destruct s; try discriminate Hrec; exact Hrest. }
    destruct (read_source_record _ s rec conf _ l Hs Hrec Hat) as (c1 & Hr & Hm).
    pose proof (reader_at_moved _ _ _ _ Hat Hm) as Hnext.
    cbn [find_section_end_loop]. rewrite Hr.
    destruct s as [i k v|i k body|i nm p|i|i t|i]; cbn [record_of] in Hrec;
      try discriminate Hrec; injection Hrec as <-; cbn [line_type skip_source].
    + apply (IH src ltac:(lia) lev c1 _ fuel Hwf Hnext Hlev). lia.
    + apply (IH src ltac:(lia) lev c1 _ fuel Hwf Hnext Hlev). lia.
    + destruct fuel as [|fuel]; [lia|]. cbn [find_section_end].
      destruct (10 <? S lev)%nat eqn:Hcap.
      * apply Nat.ltb_lt in Hcap.
        replace (10 <? Z.of_nat lev + 1)%Z with true
          by (symmetry; apply Z.ltb_lt; lia).
        unfold config_error. destruct Hnext as (He & _). rewrite He.
        eexists _, _. split; reflexivity.
      * apply Nat.ltb_ge in Hcap.
        replace (10 <? Z.of_nat lev + 1)%Z with false
          by (symmetry; apply Z.ltb_ge; lia).
        replace (Z.of_nat lev + 1)%Z with (Z.of_nat (S lev)) by lia.
        rewrite (skip_source_nested lev (S lev)) by lia.
        pose proof (IH src ltac:(lia) (S lev) c1
                      (ConfigSection nm p) fuel Hwf Hnext ltac:(lia) ltac:(lia))
          as Hin.
        destruct (skip_source (S lev) (S lev) src) as [r1| |] eqn:Hsk.
        -- destruct Hin as (c2 & -> & Hat2).
           destruct (skip_source_rest _ _ _ _ _ Hsk Hwf) as [Hl1 Hwf1].
           replace (S lev - 1) with lev by lia.
           apply (IH r1 ltac:(lia) lev c2 _ (S fuel) Hwf1 Hat2 Hlev). lia.
        -- destruct Hin as (c2 & l2 & -> & He). now exists c2, l2.
        -- destruct Hin as (c2 & l2 & -> & He). now exists c2, l2.
    + rewrite Nat.eqb_refl. now exists c1.
Qed.

Lemma balanced_from_open_after (src : list source_line) :
  forall d, balanced_from d src = true -> open_after d src = Some 0.
Proof.
  induction src as [|s src IH]; intros d H.
  - cbn in *. apply Nat.eqb_eq in H. now subst.
  - destruct s; cbn [balanced_from open_after] in *; try (now apply IH).
    destruct d; [discriminate | now apply IH].
Qed.

Lemma skip_source_prefix (base : nat) (tail : list source_line) :
  forall pre d e,
    open_after d pre = Some e ->
    nesting_within 10 (base + d) pre = true ->
    skip_source base (base + d) (pre ++ tail) = skip_source base (base + e) tail.
Proof.
  induction pre as [|s pre IH]; intros d e Ho Hn.
  - cbn in *. now injection Ho as ->.
  - destruct s as [i k v|i k body|i n p|i|i t|i];
      cbn [open_after nesting_within skip_source app] in *;
      try (now apply IH).
    + apply andb_prop in Hn as [Hc Hn]. apply Nat.leb_le in Hc.
      replace (10 <? S (base + d))%nat with false
        by (symmetry; apply Nat.ltb_ge; lia).
      replace (S (base + d)) with (base + S d) in * by lia. now apply IH.
    + destruct d as [|d]; [discriminate|].
      replace (base + S d =? base)%nat with false
        by (symmetry; apply Nat.eqb_neq; lia).
      replace (base + S d - 1) with (base + d) in * by lia. now apply IH.
Qed.

Lemma skip_fuel_source (conf : config) (src : list source_line) :
  reader_at conf (render src) ->
  exists fuel, skip_fuel conf = S fuel /\ 2 * length src + 1 <= fuel.
Proof.
  intros Hat. unfold skip_fuel. rewrite (reader_at_bytes_left _ _ Hat).
  pose proof (length_render src).
  exists (2 * length (render src) + 1). split; lia.
Qed.

(** X1. [config_skip_section], called with the reader just past the
    opening line of a section of well-formed input, succeeds and leaves the
    reader just past the closing line that matches that opening: the body
    may hold assignments, multiline values, comments, blank lines and
    complete inner sections, nested at most ten deep. *)
Theorem skip_reaches_matching_close (sizeof_buffer : nat) (conf : config)
    (l : config_line) (body rest : list source_line) (i : nat) :
  forallb (wf_line sizeof_buffer) (body ++ SrcClose i :: rest) = true ->
  balanced body = true ->
  nesting_within 10 0 body = true ->
  reader_at conf (render (body ++ SrcClose i :: rest)) ->
  is_section l = true ->
  exists c',
    config_skip_section sizeof_buffer conf l =
      Some (true, c', ConfigSectionEnd) /\
    reader_at c' (render rest).
Proof.
  intros Hwf Hbal Hnest Hat Hl.
  destruct (skip_fuel_source _ _ Hat) as (fuel & Hfuel & Hle).
  pose proof (find_section_end_loop_source sizeof_buffer _ _ (le_n _) 0 conf l
                fuel Hwf Hat ltac:(lia) Hle) as H.
  pose proof (skip_source_prefix 0 (SrcClose i :: rest) body 0 0
                (balanced_from_open_after _ _ Hbal) Hnest) as Hs.
  cbn [Nat.add] in Hs. rewrite Hs in H. cbn [skip_source Nat.eqb] in H.
  destruct H as (c' & H & Hat').
  exists c'. split; [|assumption].
  unfold config_skip_section. destruct Hat as (He & _). rewrite He, Hl, Hfuel.
  cbn [negb find_section_end Z.ltb Z.compare]. exact H.
Qed.

Lemma skip_reaches_matching_close_witness :
  exists c',
    config_skip_section 1024
      (positioned "lwan.conf" (bytes "listener *:8080 {" ++ [LF])
         (render (unclosed_body ++ SrcClose 0 :: sample_source)) 1)
      (ConfigSection (bytes "listener") (bytes "*:8080")) =
      Some (true, c', ConfigSectionEnd) /\
    reader_at c' (render sample_source).
Proof.
  apply (skip_reaches_matching_close 1024 _ _ unclosed_body sample_source 0).
  - vm_compute. reflexivity.
  - vm_compute. reflexivity.
  - vm_compute. reflexivity.
  - apply reader_at_positioned.
  - reflexivity.
Defined.

(** X2. When the section that [config_skip_section] is asked to skip is
    never closed (the well-formed input ends with its body, inner sections
    complete), the call returns [false] with the reader at the end of the
    file and no error message recorded: the missing closing line is not
    reported as an error. *)
Theorem skip_unclosed_section_is_silent (sizeof_buffer : nat) (conf : config)
    (l : config_line) (body : list source_line) :
  forallb (wf_line sizeof_buffer) body = true ->
  balanced body = true ->
  nesting_within 10 0 body = true ->
  reader_at conf (render body) ->
  is_section l = true ->
  exists c' l',
    config_skip_section sizeof_buffer conf l = Some (false, c', l') /\
    error_message c' = None /\
    reader_at c' [].
Proof.
  intros Hwf Hbal Hnest Hat Hl.
  destruct (skip_fuel_source _ _ Hat) as (fuel & Hfuel & Hle).
  pose proof (find_section_end_loop_source sizeof_buffer _ _ (le_n _) 0 conf l
                fuel Hwf Hat ltac:(lia) Hle) as H.
  pose proof (skip_source_prefix 0 [] body 0 0
                (balanced_from_open_after _ _ Hbal) Hnest) as Hs.
  cbn [Nat.add] in Hs. rewrite app_nil_r in Hs. rewrite Hs in H.
  cbn [skip_source] in H.
  destruct H as (c' & l' & H & Hat').
  exists c', l'. split; [|split; [apply Hat' | assumption]].
  unfold config_skip_section. destruct Hat as (He & _). rewrite He, Hl, Hfuel.
  cbn [negb find_section_end Z.ltb Z.compare]. exact H.
Qed.

Lemma skip_unclosed_section_is_silent_witness :
  exists c' l',
    config_skip_section 1024
      (positioned "lwan.conf" (bytes "listener *:8080 {" ++ [LF])
         (render unclosed_body) 1)
      (ConfigSection (bytes "listener") (bytes "*:8080")) =
      Some (false, c', l') /\
    error_message c' = None /\
    reader_at c' [].
Proof.
  apply (skip_unclosed_section_is_silent 1024 _ _ unclosed_body).
  - vm_compute. reflexivity.
  - vm_compute. reflexivity.
  - vm_compute. reflexivity.
  - apply reader_at_positioned.
  - reflexivity.
Defined.

(** X3. The depth limit of [config_skip_section] on any well-formed input:
    when the lines read so far leave ten sections open inside the skipped
    one (whatever else stands between their openings), the next section
    opening makes the call fail with the message
    [Recursion level too deep]. *)
Theorem skip_eleventh_open_section_fails (sizeof_buffer : nat) (conf : config)
    (l : config_line) (pre rest : list source_line) (i : nat)
    (n p : list ascii) :
  forallb (wf_line sizeof_buffer) (pre ++ SrcOpen i n p :: rest) = true ->
  open_after 0 pre = Some 10 ->
  nesting_within 10 0 pre = true ->
  reader_at conf (render (pre ++ SrcOpen i n p :: rest)) ->
  is_section l = true ->
  exists c' l',
    config_skip_section sizeof_buffer conf l = Some (false, c', l') /\
    error_message c' = Some "Recursion level too deep"%string.
Proof.
  intros Hwf Hopen Hnest Hat Hl.
  destruct (skip_fuel_source _ _ Hat) as (fuel & Hfuel & Hle).
  pose proof (find_section_end_loop_source sizeof_buffer _ _ (le_n _) 0 conf l
                fuel Hwf Hat ltac:(lia) Hle) as H.
  pose proof (skip_source_prefix 0 (SrcOpen i n p :: rest) pre 0 10
                Hopen Hnest) as Hs.
  cbn [Nat.add] in Hs. rewrite Hs in H. cbn [skip_source Nat.ltb Nat.leb] in H.
  destruct H as (c' & l' & H & Herr).
  exists c', l'. split; [|assumption].
  unfold config_skip_section. destruct Hat as (He & _). rewrite He, Hl, Hfuel.
  cbn [negb find_section_end Z.ltb Z.compare]. exact H.
Qed.

Lemma skip_eleventh_open_section_fails_witness :
  exists c' l',
    config_skip_section 1024
      (positioned "lwan.conf" (bytes "listener *:8080 {" ++ [LF])
         (render (ten_open ++ SrcOpen 11 (bytes "one") (bytes "more") :: sample_source)) 1)
      (ConfigSection (bytes "listener") (bytes "*:8080")) =
      Some (false, c', l') /\
    error_message c' = Some "Recursion level too deep"%string.
Proof.
  apply (skip_eleventh_open_section_fails 1024 _ _ ten_open sample_source 11
           (bytes "one") (bytes "more")).
  - vm_compute. reflexivity.
  - vm_compute. reflexivity.
  - vm_compute. reflexivity.
  - apply reader_at_positioned.
  - reflexivity.
Defined.

(** ** What any call, successful or not, leaves of the reader *)

Lemma read_on_refl (c : config) (f : FILE) : file c = Some f -> read_on c c.
Proof. intros Hf. split; [now apply (advanced_refl _ f) | now split]. Qed.

Lemma read_on_trans (a b c : config) : read_on a b -> read_on b c -> read_on a c.
Proof.
  intros (Ha & Hp & Hi) (Ha' & Hp' & Hi'). split; [|split; congruence].
  eapply advanced_trans; eassumption.
Qed.

Lemma read_on_config_error (c : config) (msg : string) (f : FILE) :
  file c = Some f -> read_on c (snd (config_error c msg)).
Proof.
  intros Hf. unfold config_error. destruct (error_message c).
  - now apply (read_on_refl _ f).
  - split; [|now split]. exists f, f. cbn. repeat split; auto.
Qed.

Lemma read_on_file (c c1 : config) :
  read_on c c1 -> exists f1, file c1 = Some f1.
Proof. intros ((f & f1 & _ & Hf1 & _) & _). now exists f1. Qed.

Lemma config_fgets_read_on (conf conf1 : config) (n : nat)
    (r : option (list ascii)) :
  config_fgets conf n = Some (r, conf1) -> read_on conf conf1.
Proof.
  intros H. split; [exact (proj1 (config_fgets_advanced _ _ _ _ H))|].
  revert H. unfold config_fgets. destruct (file conf) as [f|]; [|discriminate].
  destruct (fgets n f) as [[b f']|]; [|now intros [= _ <-]].
  cbn [set_file set_line isolated_end path line].
  destruct (0 <? isolated_end conf)%Z; [|now intros [= _ <-]].
  destruct (ftell f' <? 0)%Z.
  - unfold config_error. cbn. destruct (error_message conf); now intros [= _ <-].
  - destruct (isolated_end conf <=? ftell f')%Z; now intros [= _ <-].
Qed.

Lemma read_nonempty_line_read_on (sizeof_buffer : nat) :
  forall fuel conf conf1 r,
    read_nonempty_line fuel sizeof_buffer conf = Some (r, conf1) ->
    read_on conf conf1.
Proof.
  induction fuel as [|fuel IH]; intros conf conf1 r; [discriminate|].
  cbn [read_nonempty_line].
  destruct (config_fgets conf sizeof_buffer) as [[[fbuf|] c1]|] eqn:E;
    [| |discriminate]; apply config_fgets_read_on in E.
  - destruct (remove_trailing_spaces _).
    + intros H. apply IH in H. eapply read_on_trans; eassumption.
    + now intros [= _ <-].
  - now intros [= _ <-].
Qed.

Lemma read_on_set_strbuf (c c1 : config) (b : list ascii) :
  read_on c c1 -> read_on c (set_strbuf c1 b).
Proof. intros H. exact H. Qed.

Lemma parse_multiline_loop_read_on :
  forall fuel c l b c1 l1,
    parse_multiline_loop fuel c l = Some (b, c1, l1) -> read_on c c1.
Proof.
  induction fuel as [|fuel IH]; intros c l b c1 l1; [discriminate|].
  cbn [parse_multiline_loop].
  destruct (config_fgets c 1024) as [[[fbuf|] c'] |] eqn:E; [| |discriminate];
    apply config_fgets_read_on in E.
  - destruct (streq _ _).
    + now intros [= _ <- _].
    + intros H. apply IH in H. eapply read_on_trans; [exact E|]. exact H.
  - intros [= _ <- _]. eapply read_on_trans; [exact E|].
    destruct (read_on_file _ _ E) as (f1 & Hf1).
    now apply (read_on_config_error _ _ f1).
Qed.

Lemma interpret_line_read_on (c c1 : config) (l l1 : config_line)
    (ln : list ascii) (f : FILE) (b : bool) :
  file c = Some f ->
  interpret_line c l ln = Some (b, c1, l1) -> read_on c c1.
Proof.
  intros Hf. unfold interpret_line.
  destruct (Ascii.eqb (find_line_end ln) "{").
  - destruct (parse_section ln); intros [= _ <- _];
      [now apply (read_on_refl _ f) | now apply (read_on_config_error _ _ f)].
  - destruct (_ && _).
    + intros [= _ <- _]. now apply (read_on_refl _ f).
    + destruct (strchr ln "=") as [equal|].
      2: { intros [= _ <- _]. now apply (read_on_config_error _ _ f). }
      unfold parse_line. destruct (negb _).
      * intros [= _ <- _]. now apply (read_on_refl _ f).
      * unfold parse_multiline.
        destruct (parse_multiline_loop _ _ _) as [[[[] c2] l2]|] eqn:E;
          [| |discriminate]; apply parse_multiline_loop_read_on in E.
        -- intros [= _ <- _]. exact E.
        -- intros [= _ <- _]. eapply read_on_trans; [exact E|].
           destruct (read_on_file _ _ E) as (f2 & Hf2).
           now apply (read_on_config_error _ _ f2).
Qed.

Lemma config_read_line_read_on (sizeof_buffer : nat) (conf c1 : config)
    (l l1 : config_line) (b : bool) (f : FILE) :
  file conf = Some f ->
  config_read_line sizeof_buffer conf l = Some (b, c1, l1) -> read_on conf c1.
Proof.
  intros Hf. unfold config_read_line.
  destruct (error_message conf); [intros [= _ <- _]; now apply (read_on_refl _ f)|].
  destruct (read_nonempty_line _ _ conf) as [[[ln|] cr]|] eqn:Hr;
    [| |discriminate]; apply read_nonempty_line_read_on in Hr.
  - intros Hi. eapply read_on_trans; [exact Hr|].
    destruct (read_on_file _ _ Hr) as (fr & Hfr).
    exact (interpret_line_read_on _ _ _ _ _ _ _ Hfr Hi).
  - now intros [= _ <- _].
Qed.

Lemma find_section_end_read_on (sizeof_buffer : nat) :
  forall fuel,
    (forall conf l lev b c' l' f,
        file conf = Some f ->
        find_section_end fuel sizeof_buffer conf l lev = Some (b, c', l') ->
        read_on conf c') /\
    (forall conf l lev b c' l' f,
        file conf = Some f ->
        find_section_end_loop fuel sizeof_buffer conf l lev = Some (b, c', l') ->
        read_on conf c').
Proof.
  induction fuel as [|fuel [IHf IHl]]; [split; discriminate|]. split.
  - intros conf l lev b c' l' f Hf. cbn [find_section_end].
    destruct (10 <? lev)%Z.
    + intros [= _ <- _]. now apply (read_on_config_error _ _ f).
    + now apply IHl with (f := f).
  - intros conf l lev b c' l' f Hf. cbn [find_section_end_loop].
    destruct (config_read_line sizeof_buffer conf l) as [[[[] c1] l1]|] eqn:Hr;
      [| |discriminate];
      apply (config_read_line_read_on _ _ _ _ _ _ _ Hf) in Hr.
    2: now intros [= _ <- _].
    destruct (read_on_file _ _ Hr) as (f1 & Hf1).
    destruct (line_type l1).
    + intros H. eapply read_on_trans; [exact Hr|]. exact (IHl _ _ _ _ _ _ _ Hf1 H).
    + destruct (find_section_end fuel sizeof_buffer c1 l1 (lev + 1))
        as [[[[] c2] l2]|] eqn:Hin; [| |discriminate];
        apply (IHf _ _ _ _ _ _ _ Hf1) in Hin.
      * intros H. destruct (read_on_file _ _ Hin) as (f2 & Hf2).
        eapply read_on_trans; [exact Hr|]. eapply read_on_trans; [exact Hin|].
        exact (IHl _ _ _ _ _ _ _ Hf2 H).
      * intros [= _ <- _]. eapply read_on_trans; eassumption.
    + intros [= _ <- _]. exact Hr.
Qed.

(** ** Failure of [config_isolate_section] *)

(** The code under the label [resetpos], on a reader whose stream holds the
    bytes of [f] and for the offset of [f]. *)
Lemma isolate_resetpos_rewinds (r b : bool) (c c' i i' : config)
    (l l' : config_line) (f f1 : FILE) :
  file c = Some f1 -> content f1 = content f ->
  isolate_resetpos r c l i (ftell f) = Some (b, c', l', i') ->
  file c' = Some f /\ path c' = path c /\ isolated_end c' = isolated_end c /\
  (b = false -> error_message c' <> None /\ i' = config_close i) /\
  (r = false -> b = false /\
     (error_message c = None ->
      error_message c' = Some "Unknown error while isolating section"%string)).
Proof.
  intros Hf1 Hc. unfold isolate_resetpos. rewrite Hf1, fseek_ftell, Hc.
  destruct f as [data p]. cbn [content pos].
  unfold has_error, config_error. cbn [set_file error_message].
  destruct r; cbn [negb orb].
  - destruct (error_message c) eqn:He; cbn [snd negb]; intros [= <- <- <- <-];
      cbn; rewrite ?He; repeat split; intros; congruence.
  - destruct (error_message c) eqn:He; cbn [snd negb]; intros [= <- <- <- <-];
      cbn; rewrite ?He; repeat split; intros; congruence.
Qed.

(** X4. [config_isolate_section], called without a latched error on a
    section line by a reader with an open stream (and a line buffer of two
    bytes or more), always returns, and
    whether it succeeds or fails the original reader comes back with its
    cursor at the offset it had at the call, over the same bytes, with the
    same path and isolation bound. When it fails, an error message is
    recorded in the original reader (so that its later calls fail too) and
    the isolated reader has no stream. *)
Theorem isolation_rewinds_and_failure_latches
    (fs : string -> option (list ascii)) (sizeof_buffer : nat)
    (conf : config) (l : config_line) (f : FILE) :
  2 <= sizeof_buffer ->
  error_message conf = None ->
  is_section l = true ->
  file conf = Some f ->
  exists b c' l' iso,
    config_isolate_section fs sizeof_buffer conf l = Some (b, c', l', iso) /\
    file c' = Some f /\ path c' = path conf /\
    isolated_end c' = isolated_end conf /\
    (b = false -> error_message c' <> None /\ file iso = None).
Proof.
  intros Hsize He Hl Hf.
  assert (file conf <> None) as Hopen by congruence.
  pose proof (config_isolate_section_total sizeof_buffer Hsize fs conf l Hopen) as Ht.
  destruct (config_isolate_section fs sizeof_buffer conf l) as [[[[b c'] l'] iso]|]
    eqn:Hiso; [|congruence].
  exists b, c', l', iso. split; [reflexivity|].
  revert Hiso. unfold config_isolate_section. rewrite He, Hl, Hf. cbn [negb].
  replace (ftell f <? 0)%Z with false
    by (symmetry; apply Z.ltb_ge; unfold ftell; lia).
  destruct (find_section_end _ _ conf l 0) as [[[[] c1] l1]|] eqn:Hscan;
    [| |discriminate];
    pose proof (proj1 (find_section_end_read_on sizeof_buffer _)
                  _ _ _ _ _ _ _ Hf Hscan) as (Hadv & Hp & Hi);
    destruct Hadv as (g & f1 & Hg & Hf1 & Hc & _);
    rewrite Hf in Hg; injection Hg as <-.
  - cbn [set_line file path]. rewrite Hf1.
    replace (ftell f1 <? 0)%Z with false
      by (symmetry; apply Z.ltb_ge; unfold ftell; lia).
    unfold config_open. cbn [set_strbuf set_file path].
    destruct (fs (path c1)) as [data|].
    + cbn [file]. rewrite fseek_ftell.
      intros H.
      apply (isolate_resetpos_rewinds _ _ _ _ _ _ _ _ f f1) in H;
        [|exact Hf1|exact Hc].
      destruct H as (H1 & H2 & H3 & H4 & _).
      cbn [path isolated_end set_line] in H2, H3.
      split; [exact H1|]. split; [congruence|]. split; [congruence|].
      intros Hb. destruct (H4 Hb) as [Hne ->]. split; [exact Hne | reflexivity].
    + intros H.
      apply (isolate_resetpos_rewinds _ _ _ _ _ _ _ _ f f1) in H;
        [|exact Hf1|exact Hc].
      destruct H as (H1 & H2 & H3 & H4 & _).
      cbn [path isolated_end set_line] in H2, H3.
      split; [exact H1|]. split; [congruence|]. split; [congruence|].
      intros Hb. destruct (H4 Hb) as [Hne ->]. split; [exact Hne | reflexivity].
  - intros H.
    apply (isolate_resetpos_rewinds _ _ _ _ _ _ _ _ f f1) in H;
      [|exact Hf1|exact Hc].
    destruct H as (H1 & H2 & H3 & H4 & _).
    split; [exact H1|]. split; [congruence|]. split; [congruence|].
    intros Hb. destruct (H4 Hb) as [Hne ->]. split; [exact Hne | reflexivity].
Qed.

Lemma isolation_rewinds_and_failure_latches_witness :
  exists b c' l' iso,
    config_isolate_section (fun _ => None) 1024
      (positioned "lwan.conf" (bytes "listener *:8080 {" ++ [LF])
         (render unclosed_body) 1)
      (ConfigSection (bytes "listener") (bytes "*:8080")) =
      Some (b, c', l', iso) /\
    file c' =
      Some (mkFILE ((bytes "listener *:8080 {" ++ [LF]) ++ render unclosed_body)
              (length (bytes "listener *:8080 {" ++ [LF]))) /\
    path c' = "lwan.conf"%string /\
    isolated_end c' = (-1)%Z /\
    (b = false -> error_message c' <> None /\ file iso = None).
Proof.
  apply (isolation_rewinds_and_failure_latches (fun _ => None) 1024
           (positioned "lwan.conf" (bytes "listener *:8080 {" ++ [LF])
              (render unclosed_body) 1)
           (ConfigSection (bytes "listener") (bytes "*:8080"))).
  - lia.
  - reflexivity.
  - reflexivity.
  - reflexivity.
Defined.

(** X5. Where [config_skip_section] fails silently, [config_isolate_section]
    does not: on a section of well-formed input that is never closed, it
    returns [false], puts the cursor of the original reader back where it
    was, records [Unknown error while isolating section] in it and leaves
    the isolated reader without a stream. *)
Theorem isolation_of_unclosed_section_fails
    (fs : string -> option (list ascii)) (sizeof_buffer : nat)
    (conf : config) (l : config_line) (body : list source_line) :
  forallb (wf_line sizeof_buffer) body = true ->
  balanced body = true ->
  nesting_within 10 0 body = true ->
  reader_at conf (render body) ->
  is_section l = true ->
  exists c' l' iso,
    config_isolate_section fs sizeof_buffer conf l = Some (false, c', l', iso) /\
    file c' = file conf /\
    error_message c' = Some "Unknown error while isolating section"%string /\
    file iso = None.
Proof.
  intros Hwf Hbal Hnest Hat Hl.
  destruct (skip_fuel_source _ _ Hat) as (fuel & Hfuel & Hle).
  pose proof (find_section_end_loop_source sizeof_buffer _ _ (le_n _) 0 conf l
                fuel Hwf Hat ltac:(lia) Hle) as H.
  pose proof (skip_source_prefix 0 [] body 0 0
                (balanced_from_open_after _ _ Hbal) Hnest) as Hs.
  cbn [Nat.add] in Hs. rewrite app_nil_r in Hs. rewrite Hs in H.
  cbn [skip_source] in H.
  destruct H as (c1 & l1 & Hscan & Hat1).
  assert (find_section_end (skip_fuel conf) sizeof_buffer conf l 0 =
          Some (false, c1, l1)) as Hfind.
  { rewrite Hfuel. cbn [find_section_end Z.ltb Z.compare]. exact Hscan. }
  destruct Hat as (He & _ & f & Hf & _).
  pose proof (proj1 (find_section_end_read_on sizeof_buffer _)
                _ _ _ _ _ _ _ Hf Hfind) as (Hadv & _).
  destruct Hadv as (g & f1 & Hg & Hf1 & Hc & _).
  rewrite Hf in Hg. injection Hg as <-.
  unfold config_isolate_section. rewrite He, Hl, Hf, Hfind. cbn [negb].
  replace (ftell f <? 0)%Z with false
    by (symmetry; apply Z.ltb_ge; unfold ftell; lia).
  destruct (isolate_resetpos false c1 l1
              (set_strbuf (set_file conf None) (strbuf c1)) (ftell f))
    as [[[[b c'] l'] iso]|] eqn:Hreset.
  2: { exfalso. revert Hreset. apply isolate_resetpos_total. congruence. }
  pose proof (isolate_resetpos_rewinds _ _ _ _ _ _ _ _ f f1 Hf1 Hc Hreset)
    as (H1 & _ & _ & H4 & H5).
  destruct (H5 eq_refl) as [-> Hmsg].
  destruct (H4 eq_refl) as [_ ->].
  exists c', l', (config_close (set_strbuf (set_file conf None) (strbuf c1))).
  split; [reflexivity|]. split; [congruence|].
  split; [apply Hmsg; apply Hat1 | reflexivity].
Qed.

Lemma isolation_of_unclosed_section_fails_witness :
  exists c' l' iso,
    config_isolate_section (fun _ => None) 1024
      (positioned "lwan.conf" (bytes "listener *:8080 {" ++ [LF])
         (render unclosed_body) 1)
      (ConfigSection (bytes "listener") (bytes "*:8080")) =
      Some (false, c', l', iso) /\
    file c' =
      file (positioned "lwan.conf" (bytes "listener *:8080 {" ++ [LF])
              (render unclosed_body) 1) /\
    error_message c' = Some "Unknown error while isolating section"%string /\
    file iso = None.
Proof.
  apply (isolation_of_unclosed_section_fails (fun _ => None) 1024 _ _
           unclosed_body).
  - vm_compute. reflexivity.
  - vm_compute. reflexivity.
  - vm_compute. reflexivity.
  - apply reader_at_positioned.
  - reflexivity.
Defined.

(** ** What a successful [config_read_line] has done *)

Lemma parse_multiline_loop_boundary :
  forall fuel c l c1 l1,
    parse_multiline_loop fuel c l = Some (true, c1, l1) ->
    boundary_ok c (cursor c1) = true.
Proof.
  induction fuel as [|fuel IH]; intros c l c1 l1; [discriminate|].
  cbn [parse_multiline_loop].
  destruct (config_fgets c 1024) as [[[fbuf|] cm]|] eqn:E; [| |discriminate].
  2: { unfold config_error. destruct (error_message cm); discriminate. }
  pose proof (config_fgets_sim _ _ _ _ E) as (Hb & (_ & _ & _ & Hi) & _).
  destruct (streq _ multiline_sentinel).
  - now intros [= <- _].
  - intros H. apply IH in H.
    rewrite <- (boundary_ok_ext c _ _ Hi). exact H.
Qed.

Lemma interpret_line_boundary (c c1 : config) (l l1 : config_line)
    (ln : list ascii) :
  boundary_ok c (cursor c) = true ->
  interpret_line c l ln = Some (true, c1, l1) ->
  boundary_ok c (cursor c1) = true.
Proof.
  intros Hb. unfold interpret_line.
  destruct (Ascii.eqb (find_line_end ln) "{").
  - destruct (parse_section ln); [|discriminate]. now intros [= <- _].
  - destruct (_ && _); [now intros [= <- _]|].
    destruct (strchr ln "=") as [equal|]; [|discriminate].
    unfold parse_line. destruct (negb _); [now intros [= <- _]|].
    unfold parse_multiline.
    destruct (parse_multiline_loop _ _ _) as [[[[] c2] l2]|] eqn:E;
      try discriminate.
    intros [= <- _]. exact (parse_multiline_loop_boundary _ _ _ _ _ E).
Qed.

(** X6. What every successful [config_read_line] has done: no error was
    latched before and none is after; the reader is on the same bytes, with
    the same path and isolation bound, and its cursor has moved forward by
    at least one byte (so a loop over [config_read_line] ends); and the
    cursor of an isolated reader is still strictly before [isolated.end],
    also when the line delivered is a multiline value. *)
Theorem successful_read_makes_progress_within_the_bound (sizeof_buffer : nat)
    (conf c1 : config) (l l1 : config_line) :
  config_read_line sizeof_buffer conf l = Some (true, c1, l1) ->
  error_message conf = None /\ error_message c1 = None /\
  path c1 = path conf /\ isolated_end c1 = isolated_end conf /\
  (exists f f1,
      file conf = Some f /\ file c1 = Some f1 /\
      content f1 = content f /\ pos f < pos f1) /\
  ((0 < isolated_end conf)%Z -> (Z.of_nat (cursor c1) < isolated_end conf)%Z).
Proof.
  intros H.
  pose proof (config_read_line_sim _ _ _ _ _ H)
    as (He & (_ & Hp & He1 & Hi) & _ & Hcur & _).
  pose proof (config_read_line_advanced _ _ _ _ _ H)
    as (f & f1 & Hf & Hf1 & Hc & _).
  split; [exact He|]. split; [congruence|]. split; [exact Hp|].
  split; [exact Hi|]. split.
  { exists f, f1. unfold cursor in Hcur. rewrite Hf, Hf1 in Hcur. auto. }
  intros Hiso.
  assert (boundary_ok conf (cursor c1) = true) as Hb.
  { revert H. unfold config_read_line. rewrite He.
    destruct (read_nonempty_line _ _ conf) as [[[ln|] cr]|] eqn:Hr;
      try discriminate.
    apply read_nonempty_line_sim in Hr as ((_ & _ & _ & Hir) & _ & Hb & _).
    intros Hint. rewrite <- (boundary_ok_ext conf cr _ Hir).
    apply (interpret_line_boundary _ _ _ _ _ ltac:(now rewrite (boundary_ok_ext conf cr _ Hir)) Hint). }
  unfold boundary_ok in Hb. apply negb_true_iff, andb_false_iff in Hb.
  destruct Hb as [Hb|Hb]; [apply Z.ltb_ge in Hb | apply Z.leb_gt in Hb]; lia.
Qed.

Lemma successful_read_makes_progress_within_the_bound_witness :
  exists c1 l1,
    config_read_line 1024 isolated_sample ConfigSectionEnd = Some (true, c1, l1) /\
    error_message isolated_sample = None /\ error_message c1 = None /\
    path c1 = path isolated_sample /\
    isolated_end c1 = isolated_end isolated_sample /\
    (exists f f1,
        file isolated_sample = Some f /\ file c1 = Some f1 /\
        content f1 = content f /\ pos f < pos f1) /\
    ((0 < isolated_end isolated_sample)%Z ->
     (Z.of_nat (cursor c1) < isolated_end isolated_sample)%Z).
Proof.
  eexists _, _. split; [vm_compute; reflexivity|].
  eapply (successful_read_makes_progress_within_the_bound 1024 isolated_sample _
            ConfigSectionEnd).
  vm_compute. reflexivity.
Defined.

(** ** The error messages of [config_read_line] *)

Lemma config_fgets_error (conf conf1 : config) (n : nat)
    (r : option (list ascii)) :
  config_fgets conf n = Some (r, conf1) ->
  error_message conf1 = error_message conf.
Proof.
  destruct (file conf) as [f|] eqn:Hf;
    [|unfold config_fgets; now rewrite Hf].
  rewrite (config_fgets_eq _ _ _ Hf).
  destruct (fgets n f) as [[b f']|]; [|now intros [= _ <-]].
  destruct (boundary_ok conf (pos f')); now intros [= _ <-].
Qed.

Lemma read_nonempty_line_error (sizeof_buffer : nat) :
  forall fuel conf conf1 r,
    read_nonempty_line fuel sizeof_buffer conf = Some (r, conf1) ->
    error_message conf1 = error_message conf.
Proof.
  induction fuel as [|fuel IH]; intros conf conf1 r; [discriminate|].
  cbn [read_nonempty_line].
  destruct (config_fgets conf sizeof_buffer) as [[[fbuf|] c1]|] eqn:E;
    [| |discriminate]; apply config_fgets_error in E.
  - destruct (remove_trailing_spaces _).
    + intros H. apply IH in H. congruence.
    + intros [= _ <-]. exact E.
  - intros [= _ <-]. exact E.
Qed.

Lemma parse_multiline_loop_error :
  forall fuel c l b c1 l1,
    error_message c = None ->
    parse_multiline_loop fuel c l = Some (b, c1, l1) ->
    if b then error_message c1 = None
    else error_message c1 =
           Some "EOF while scanning for end of multiline string"%string.
Proof.
  induction fuel as [|fuel IH]; intros c l b c1 l1 He; [discriminate|].
  cbn [parse_multiline_loop].
  destruct (config_fgets c 1024) as [[[fbuf|] c'] |] eqn:E; [| |discriminate];
    apply config_fgets_error in E; rewrite He in E.
  - destruct (streq _ _).
    + now intros [= <- <- _].
    + apply IH. exact E.
  - intros [= <- <- _]. unfold config_error. now rewrite E.
Qed.

(** X7. The messages of [config_read_line]: a call that starts without a
    latched error and returns [true] leaves none; one that returns [false]
    leaves none (end of input) or one of [Malformed section opening],
    [Expecting section or key=value] and
    [EOF while scanning for end of multiline string]. The message
    [Malformed key=value line] is never recorded: when [parse_line] fails,
    [parse_multiline] has latched its own message first. *)
Theorem config_read_line_error_messages (sizeof_buffer : nat)
    (conf c1 : config) (l l1 : config_line) (b : bool) :
  error_message conf = None ->
  config_read_line sizeof_buffer conf l = Some (b, c1, l1) ->
  match error_message c1 with
  | None => True
  | Some msg => b = false /\ In msg read_errors
  end.
Proof.
  intros He. unfold config_read_line. rewrite He.
  destruct (read_nonempty_line _ _ conf) as [[[ln|] cr]|] eqn:Hr;
    [| |discriminate]; apply read_nonempty_line_error in Hr; rewrite He in Hr.
  2: { intros [= _ <- _]. now rewrite Hr. }
  unfold interpret_line. destruct (Ascii.eqb (find_line_end ln) "{").
  - destruct (parse_section ln); intros [= <- <- _].
    + now rewrite Hr.
    + unfold config_error. rewrite Hr. cbn. auto.
  - destruct (_ && _); [intros [= _ <- _]; now rewrite Hr|].
    destruct (strchr ln "=") as [equal|].
    2: { intros [= <- <- _]. unfold config_error. rewrite Hr. cbn. auto. }
    unfold parse_line. destruct (negb _); [intros [= _ <- _]; now rewrite Hr|].
    unfold parse_multiline.
    destruct (parse_multiline_loop _ _ _) as [[[[] c2] l2]|] eqn:E;
      [| |discriminate];
      apply parse_multiline_loop_error in E; try exact Hr.
    + intros [= _ <- _]. now rewrite E.
    + intros [= <- <- _]. unfold config_error. rewrite E. cbn [snd].
      rewrite E. cbn. auto.
Qed.

Lemma config_read_line_error_messages_witness :
  match
    error_message
      (set_error_message
         (advance (opened "f" (bytes "oops" ++ [LF])) 5 1)
         (Some "Expecting section or key=value"%string))
  with
  | None => True
  | Some msg => false = false /\ In msg read_errors
  end.
Proof.
  apply (config_read_line_error_messages 1024
           (opened "f" (bytes "oops" ++ [LF])) _ ConfigSectionEnd
           ConfigSectionEnd false).
  - reflexivity.
  - vm_compute. reflexivity.
Defined.

(** ** A multiline value that is not terminated *)

Lemma parse_multiline_loop_eof (l : config_line) :
  forall ls fuel conf,
    forallb body_line ls = true ->
    reader_at conf (text_of_lines ls) ->
    length ls < fuel ->
    exists c',
      parse_multiline_loop fuel conf l = Some (false, c', l) /\
      error_message c' =
        Some "EOF while scanning for end of multiline string"%string /\
      bytes_left c' = 0.
Proof.
  induction ls as [|ln ls IH]; intros fuel conf Hls Hat Hfuel.
  - destruct fuel as [|fuel]; [cbn in Hfuel; lia|].
    cbn [parse_multiline_loop text_of_lines map concat] in *.
    rewrite (config_fgets_eof _ _ Hat).
    pose proof (reader_at_bytes_left _ _ Hat) as Hb.
    destruct Hat as (He & _). unfold config_error. rewrite He. cbn [snd].
    eexists. split; [reflexivity|]. split; [reflexivity|]. exact Hb.
  - destruct fuel as [|fuel]; [cbn in Hfuel; lia|].
    cbn [forallb] in Hls. apply andb_prop in Hls as [Hln Hls].
    apply body_line_inv in Hln as (Hs & Hl & Ht).
    unfold text_of_lines in Hat. cbn [map concat] in Hat.
    fold (text_of_lines ls) in Hat. rewrite <- !app_assoc in Hat.
    cbn [app] in Hat.
    cbn [parse_multiline_loop].
    rewrite (config_fgets_line _ _ _ _ Hat Hs Hl).
    rewrite single_line_c_str by assumption.
    unfold is_terminator in Ht. rewrite Ht.
    pose proof (reader_at_next _ _ _ 1 Hat) as Hnext.
    apply IH; [assumption| |cbn in Hfuel; lia].
    exact Hnext.
Qed.

(** X8. A multiline value whose terminator line is missing: when the
    input ends after the opening [key = '''] line and its body lines (none
    of which trims to the sentinel), [config_read_line] returns [false]
    with the whole input consumed, and the message recorded is
    [EOF while scanning for end of multiline string]. *)
Theorem unterminated_multiline_reports_eof (sizeof_buffer : nat)
    (conf : config) (l : config_line) (i : nat) (k : list ascii)
    (ls : list (list ascii)) :
  wf_line sizeof_buffer (SrcMultiline i k []) = true ->
  forallb body_line ls = true ->
  reader_at conf (text_of_lines (render_line (SrcMultiline i k []) :: ls)) ->
  exists c' l',
    config_read_line sizeof_buffer conf l = Some (false, c', l') /\
    error_message c' =
      Some "EOF while scanning for end of multiline string"%string /\
    bytes_left c' = 0.
Proof.
  intros Hwf Hls Hat.
  pose proof (wf_line_single_line _ _ Hwf) as Hs.
  pose proof (wf_line_fits _ _ Hwf) as Hfit.
  unfold wf_line in Hwf. apply andb_prop in Hwf as [_ Hwf]. split_andb.
  cbn [render_line] in *.
  unfold text_of_lines in Hat. cbn [map concat] in Hat.
  fold (text_of_lines ls) in Hat. rewrite <- !app_assoc in Hat.
  cbn [app] in Hat. rewrite !app_assoc in Hat.
  rewrite <- !app_assoc in Hat.
  match goal with
  | Hk : is_text k = true |- _ =>
      pose proof (is_text_assign k _ Hk is_text_sentinel) as Ht
  end.
  assert (normalise ((spaces i ++ k ++ bytes " = " ++ multiline_sentinel) ++ [LF])
    = k ++ bytes " = " ++ multiline_sentinel) as Hn.
  { rewrite <- app_assoc. now apply normalise_text. }
  assert (reader_at conf
            ((spaces i ++ k ++ bytes " = " ++ multiline_sentinel) ++
             LF :: text_of_lines ls)) as Hat'.
  { rewrite <- !app_assoc. exact Hat. }
  rewrite (config_read_line_first sizeof_buffer conf _ _ Hat' Hs Hfit)
    by (rewrite Hn; now destruct (is_text_inv _ Ht) as (_ & _ & ? & _)).
  rewrite Hn, interpret_key_value by (assumption || reflexivity).
  change (streq multiline_sentinel multiline_sentinel) with true.
  cbn [negb].
  pose proof (reader_at_next _ _ _ 1 Hat') as Hnext.
  unfold parse_multiline, strbuf_reset_length.
  destruct (parse_multiline_loop_eof
              (ConfigLine (replace_space_with_underscore k) multiline_sentinel)
              ls
              (S (bytes_left (set_strbuf (advance conf
                 (S (length (spaces i ++ k ++ bytes " = " ++ multiline_sentinel))) 1) [])))
              (set_strbuf (advance conf
                 (S (length (spaces i ++ k ++ bytes " = " ++ multiline_sentinel))) 1) [])
              Hls)
    as (c' & Hloop & Herr & Hleft).
  - now apply reader_at_set_strbuf.
  - change (bytes_left (set_strbuf ?c [])) with (bytes_left c).
    rewrite (reader_at_bytes_left _ _ Hnext).
    pose proof (length_text_of_lines ls). lia.
  - rewrite Hloop. unfold config_error. rewrite Herr. cbn [snd].
    eexists _, _. split; [reflexivity|]. split; assumption.
Qed.

Lemma unterminated_multiline_reports_eof_witness :
  exists c' l',
    config_read_line 1024
      (opened "f"
         (text_of_lines
            (render_line (SrcMultiline 2 (bytes "script") []) ::
             [bytes "print(1)"; bytes "print(2)"])))
      ConfigSectionEnd = Some (false, c', l') /\
    error_message c' =
      Some "EOF while scanning for end of multiline string"%string /\
    bytes_left c' = 0.
Proof.
  apply (unterminated_multiline_reports_eof 1024 _ ConfigSectionEnd 2
           (bytes "script") [bytes "print(1)"; bytes "print(2)"]).
  - vm_compute. reflexivity.
  - vm_compute. reflexivity.
  - apply (reader_at_positioned "f" []).
Defined.

(** ** The shape of the records delivered *)

Lemma no_char_firstn (c : ascii) (s : list ascii) (n : nat) :
  no_char c s = true -> no_char c (firstn n s) = true.
Proof.
  revert n. induction s as [|x s IH]; intros [|n]; cbn; auto.
  intros H. apply andb_prop in H as [-> H]. cbn. now apply IH.
Qed.

Lemma no_char_before_strchr (c : ascii) :
  forall s n, strchr s c = Some n -> no_char c (firstn n s) = true.
Proof.
  induction s as [|x s IH]; intros n; [discriminate|]. cbn [strchr].
  destruct (Ascii.eqb x c) eqn:E.
  - now intros [= <-].
  - destruct (strchr s c) as [m|]; [|discriminate]. intros [= <-].
    cbn. rewrite E. cbn. now apply IH.
Qed.

Lemma no_char_remove_leading_spaces (c : ascii) (s : list ascii) :
  no_char c s = true -> no_char c (remove_leading_spaces s) = true.
Proof.
  induction s as [|x s IH]; [reflexivity|]. intros H.
  cbn [remove_leading_spaces]. destruct (isspace x); [|exact H].
  cbn in H. apply andb_prop in H as [_ H]. now apply IH.
Qed.

Lemma no_char_remove_trailing_spaces (c : ascii) (s : list ascii) :
  no_char c s = true -> no_char c (remove_trailing_spaces s) = true.
Proof.
  induction s as [|x s IH]; [reflexivity|]. intros H.
  cbn in H. apply andb_prop in H as [Hx H]. specialize (IH H).
  cbn [remove_trailing_spaces]. destruct (remove_trailing_spaces s).
  - destruct (isspace x); [reflexivity|]. cbn. now rewrite Hx.
  - cbn [no_char forallb] in *. now rewrite Hx.
Qed.

Lemma no_space_replace_space_with_underscore (s : list ascii) :
  no_char " " (replace_space_with_underscore s) = true.
Proof.
  induction s as [|x s IH]; [reflexivity|].
  cbn [replace_space_with_underscore]. unfold no_char in *.
  cbn [forallb]. rewrite IH, andb_true_r.
  now destruct (Ascii.eqb x " ") eqn:E; [|rewrite E].
Qed.

Lemma no_equal_replace_space_with_underscore (s : list ascii) :
  no_char "=" s = true -> no_char "=" (replace_space_with_underscore s) = true.
Proof.
  induction s as [|x s IH]; [reflexivity|].
  cbn [replace_space_with_underscore]. unfold no_char in *.
  cbn [forallb]. intros H.
  apply andb_prop in H as [Hx H]. rewrite (IH H), andb_true_r.
  now destruct (Ascii.eqb x " ").
Qed.

Lemma hd_remove_leading_spaces (s : list ascii) :
  isspace (hd NUL (remove_leading_spaces s)) = false.
Proof.
  induction s as [|x s IH]; [reflexivity|]. cbn [remove_leading_spaces].
  destruct (isspace x) eqn:E; [exact IH | exact E].
Qed.

Lemma hd_remove_trailing_spaces (s : list ascii) :
  isspace (hd NUL s) = false ->
  isspace (hd NUL (remove_trailing_spaces s)) = false.
Proof.
  destruct s as [|x s]; [reflexivity|]. cbn [hd remove_trailing_spaces].
  intros H. destruct (remove_trailing_spaces s); [now rewrite H | exact H].
Qed.

Lemma last_remove_trailing_spaces (s : list ascii) :
  isspace (find_line_end (remove_trailing_spaces s)) = false.
Proof.
  unfold find_line_end. induction s as [|x s IH]; [reflexivity|].
  cbn [remove_trailing_spaces]. destruct (remove_trailing_spaces s) as [|y t].
  - destruct (isspace x) eqn:E; [reflexivity | exact E].
  - exact IH.
Qed.

Lemma hd_replace_space_with_underscore (s : list ascii) :
  isspace (hd NUL s) = false ->
  isspace (hd NUL (replace_space_with_underscore s)) = false.
Proof.
  destruct s as [|x s]; [reflexivity|]. cbn. intros H.
  now destruct (Ascii.eqb x " ").
Qed.

Lemma last_replace_space_with_underscore (s : list ascii) :
  isspace (find_line_end s) = false ->
  isspace (find_line_end (replace_space_with_underscore s)) = false.
Proof.
  unfold find_line_end. induction s as [|x s IH]; [reflexivity|].
  destruct s as [|y s].
  - cbn. intros H. now destruct (Ascii.eqb x " ").
  - intros H. change (last (x :: y :: s) NUL) with (last (y :: s) NUL) in H.
    specialize (IH H). cbn [replace_space_with_underscore] in *. exact IH.
Qed.

(** The line that leaves the [do ... while] loop of [config_read_line] is
    not empty and has no white space at either end. *)
Lemma read_nonempty_line_trimmed (sizeof_buffer : nat) :
  forall fuel conf c1 ln,
    read_nonempty_line fuel sizeof_buffer conf = Some (Some ln, c1) ->
    ln <> [] /\ isspace (hd NUL ln) = false /\
    isspace (find_line_end ln) = false.
Proof.
  induction fuel as [|fuel IH]; intros conf c1 ln; [discriminate|].
  cbn [read_nonempty_line].
  destruct (config_fgets conf sizeof_buffer) as [[[fbuf|] cm]|];
    [| discriminate | discriminate].
  destruct (remove_trailing_spaces _) as [|x t] eqn:Hn; [apply IH|].
  intros [= <- _]. rewrite <- Hn. split; [rewrite Hn; discriminate|]. split.
  - apply hd_remove_trailing_spaces, hd_remove_leading_spaces.
  - apply last_remove_trailing_spaces.
Qed.

(** A successful [config_read_line] has interpreted such a line. *)
Lemma config_read_line_interprets (sizeof_buffer : nat) (conf c1 : config)
    (l l1 : config_line) :
  config_read_line sizeof_buffer conf l = Some (true, c1, l1) ->
  exists cr ln,
    ln <> [] /\ isspace (hd NUL ln) = false /\
    isspace (find_line_end ln) = false /\
    interpret_line cr l ln = Some (true, c1, l1).
Proof.
  unfold config_read_line. destruct (error_message conf); [discriminate|].
  destruct (read_nonempty_line _ _ conf) as [[[ln|] cr]|] eqn:Hr;
    try discriminate.
  intros H. apply read_nonempty_line_trimmed in Hr as (H1 & H2 & H3).
  now exists cr, ln.
Qed.

(** X9. The key of every assignment that [config_read_line] delivers
    (single-line or multiline) holds no space character (spaces inside the
    key have become underscores) and no [=] (the line is split at its first
    [=]), and has no white space at either end. *)
Theorem delivered_key_is_normalised (sizeof_buffer : nat) (conf c1 : config)
    (l : config_line) (k v : list ascii) :
  config_read_line sizeof_buffer conf l = Some (true, c1, ConfigLine k v) ->
  no_char " " k = true /\ no_char "=" k = true /\
  isspace (hd NUL k) = false /\ isspace (find_line_end k) = false.
Proof.
  intros H. apply config_read_line_interprets in H
    as (cr & ln & _ & _ & _ & H).
  revert H. unfold interpret_line.
  destruct (Ascii.eqb (find_line_end ln) "{").
  { unfold parse_section. destruct (strchr ln " "); discriminate. }
  destruct (_ && _); [discriminate|].
  destruct (strchr ln "=") as [equal|] eqn:Heq; [|discriminate].
  assert (forall k0,
             k0 = replace_space_with_underscore
                    (remove_trailing_spaces
                       (remove_leading_spaces (firstn equal ln))) ->
             no_char " " k0 = true /\ no_char "=" k0 = true /\
             isspace (hd NUL k0) = false /\
             isspace (find_line_end k0) = false) as Hkey.
  { intros k0 ->. split; [apply no_space_replace_space_with_underscore|].
    split.
    - apply no_equal_replace_space_with_underscore,
        no_char_remove_trailing_spaces, no_char_remove_leading_spaces.
      now apply no_char_before_strchr.
    - split.
      + apply hd_replace_space_with_underscore, hd_remove_trailing_spaces,
          hd_remove_leading_spaces.
      + apply last_replace_space_with_underscore, last_remove_trailing_spaces. }
  unfold parse_line. destruct (negb _).
  - intros [= _ <- _]. now apply Hkey.
  - unfold parse_multiline.
    destruct (parse_multiline_loop _ _ _) as [[[[] c2] l2]|] eqn:E;
      try discriminate.
    apply parse_multiline_loop_sim in E as (_ & -> & _).
    cbn [set_value]. intros [= _ <- _]. now apply Hkey.
Qed.

Lemma delivered_key_is_normalised_witness :
  no_char " " (bytes "keep_alive_timeout") = true /\
  no_char "=" (bytes "keep_alive_timeout") = true /\
  isspace (hd NUL (bytes "keep_alive_timeout")) = false /\
  isspace (find_line_end (bytes "keep_alive_timeout")) = false.
Proof.
  eapply (delivered_key_is_normalised 1024
            (opened "f" (bytes "  keep alive timeout = 15 # s" ++ [LF]))
            _ ConfigSectionEnd (bytes "keep_alive_timeout") (bytes "15")).
  vm_compute. reflexivity.
Defined.

Lemma strchr_lt (c : ascii) :
  forall s n, strchr s c = Some n -> n < length s.
Proof.
  induction s as [|x s IH]; intros n; [discriminate|]. cbn [strchr].
  destruct (Ascii.eqb x c).
  - intros [= <-]. cbn. lia.
  - destruct (strchr s c) as [m|]; [|discriminate]. intros [= <-].
    specialize (IH m eq_refl). cbn. lia.
Qed.

Lemma remove_trailing_spaces_nonempty (x : ascii) (s : list ascii) :
  isspace x = false -> remove_trailing_spaces (x :: s) <> [].
Proof.
  intros H. cbn [remove_trailing_spaces].
  destruct (remove_trailing_spaces s); [rewrite H|]; discriminate.
Qed.

(** X10. Every section opening that [config_read_line] delivers has a name
    that is not empty, holds no space character and has no white space at
    either end; the parameter (which may be empty) has no white space at
    either end. *)
Theorem delivered_section_name_is_a_word (sizeof_buffer : nat)
    (conf c1 : config) (l : config_line) (n p : list ascii) :
  config_read_line sizeof_buffer conf l = Some (true, c1, ConfigSection n p) ->
  n <> [] /\ no_char " " n = true /\
  isspace (hd NUL n) = false /\ isspace (find_line_end n) = false /\
  isspace (hd NUL p) = false /\ isspace (find_line_end p) = false.
Proof.
  intros H. apply config_read_line_interprets in H
    as (cr & ln & Hne & Hhd & _ & H).
  revert H. unfold interpret_line.
  destruct (Ascii.eqb (find_line_end ln) "{").
  2: { destruct (_ && _); [discriminate|].
       destruct (strchr ln "=") as [equal|]; [|discriminate].
       unfold parse_line. destruct (negb _); [discriminate|].
       unfold parse_multiline.
       destruct (parse_multiline_loop _ _ _) as [[[[] c2] l2]|] eqn:E;
         try discriminate.
       apply parse_multiline_loop_sim in E as (_ & -> & _). discriminate. }
  unfold parse_section.
  destruct (strchr ln " ") as [space|] eqn:Hsp; [|discriminate].
  intros [= _ <- <-].
  pose proof (strchr_lt _ _ _ Hsp) as Hlt.
  rewrite (firstn_removelast ln Hlt).
  split; [|split; [|split; [|split; [|split]]]].
  - destruct ln as [|x t]; [congruence|]. cbn [hd] in Hhd.
    cbn [strchr] in Hsp. destruct (Ascii.eqb x " ") eqn:Ex.
    + apply Ascii.eqb_eq in Ex. subst x. discriminate Hhd.
    + destruct (strchr t " ") as [m|]; [|discriminate]. injection Hsp as <-.
      cbn [firstn remove_leading_spaces]. rewrite Hhd.
      now apply remove_trailing_spaces_nonempty.
  - apply no_char_remove_trailing_spaces, no_char_remove_leading_spaces.
    now apply no_char_before_strchr.
  - apply hd_remove_trailing_spaces, hd_remove_leading_spaces.
  - apply last_remove_trailing_spaces.
  - apply hd_remove_trailing_spaces, hd_remove_leading_spaces.
  - apply last_remove_trailing_spaces.
Qed.

Lemma delivered_section_name_is_a_word_witness :
  bytes "listener" <> [] /\ no_char " " (bytes "listener") = true /\
  isspace (hd NUL (bytes "listener")) = false /\
  isspace (find_line_end (bytes "listener")) = false /\
  isspace (hd NUL (bytes "*:8080")) = false /\
  isspace (find_line_end (bytes "*:8080")) = false.
Proof.
  eapply (delivered_section_name_is_a_word 1024
            (opened "f" (bytes "listener   *:8080  {  # http" ++ [LF]))
            _ ConfigSectionEnd (bytes "listener") (bytes "*:8080")).
  vm_compute. reflexivity.
Defined.

(** ** A physical line that does not fit the line buffer *)

Lemma fgets_chunk_full (ln rest : list ascii) :
  single_line ln = true -> fgets_chunk (length ln) (ln ++ rest) = ln.
Proof.
  induction ln as [|c r IH]; [reflexivity|]. cbn. intros H.
  apply andb_prop in H as [Hc Hr]. apply andb_prop in Hc as [Hl _].
  apply negb_true_iff in Hl. rewrite Hl. f_equal. now apply IH.
Qed.

Lemma c_str_single_line (ln : list ascii) :
  single_line ln = true -> c_str ln = ln.
Proof.
  induction ln as [|c r IH]; [reflexivity|]. cbn.
  intros H. apply andb_prop in H as [Hc Hr]. apply andb_prop in Hc as [_ Hn].
  apply negb_true_iff in Hn. rewrite Hn. f_equal. now apply IH.
Qed.

Lemma config_fgets_full (conf : config) (n : nat) (ln rest : list ascii) :
  reader_at conf (ln ++ rest) ->
  single_line ln = true -> ln <> [] -> S (length ln) = n ->
  config_fgets conf n = Some (Some ln, advance conf (length ln) 1).
Proof.
  intros (He & Hi & f & Hf & Hr) Hs Hne Hn.
  unfold config_fgets, fgets, advance. rewrite Hf, Hr. subst n.
  replace (S (length ln) - 1) with (length ln) by lia.
  rewrite fgets_chunk_full by assumption.
  destruct (ln ++ rest) eqn:E; [now destruct ln|].
  cbn [set_file set_line isolated_end file path strbuf error_message line].
  apply Z.ltb_ge in Hi. rewrite Hi. reflexivity.
Qed.

Lemma normalise_text_cut (i : nat) (body : list ascii) :
  is_text body = true -> normalise (spaces i ++ body) = body.
Proof.
  intros H. apply is_text_inv in H as (Hs & Hc & Hne & Hh & Hl).
  unfold normalise, remove_comments.
  rewrite strrchr_none by (now rewrite no_char_app, no_hash_spaces, Hc).
  rewrite remove_leading_spaces_spaces.
  rewrite remove_leading_spaces_id by assumption.
  now apply remove_trailing_spaces_id.
Qed.

(** X11. A physical line longer than the line buffer is cut without any
    error: when the first [sizeof_buffer - 1] bytes at the cursor are an
    indented assignment [key = value] (text, no newline among them),
    [config_read_line] delivers that assignment and leaves the reader on
    whatever follows, be it the rest of the same physical line, which the
    next call reads as a line of its own. *)
Theorem overlong_line_is_cut (sizeof_buffer : nat) (conf : config)
    (l : config_line) (i : nat) (k v rest : list ascii) :
  is_text k = true -> no_char "=" k = true ->
  is_text v = true -> streq v multiline_sentinel = false ->
  Ascii.eqb (find_line_end v) "{" = false ->
  S (length (spaces i ++ k ++ bytes " = " ++ v)) = sizeof_buffer ->
  reader_at conf ((spaces i ++ k ++ bytes " = " ++ v) ++ rest) ->
  config_read_line sizeof_buffer conf l =
    Some (true, advance conf (sizeof_buffer - 1) 1,
          ConfigLine (replace_space_with_underscore k) v) /\
  reader_at (advance conf (sizeof_buffer - 1) 1) rest.
Proof.
  intros Hk Hke Hv Hvs Hvb Hsz Hat.
  pose proof (is_text_assign k v Hk Hv) as Ht.
  pose proof (is_text_inv _ Ht) as (Hs & _ & Hne & _).
  assert (single_line (spaces i ++ k ++ bytes " = " ++ v) = true) as Hline
    by (now rewrite single_line_app, single_line_spaces).
  assert (spaces i ++ k ++ bytes " = " ++ v <> []) as Hnil.
  { intros E. apply app_eq_nil in E as [_ E]. contradiction. }
  replace (sizeof_buffer - 1) with (length (spaces i ++ k ++ bytes " = " ++ v))
    by lia.
  split; [|now apply reader_at_advance].
  unfold config_read_line. destruct Hat as (He & Hrest). rewrite He.
  cbn [read_nonempty_line].
  rewrite (config_fgets_full conf sizeof_buffer _ rest
             (conj He Hrest) Hline Hnil Hsz).
  rewrite c_str_single_line by assumption.
  fold (normalise (spaces i ++ k ++ bytes " = " ++ v)).
  rewrite normalise_text_cut by assumption.
  destruct (k ++ bytes " = " ++ v) eqn:E; [congruence|]. rewrite <- E.
  now apply interpret_assign.
Qed.

Lemma overlong_line_is_cut_witness :
  config_read_line 17
    (opened "f" ((spaces 2 ++ bytes "path" ++ bytes " = " ++ bytes "/var/ww") ++
                 bytes "w/html" ++ [LF]))
    ConfigSectionEnd =
    Some (true,
          advance
            (opened "f" ((spaces 2 ++ bytes "path" ++ bytes " = " ++ bytes "/var/ww") ++
                         bytes "w/html" ++ [LF])) (17 - 1) 1,
          ConfigLine (replace_space_with_underscore (bytes "path")) (bytes "/var/ww")) /\
  reader_at
    (advance
       (opened "f" ((spaces 2 ++ bytes "path" ++ bytes " = " ++ bytes "/var/ww") ++
                    bytes "w/html" ++ [LF])) (17 - 1) 1)
    (bytes "w/html" ++ [LF]).
Proof.
  apply (overlong_line_is_cut 17 _ ConfigSectionEnd 2 (bytes "path")
           (bytes "/var/ww") (bytes "w/html" ++ [LF])).
  - reflexivity.
  - reflexivity.
  - reflexivity.
  - reflexivity.
  - reflexivity.
  - reflexivity.
  - apply (reader_at_positioned "f" []).
Defined.

(** ** [parse_time_period] on a well-formed duration *)

Lemma isdigit_facts (c : ascii) :
  isdigit c = true ->
  isspace c = false /\ Ascii.eqb c "-" = false /\ Ascii.eqb c "+" = false.
Proof.
  destruct c as [[] [] [] [] [] [] [] []]; cbn; intros H;
    try discriminate H; repeat split; reflexivity.
Qed.

Lemma scan_digits_app (m : ascii) (rest : list ascii) :
  isdigit m = false ->
  forall ds acc,
    forallb isdigit ds = true ->
    scan_digits (ds ++ m :: rest) acc =
    (fold_left (fun a c => (10 * a + digit_value c)%Z) ds acc, m :: rest).
Proof.
  intros Hm. induction ds as [|d ds IH]; intros acc H.
  - cbn. now rewrite Hm.
  - cbn [forallb] in H. apply andb_prop in H as [Hd H].
    cbn [app scan_digits fold_left]. rewrite Hd. now apply IH.
Qed.

Lemma no_char_digits (m : ascii) (ds : list ascii) :
  isdigit m = false -> forallb isdigit ds = true -> no_char m ds = true.
Proof.
  intros Hm. induction ds as [|d ds IH]; [reflexivity|].
  unfold no_char in *. cbn [forallb]. intros H.
  apply andb_prop in H as [Hd H]. rewrite (IH H), andb_true_r.
  destruct (Ascii.eqb d m) eqn:E; [|reflexivity].
  apply Ascii.eqb_eq in E. congruence.
Qed.

Lemma no_char_spaces (m : ascii) (i : nat) :
  Ascii.eqb m " " = false -> no_char m (spaces i) = true.
Proof.
  intros Hm. induction i as [|i IH]; [reflexivity|].
  unfold no_char, spaces in *. cbn [repeat forallb].
  rewrite Ascii.eqb_sym, Hm. exact IH.
Qed.

(** One scan of [sscanf] and the move of [rawmemchr] over a component. *)
Lemma sscanf_component (i : nat) (ds : list ascii) (m : ascii)
    (rest : list ascii) :
  wf_component (i, ds, m) = true ->
  sscanf_u_c (spaces i ++ ds ++ m :: rest) = Some (uint (decimal_value ds), m) /\
  strchr (spaces i ++ ds ++ m :: rest) m = Some (i + length ds) /\
  skipn (S (i + length ds)) (spaces i ++ ds ++ m :: rest) = rest.
Proof.
  unfold wf_component. intros H.
  apply andb_prop in H as [H Hu]. apply andb_prop in H as [H Hmax].
  apply andb_prop in H as [Hne Hds]. apply Z.leb_le in Hmax.
  apply andb_prop in Hu as [Hu _]. apply andb_prop in Hu as [Hm Hsp].
  apply negb_true_iff in Hm, Hsp.
  split; [|split].
  - unfold sscanf_u_c. rewrite remove_leading_spaces_spaces.
    destruct ds as [|d ds']; [discriminate|].
    pose proof Hds as Hds'. cbn [forallb] in Hds'.
    apply andb_prop in Hds' as [Hd _].
    destruct (isdigit_facts _ Hd) as (Hdsp & Hminus & Hplus).
    rewrite remove_leading_spaces_id by (cbn [app hd]; exact Hdsp).
    cbn [app]. rewrite Hminus, Hplus, Hd.
    change (d :: ds' ++ m :: rest) with ((d :: ds') ++ m :: rest).
    rewrite (scan_digits_app m rest Hm (d :: ds') 0 Hds).
    fold (decimal_value (d :: ds')).
    unfold scanf_unsigned.
    replace (ULONG_MAX <? decimal_value (d :: ds'))%Z with false
      by (symmetry; apply Z.ltb_ge; exact Hmax).
    reflexivity.
  - rewrite app_assoc.
    replace (i + length ds) with (length (spaces i ++ ds))
      by (now rewrite length_app, length_spaces).
    apply strchr_first. rewrite no_char_app.
    now rewrite no_char_spaces, no_char_digits.
  - replace (spaces i ++ ds ++ m :: rest) with ((spaces i ++ ds ++ [m]) ++ rest)
      by (now rewrite <- !app_assoc).
    replace (S (i + length ds)) with (length (spaces i ++ ds ++ [m]))
      by (rewrite !length_app, length_spaces; cbn; lia).
    apply skipn_exact.
Qed.

Lemma period_components_duration :
  forall cs fuel,
    forallb wf_component cs = true ->
    length cs <= fuel ->
    period_components fuel (duration_text cs) =
    map (fun c : duration_component =>
           let '(_, ds, m) := c in (uint (decimal_value ds), m)) cs.
Proof.
  induction cs as [|[[i ds] m] cs IH]; intros fuel Hwf Hfuel.
  - destruct fuel; reflexivity.
  - destruct fuel as [|fuel]; [cbn in Hfuel; lia|].
    cbn [forallb] in Hwf. apply andb_prop in Hwf as [Hc Hwf].
    unfold duration_text. cbn [flat_map component_text].
    fold (duration_text cs). rewrite <- !app_assoc. cbn [app].
    destruct (sscanf_component i ds m (duration_text cs) Hc) as (Hscan & Hchr & Hskip).
    remember (spaces i ++ ds ++ m :: duration_text cs) as str eqn:E.
    destruct str as [|c r].
    { symmetry in E. apply app_eq_nil in E as [_ E].
      apply app_eq_nil in E as [_ E]. discriminate. }
    cbn [period_components]. rewrite Hscan, Hchr, Hskip.
    cbn [map]. f_equal. apply IH; [assumption | cbn in Hfuel; lia].
Qed.

Lemma period_seconds_unit (u : period_units) (p : Z) (m : ascii) :
  period_seconds u p m = (p * unit_seconds u m)%Z.
Proof.
  unfold unit_seconds, period_seconds.
  repeat match goal with
         | |- context [if ?b then _ else _] => destruct b; [lia|]
         end.
  lia.
Qed.

Lemma components_seconds_duration (u : period_units)
    (cs : list duration_component) :
  uint (components_seconds u
          (map (fun c : duration_component =>
                  let '(_, ds, m) := c in (uint (decimal_value ds), m)) cs)) =
  uint (duration_seconds u cs).
Proof.
  induction cs as [|[[i ds] m] cs IH]; [reflexivity|].
  cbn [map components_seconds duration_seconds fold_right fst snd].
  fold (components_seconds u
          (map (fun c : duration_component =>
                  let '(_, ds, m) := c in (uint (decimal_value ds), m)) cs)).
  fold (duration_seconds u cs).
  rewrite period_seconds_unit.
  unfold uint in *.
  rewrite Z.add_mod, IH by (unfold UINT_MODULUS; lia).
  rewrite Z.mul_mod_idemp_l by (unfold UINT_MODULUS; lia).
  rewrite <- Z.add_mod by (unfold UINT_MODULUS; lia).
  reflexivity.
Qed.

Lemma length_duration_text (cs : list duration_component) :
  length cs <= length (duration_text cs).
Proof.
  induction cs as [|[[i ds] m] cs IH]; [cbn; lia|].
  unfold duration_text in *. cbn [flat_map component_text].
  rewrite !length_app. cbn [length]. lia.
Qed.

(** X12. [parse_time_period] on a duration: for components
    [<number><unit>] written one after the other, each with optional
    spaces before it and a number that fits [unsigned long], the result is
    the sum of the numbers times the seconds of their units, reduced modulo
    [2^32], and the default value when that is 0. A unit is any character
    but a digit or a space: one of [s m h d w M y] counts its seconds, any
    other counts nothing. *)
Theorem parse_time_period_duration (u : period_units)
    (cs : list duration_component) (default_value : Z) :
  forallb wf_component cs = true ->
  parse_time_period u (Some (duration_text cs)) default_value =
  if (uint (duration_seconds u cs) =? 0)%Z then default_value
  else uint (duration_seconds u cs).
Proof.
  intros Hwf. cbn [parse_time_period].
  change 0%Z with (uint 0) at 1 3.
  rewrite parse_time_period_loop_sum, Z.add_0_l.
  rewrite period_components_duration by (auto using length_duration_text).
  now rewrite components_seconds_duration.
Qed.

Lemma parse_time_period_duration_witness :
  parse_time_period seconds_units (Some (duration_text sample_duration)) 7 =
  if (uint (duration_seconds seconds_units sample_duration) =? 0)%Z then 7%Z
  else uint (duration_seconds seconds_units sample_duration).
Proof.
  apply (parse_time_period_duration seconds_units sample_duration 7).
  reflexivity.
Defined.

(** ** [parse_long], [parse_int] and [parse_bool] on decimal literals *)

Lemma strtol_digit_decimal (c : ascii) :
  isdigit c = true ->
  strtol_digit c = Some (digit_value c) /\ (0 <= digit_value c < 10)%Z.
Proof.
  destruct c as [[] [] [] [] [] [] [] []]; intros H; vm_compute in H;
    try discriminate H; vm_compute; repeat split; discriminate.
Qed.

Lemma strtol_digits_decimal :
  forall ds acc,
    forallb isdigit ds = true ->
    strtol_digits 10 ds acc =
    (fold_left (fun a c => (10 * a + digit_value c)%Z) ds acc, []).
Proof.
  induction ds as [|d ds IH]; intros acc H; [reflexivity|].
  cbn [forallb] in H. apply andb_prop in H as [Hd H].
  destruct (strtol_digit_decimal _ Hd) as (Hv & Hr).
  cbn [strtol_digits fold_left]. rewrite Hv.
  replace (digit_value d <? 10)%Z with true by (symmetry; apply Z.ltb_lt; lia).
  now apply IH.
Qed.

(** [strtol] on a decimal literal: everything is consumed, and the value is
    the one denoted unless it is out of range. *)
Lemma strtol_literal (i : nat) (negative : bool) (ds : list ascii) :
  is_decimal ds = true ->
  strtol (literal_text i negative ds) =
  let v := literal_value negative ds in
  let endptr := length (literal_text i negative ds) in
  if (v <? LONG_MIN)%Z then (LONG_MIN, endptr, true)
  else if (LONG_MAX <? v)%Z then (LONG_MAX, endptr, true)
  else (v, endptr, false).
Proof.
  unfold is_decimal. intros H. apply andb_prop in H as [Hds Hlead].
  destruct ds as [|d ds']; [discriminate|].
  pose proof Hds as Hds'. cbn [forallb] in Hds'.
  apply andb_prop in Hds' as [Hd _].
  destruct (isdigit_facts _ Hd) as (Hdsp & Hminus & Hplus).
  unfold strtol, literal_text. rewrite remove_leading_spaces_spaces.
  assert (strtol_sign
            (remove_leading_spaces ((if negative then ["-"] else []) ++ d :: ds'))
          = (negative, d :: ds')) as Hsign.
  { destruct negative; cbn [app].
    - reflexivity.
    - rewrite remove_leading_spaces_id by exact Hdsp.
      cbn [strtol_sign]. now rewrite Hminus, Hplus. }
  rewrite Hsign.
  assert (exists base,
             strtol_base (d :: ds') = (base, d :: ds', false) /\
             strtol_digits base (d :: ds') 0 = (decimal_value (d :: ds'), []))
    as (base & Hbase & Hdigits).
  { destruct (Ascii.eqb d "0") eqn:Hz.
    - destruct ds' as [|e ds'']; [|discriminate Hlead].
      apply Ascii.eqb_eq in Hz. subst d. exists 8%Z. split; reflexivity.
    - exists 10%Z. split.
      + cbn [strtol_base]. now rewrite Hz.
      + now apply strtol_digits_decimal. }
  rewrite Hbase, Hdigits. cbn [length Nat.eqb].
  rewrite Nat.sub_0_r. unfold literal_value.
  reflexivity.
Qed.

Lemma length_literal_text (i : nat) (negative : bool) (ds : list ascii) :
  is_decimal ds = true -> 0 < length (literal_text i negative ds).
Proof.
  unfold is_decimal, literal_text. intros H. apply andb_prop in H as [_ H].
  destruct ds; [discriminate|]. rewrite !length_app. cbn [length]. lia.
Qed.

Lemma parse_long_literal (i : nat) (negative : bool) (ds : list ascii)
    (default_value : Z) :
  is_decimal ds = true ->
  parse_long (literal_text i negative ds) default_value =
  if ((LONG_MIN <=? literal_value negative ds) &&
      (literal_value negative ds <=? LONG_MAX))%Z
  then literal_value negative ds else default_value.
Proof.
  intros H. unfold parse_long. rewrite (strtol_literal i negative ds H).
  pose proof (length_literal_text i negative ds H) as Hlen.
  cbv zeta.
  destruct (literal_value negative ds <? LONG_MIN)%Z eqn:Hlo.
  { apply Z.ltb_lt in Hlo.
    replace (LONG_MIN <=? literal_value negative ds)%Z with false
      by (symmetry; apply Z.leb_gt; lia).
    reflexivity. }
  apply Z.ltb_ge in Hlo.
  replace (LONG_MIN <=? literal_value negative ds)%Z with true
    by (symmetry; apply Z.leb_le; lia).
  destruct (LONG_MAX <? literal_value negative ds)%Z eqn:Hhi.
  { apply Z.ltb_lt in Hhi.
    replace (literal_value negative ds <=? LONG_MAX)%Z with false
      by (symmetry; apply Z.leb_gt; lia).
    reflexivity. }
  apply Z.ltb_ge in Hhi.
  replace (literal_value negative ds <=? LONG_MAX)%Z with true
    by (symmetry; apply Z.leb_le; lia).
  rewrite Nat.eqb_refl. cbn [negb orb andb].
  replace (length (literal_text i negative ds) =? 0)%nat with false
    by (symmetry; apply Nat.eqb_neq; lia).
  reflexivity.
Qed.

(** X13. [parse_long] reads back decimal literals: for white space, an
    optional minus sign and digits without a leading zero, the result is
    the number denoted when it is between [LONG_MIN] and [LONG_MAX], and
    the default value when it is not (ERANGE). *)
Theorem parse_long_reads_decimal (i : nat) (negative : bool)
    (ds : list ascii) (default_value : Z) :
  is_decimal ds = true ->
  ((LONG_MIN <= literal_value negative ds <= LONG_MAX)%Z ->
   parse_long (literal_text i negative ds) default_value =
     literal_value negative ds) /\
  ((literal_value negative ds < LONG_MIN \/
    LONG_MAX < literal_value negative ds)%Z ->
   parse_long (literal_text i negative ds) default_value = default_value).
Proof.
  intros H. rewrite (parse_long_literal i negative ds default_value H). split.
  - intros [Hlo Hhi]. apply Z.leb_le in Hlo, Hhi. now rewrite Hlo, Hhi.
  - intros [Hlo|Hhi].
    + apply Z.leb_gt in Hlo. now rewrite Hlo.
    + apply Z.leb_gt in Hhi. rewrite Hhi. now rewrite andb_false_r.
Qed.

Lemma parse_long_reads_decimal_witness :
  ((LONG_MIN <= literal_value true (bytes "9223372036854775808") <= LONG_MAX)%Z ->
   parse_long (literal_text 1 true (bytes "9223372036854775808")) 7 =
     literal_value true (bytes "9223372036854775808")) /\
  ((literal_value true (bytes "9223372036854775808") < LONG_MIN \/
    LONG_MAX < literal_value true (bytes "9223372036854775808"))%Z ->
   parse_long (literal_text 1 true (bytes "9223372036854775808")) 7 = 7%Z).
Proof.
  apply (parse_long_reads_decimal 1 true (bytes "9223372036854775808") 7).
  reflexivity.
Defined.

Lemma int_of_long_in_range (z : Z) :
  (INT_MIN <= z <= INT_MAX)%Z -> int_of_long z = z.
Proof.
  unfold INT_MIN, INT_MAX, int_of_long. intros H.
  rewrite Z.mod_small by lia. lia.
Qed.

Lemma int_of_long_range (z : Z) : (INT_MIN <= int_of_long z <= INT_MAX)%Z.
Proof.
  unfold INT_MIN, INT_MAX, int_of_long.
  pose proof (Z.mod_pos_bound (z + 2 ^ 31) (2 ^ 32) ltac:(lia)). lia.
Qed.

Lemma parse_int_literal (i : nat) (negative : bool) (ds : list ascii)
    (default_value : Z) :
  is_decimal ds = true ->
  (INT_MIN <= default_value <= INT_MAX)%Z ->
  parse_int (literal_text i negative ds) default_value =
  if ((INT_MIN <=? literal_value negative ds) &&
      (literal_value negative ds <=? INT_MAX))%Z
  then literal_value negative ds else default_value.
Proof.
  intros H Hd. unfold parse_int.
  rewrite (parse_long_literal i negative ds default_value H).
  set (v := literal_value negative ds).
  destruct ((INT_MIN <=? v)%Z && (v <=? INT_MAX)%Z) eqn:Hint.
  - apply andb_prop in Hint as [Hlo Hhi]. apply Z.leb_le in Hlo, Hhi.
    replace ((LONG_MIN <=? v)%Z && (v <=? LONG_MAX)%Z) with true.
    2: { symmetry. apply andb_true_intro.
         unfold LONG_MIN, LONG_MAX, INT_MIN, INT_MAX in *.
         split; apply Z.leb_le; lia. }
    rewrite int_of_long_in_range by lia. now rewrite Z.eqb_refl.
  - destruct ((LONG_MIN <=? v)%Z && (v <=? LONG_MAX)%Z).
    + destruct (int_of_long v =? v)%Z eqn:E; [|reflexivity].
      apply Z.eqb_eq in E. pose proof (int_of_long_range v) as Hr.
      rewrite E in Hr. destruct Hr as [Hlo Hhi].
      apply Z.leb_le in Hlo, Hhi. rewrite Hlo, Hhi in Hint. discriminate.
    + rewrite int_of_long_in_range by assumption. now rewrite Z.eqb_refl.
Qed.

(** X14. [parse_int] on a decimal literal (white space, an optional minus
    sign, digits without a leading zero), for a default value that is an
    [int]: the number denoted when it is between [INT_MIN] and [INT_MAX],
    the default value when it is not, also when it fits a [long]. *)
Theorem parse_int_reads_decimal (i : nat) (negative : bool)
    (ds : list ascii) (default_value : Z) :
  is_decimal ds = true ->
  (INT_MIN <= default_value <= INT_MAX)%Z ->
  ((INT_MIN <= literal_value negative ds <= INT_MAX)%Z ->
   parse_int (literal_text i negative ds) default_value =
     literal_value negative ds) /\
  ((literal_value negative ds < INT_MIN \/
    INT_MAX < literal_value negative ds)%Z ->
   parse_int (literal_text i negative ds) default_value = default_value).
Proof.
  intros H Hd. rewrite (parse_int_literal i negative ds default_value H Hd).
  split.
  - intros [Hlo Hhi]. apply Z.leb_le in Hlo, Hhi. now rewrite Hlo, Hhi.
  - intros [Hlo|Hhi].
    + apply Z.leb_gt in Hlo. now rewrite Hlo.
    + apply Z.leb_gt in Hhi. rewrite Hhi. now rewrite andb_false_r.
Qed.

Lemma parse_int_reads_decimal_witness :
  (INT_MIN <= 80 <= INT_MAX)%Z /\
  ((INT_MIN <= literal_value false (bytes "2147483648") <= INT_MAX)%Z ->
   parse_int (literal_text 0 false (bytes "2147483648")) 80 =
     literal_value false (bytes "2147483648")) /\
  ((literal_value false (bytes "2147483648") < INT_MIN \/
    INT_MAX < literal_value false (bytes "2147483648"))%Z ->
   parse_int (literal_text 0 false (bytes "2147483648")) 80 = 80%Z).
Proof.
  assert (INT_MIN <= 80 <= INT_MAX)%Z as Hd by (vm_compute; split; discriminate).
  split; [exact Hd|].
  apply (parse_int_reads_decimal 0 false (bytes "2147483648") 80).
  - reflexivity.
  - exact Hd.
Defined.

Lemma streq_false_hd (c d : ascii) (r w : list ascii) :
  Ascii.eqb c d = false -> streq (c :: r) (d :: w) = false.
Proof.
  intros H. unfold streq. destruct (list_eq_dec ascii_dec _ _) as [E|];
    [|reflexivity].
  injection E as -> _. now rewrite Ascii.eqb_refl in H.
Qed.

(** A string that starts like a number, or that holds no number, is none
    of the words of [parse_bool] unless it is listed. *)
Lemma literal_is_no_word (i : nat) (negative : bool) (ds : list ascii) :
  is_decimal ds = true ->
  forallb (fun w => negb (streq (literal_text i negative ds) w)) bool_words = true.
Proof.
  unfold is_decimal. intros H. apply andb_prop in H as [Hds Hlead].
  destruct ds as [|d ds']; [discriminate|].
  cbn [forallb] in Hds. apply andb_prop in Hds as [Hd _].
  assert (exists c r, literal_text i negative (d :: ds') = c :: r /\
                      (isspace c = true \/ c = "-" \/ isdigit c = true))
    as (c & r & -> & Hc).
  { unfold literal_text. destruct i as [|i].
    - destruct negative; cbn; eauto 6.
    - cbn. eexists _, _. split; [reflexivity|]. now left. }
  assert (forall x, In x (bytes "tofyn") -> Ascii.eqb c x = false) as Hno.
  { intros x Hx. destruct (Ascii.eqb c x) eqn:E; [|reflexivity].
    apply Ascii.eqb_eq in E. subst x.
    cbn in Hx.
    destruct Hc as [Hc|[Hc|Hc]];
      repeat (destruct Hx as [<-|Hx]; [try discriminate Hc|]);
      try contradiction. }
  unfold bool_words. cbn [forallb bytes list_ascii_of_string].
  rewrite !streq_false_hd; [reflexivity|..]; apply Hno; cbn; auto 10.
Qed.

(** X15. [parse_bool] on a decimal literal: [false] for a literal that
    denotes 0, [true] for every other one that fits an [int] (not for 1
    only), and the default value for one that does not fit. *)
Theorem parse_bool_reads_numbers (i : nat) (negative : bool)
    (ds : list ascii) (default_value : bool) :
  is_decimal ds = true ->
  ((INT_MIN <= literal_value negative ds <= INT_MAX)%Z ->
   parse_bool (Some (literal_text i negative ds)) default_value =
     negb (literal_value negative ds =? 0)%Z) /\
  ((literal_value negative ds < INT_MIN \/
    INT_MAX < literal_value negative ds)%Z ->
   parse_bool (Some (literal_text i negative ds)) default_value = default_value).
Proof.
  intros H. pose proof (literal_is_no_word i negative ds H) as Hw.
  unfold bool_words in Hw. cbn [forallb] in Hw.
  repeat (apply andb_prop in Hw as [?%negb_true_iff Hw]).
  assert (INT_MIN <= (if default_value then 1 else 0) <= INT_MAX)%Z as Hd
    by (destruct default_value; vm_compute; split; discriminate).
  cbn [parse_bool].
  repeat match goal with E : streq _ _ = false |- _ => rewrite E; clear E end.
  cbn [orb].
  rewrite (parse_int_literal i negative ds _ H Hd). split.
  - intros [Hlo Hhi]. apply Z.leb_le in Hlo, Hhi. now rewrite Hlo, Hhi.
  - intros Hout.
    replace ((INT_MIN <=? literal_value negative ds)%Z &&
             (literal_value negative ds <=? INT_MAX)%Z) with false.
    + now destruct default_value.
    + symmetry. destruct Hout as [Hlo|Hhi].
      * apply Z.leb_gt in Hlo. now rewrite Hlo.
      * apply Z.leb_gt in Hhi. rewrite Hhi. now rewrite andb_false_r.
Qed.

Lemma parse_bool_reads_numbers_witness :
  ((INT_MIN <= literal_value true (bytes "2") <= INT_MAX)%Z ->
   parse_bool (Some (literal_text 0 true (bytes "2"))) false =
     negb (literal_value true (bytes "2") =? 0)%Z) /\
  ((literal_value true (bytes "2") < INT_MIN \/
    INT_MAX < literal_value true (bytes "2"))%Z ->
   parse_bool (Some (literal_text 0 true (bytes "2"))) false = false).
Proof.
  apply (parse_bool_reads_numbers 0 true (bytes "2") false).
  reflexivity.
Defined.

(** ** What is not a number *)

Lemma strtol_not_numeric (value : list ascii) :
  not_numeric value = true -> strtol value = (0%Z, O, false).
Proof.
  destruct value as [|c r]; [reflexivity|]. cbn [not_numeric]. intros H.
  apply andb_prop in H as [H Hplus]. apply andb_prop in H as [H Hminus].
  apply andb_prop in H as [Hsp Hdig].
  apply negb_true_iff in Hsp, Hdig, Hminus, Hplus.
  unfold strtol. cbn [remove_leading_spaces]. rewrite Hsp.
  cbn [strtol_sign]. rewrite Hminus, Hplus.
  assert (Ascii.eqb c "0" = false) as Hz.
  { destruct (Ascii.eqb c "0") eqn:E; [|reflexivity].
    apply Ascii.eqb_eq in E. subst c. discriminate Hdig. }
  cbn [strtol_base]. rewrite Hz.
  assert (strtol_digits 10 (c :: r) 0 = (0%Z, c :: r)) as Hnone.
  { cbn [strtol_digits].
    destruct (strtol_digit c) as [d|] eqn:Ed; [|reflexivity].
    replace (d <? 10)%Z with false; [reflexivity|].
    symmetry. apply Z.ltb_ge.
    revert Ed Hdig. clear.
    destruct c as [[] [] [] [] [] [] [] []]; vm_compute;
      intros Ed Hdig; try discriminate Hdig; try discriminate Ed;
      injection Ed as <-; discriminate. }
  rewrite Hnone. now rewrite Nat.eqb_refl.
Qed.

(** X16. A value of which [strtol] converts nothing (the empty string, or
    one that starts with a character that is neither white space, nor a
    sign, nor a digit) gives the default value of the caller in
    [parse_long] and in [parse_int]; so does it in [parse_bool], unless it
    is one of [true], [on], [yes], [false], [off], [no], written exactly
    so: [True], [YES] or [enabled] give the default value. *)
Theorem words_give_the_default (value : list ascii)
    (default_long default_int : Z) (default_bool : bool) :
  not_numeric value = true ->
  (INT_MIN <= default_int <= INT_MAX)%Z ->
  ~ In value bool_words ->
  parse_long value default_long = default_long /\
  parse_int value default_int = default_int /\
  parse_bool (Some value) default_bool = default_bool.
Proof.
  intros Hn Hd Hw.
  assert (forall d, parse_long value d = d) as Hlong.
  { intros d. unfold parse_long. rewrite (strtol_not_numeric _ Hn).
    cbn [Nat.eqb]. now rewrite orb_true_r. }
  assert (forall d, (INT_MIN <= d <= INT_MAX)%Z -> parse_int value d = d) as Hint.
  { intros d Hr. unfold parse_int. rewrite Hlong.
    rewrite int_of_long_in_range by assumption. now rewrite Z.eqb_refl. }
  split; [apply Hlong|]. split; [now apply Hint|].
  cbn [parse_bool].
  assert (forall w, In w bool_words -> streq value w = false) as Hneq.
  { intros w Hin. unfold streq.
    destruct (list_eq_dec ascii_dec value w) as [E|]; [|reflexivity].
    subst w. contradiction. }
  rewrite !Hneq by (cbn; auto 10). cbn [orb].
  rewrite Hint by (destruct default_bool; vm_compute; split; discriminate).
  now destruct default_bool.
Qed.

Lemma words_give_the_default_witness :
  parse_long (bytes "True") 5 = 5%Z /\
  parse_int (bytes "True") 6 = 6%Z /\
  parse_bool (Some (bytes "True")) false = false.
Proof.
  apply (words_give_the_default (bytes "True") 5 6 false).
  - reflexivity.
  - vm_compute. split; discriminate.
  - vm_compute. intuition discriminate.
Defined.

(** ** A leading zero *)

Lemma strtol_digits_suffix (base : Z) :
  forall s acc, length (snd (strtol_digits base s acc)) <= length s.
Proof.
  induction s as [|c r IH]; intros acc; [cbn; lia|].
  cbn [strtol_digits]. destruct (strtol_digit c) as [d|]; [|cbn; lia].
  destruct (d <? base)%Z; [|cbn; lia].
  specialize (IH (base * acc + d)%Z). cbn [length]. lia.
Qed.

Lemma strtol_digits_octal :
  forall ds acc,
    forallb isdigit ds = true ->
    if forallb is_octal ds then
      strtol_digits 8 ds acc =
      (fold_left (fun a c => (8 * a + digit_value c)%Z) ds acc, [])
    else snd (strtol_digits 8 ds acc) <> [].
Proof.
  induction ds as [|d ds IH]; intros acc H; [reflexivity|].
  cbn [forallb] in H. apply andb_prop in H as [Hd H].
  destruct (strtol_digit_decimal _ Hd) as (Hv & Hr).
  cbn [forallb strtol_digits fold_left]. rewrite Hv.
  unfold is_octal at 1. rewrite Hd. cbn [andb].
  destruct (digit_value d <? 8)%Z.
  - cbn [andb]. now apply IH.
  - cbn [andb snd]. discriminate.
Qed.

(** X17. A leading zero makes [parse_long] read the digits in base 8:
    [0] followed by octal digits gives the number they denote in base 8
    (the default value if it exceeds [LONG_MAX]), and [0] followed by
    digits among which there is an [8] or a [9] gives the default value. *)
Theorem leading_zero_is_octal (ds : list ascii) (default_value : Z) :
  ds <> [] ->
  forallb isdigit ds = true ->
  parse_long ("0" :: ds) default_value =
  if forallb is_octal ds && (octal_value ds <=? LONG_MAX)%Z
  then octal_value ds else default_value.
Proof.
  intros Hne Hds. destruct ds as [|d ds']; [congruence|].
  pose proof Hds as Hds'. cbn [forallb] in Hds'.
  apply andb_prop in Hds' as [Hd _].
  unfold parse_long, strtol.
  cbn [remove_leading_spaces isspace]. change (isspace "0") with false.
  cbn match. cbn [strtol_sign]. change (Ascii.eqb "0" "-") with false.
  change (Ascii.eqb "0" "+") with false. cbn match.
  assert (strtol_base ("0" :: d :: ds') = (8%Z, "0" :: d :: ds', false)) as Hb.
  { cbn [strtol_base]. change (Ascii.eqb "0" "0") with true. cbn match.
    replace (Ascii.eqb d "x" || Ascii.eqb d "X") with false; [reflexivity|].
    revert Hd. clear.
    destruct d as [[] [] [] [] [] [] [] []]; vm_compute; intros Hd;
      try discriminate Hd; reflexivity. }
  rewrite Hb.
  assert (strtol_digits 8 ("0" :: d :: ds') 0 = strtol_digits 8 (d :: ds') 0)
    as Hzero by reflexivity.
  rewrite Hzero.
  pose proof (strtol_digits_octal (d :: ds') 0 Hds) as Hoct.
  pose proof (strtol_digits_suffix 8 (d :: ds') 0) as Hsuf.
  destruct (strtol_digits 8 (d :: ds') 0) as [n s4] eqn:Hscan.
  cbn [snd] in Hsuf.
  replace (length s4 =? length ("0" :: d :: ds'))%nat with false
    by (symmetry; apply Nat.eqb_neq; cbn [length] in *; lia).
  destruct (forallb is_octal (d :: ds')).
  - assert (n = octal_value (d :: ds') /\ s4 = []) as [-> ->]
      by (unfold octal_value; split; congruence).
    assert (0 <= octal_value (d :: ds'))%Z as Hpos.
    { unfold octal_value.
      assert (forall l acc, forallb isdigit l = true -> (0 <= acc)%Z ->
                (0 <= fold_left (fun a c => 8 * a + digit_value c) l acc)%Z) as Hf.
      { induction l as [|x l IHl]; intros acc Hl Hacc; [exact Hacc|].
        cbn [forallb] in Hl. apply andb_prop in Hl as [Hx Hl].
        destruct (strtol_digit_decimal _ Hx) as (_ & Hr).
        cbn [fold_left]. apply IHl; [assumption | lia]. }
      apply Hf; [assumption | lia]. }
    replace (octal_value (d :: ds') <? LONG_MIN)%Z with false
      by (symmetry; apply Z.ltb_ge; unfold LONG_MIN; lia).
    cbn [andb length Nat.sub].
    destruct (LONG_MAX <? octal_value (d :: ds'))%Z eqn:Hhi.
    + apply Z.ltb_lt in Hhi.
      replace (octal_value (d :: ds') <=? LONG_MAX)%Z with false
        by (symmetry; apply Z.leb_gt; lia).
      reflexivity.
    + apply Z.ltb_ge in Hhi.
      replace (octal_value (d :: ds') <=? LONG_MAX)%Z with true
        by (symmetry; apply Z.leb_le; lia).
      rewrite Nat.eqb_refl. reflexivity.
  - cbn [andb snd] in *.
    assert (0 < length s4) as Hpos by (destruct s4; [congruence | cbn; lia]).
    assert ((length ("0" :: d :: ds') - length s4 =? length ("0" :: d :: ds'))%nat
            = false) as Hend
      by (apply Nat.eqb_neq; cbn [length] in *; lia).
    destruct (n <? LONG_MIN)%Z; [reflexivity|].
    destruct (LONG_MAX <? n)%Z; [reflexivity|].
    now rewrite Hend.
Qed.

Lemma leading_zero_is_octal_witness :
  parse_long ("0" :: bytes "8080") 80 =
  if forallb is_octal (bytes "8080") && (octal_value (bytes "8080") <=? LONG_MAX)%Z
  then octal_value (bytes "8080") else 80%Z.
Proof.
  apply (leading_zero_is_octal (bytes "8080") 80).
  - discriminate.
  - reflexivity.
Defined.

(** ** Isolation of a section of well-formed input *)

(** The body that sequential reading delivers from a well-formed source:
    the records of the lines up to the closing line that brings the depth
    back to where the section was opened. *)
Lemma section_body_source (sizeof_buffer : nat) (i : nat)
    (rest : list source_line) :
  forall pre d conf l g,
    forallb (wf_line sizeof_buffer) (pre ++ SrcClose i :: rest) = true ->
    open_after d pre = Some 0 ->
    reader_at conf (render (pre ++ SrcClose i :: rest)) ->
    length pre < g ->
    exists cE,
      section_body g sizeof_buffer conf l d = Some (records pre, cE) /\
      reader_at cE (render rest).
Proof.
  induction pre as [|s pre IH]; intros d conf l g Hwf Hopen Hat Hg.
  - cbn [open_after] in Hopen. injection Hopen as ->.
    cbn [app forallb] in *. apply andb_prop in Hwf as [Hs Hwf].
    rewrite render_cons in Hat.
    destruct (read_source_record _ (SrcClose i) _ conf _ l Hs eq_refl Hat)
      as (c1 & Hr & Hm).
    destruct g as [|g]; [lia|]. cbn [section_body]. rewrite Hr.
    cbn [line_type records]. exists c1. split; [reflexivity|].
    exact (reader_at_moved _ _ _ _ Hat Hm).
  - cbn [app forallb] in Hwf. apply andb_prop in Hwf as [Hs Hwf].
    cbn [app] in Hat. rewrite render_cons in Hat.
    destruct g as [|g]; [lia|]. cbn [length] in Hg.
    destruct (record_of s) as [rec|] eqn:Hrec.
    2: { destruct (read_source_silent _ s conf _ l Hs Hrec Hat) as (c1 & Hr & Hm).
         pose proof (reader_at_moved _ _ _ _ Hat Hm) as Hnext.
         assert (open_after d pre = Some 0) as Hopen'
           by (destruct s; try discriminate Hrec; exact Hopen).
         destruct (IH d c1 l (S g) Hwf Hopen' Hnext ltac:(lia)) as (cE & Hb & HE).
         exists cE. split; [|exact HE].
         cbn [records]. rewrite Hrec.
         cbn [section_body] in *. now rewrite Hr. }
    destruct (read_source_record _ s rec conf _ l Hs Hrec Hat) as (c1 & Hr & Hm).
    pose proof (reader_at_moved _ _ _ _ Hat Hm) as Hnext.
    cbn [section_body records]. rewrite Hr, Hrec.
    destruct s as [j k v|j k body|j nm p|j|j t|j]; cbn [record_of] in Hrec;
      try discriminate Hrec; injection Hrec as <-;
      cbn [line_type open_after] in *.
    + destruct (IH d c1 (ConfigLine (replace_space_with_underscore k) v) g
                  Hwf Hopen Hnext ltac:(lia)) as (cE & -> & HE).
      now exists cE.
    + destruct (IH d c1
                  (ConfigLine (replace_space_with_underscore k) (trimmed_value body))
                  g Hwf Hopen Hnext ltac:(lia)) as (cE & -> & HE).
      now exists cE.
    + destruct (IH (S d) c1 (ConfigSection nm p) g Hwf Hopen Hnext ltac:(lia))
        as (cE & -> & HE).
      now exists cE.
    + destruct d as [|d]; [discriminate|].
      destruct (IH d c1 ConfigSectionEnd g Hwf Hopen Hnext ltac:(lia))
        as (cE & -> & HE).
      now exists cE.
Qed.

(** X18. [config_isolate_section] on a section of well-formed input (the
    reader just past its opening line, the body with its inner sections
    complete and nested at most ten deep, the path still holding the bytes
    that the reader has open) succeeds; the original reader has its cursor
    back; and reading the isolated reader to its end delivers exactly the
    records of the body, in order, without error. *)
Theorem isolation_of_well_formed_section
    (fs : string -> option (list ascii)) (sizeof_buffer : nat)
    (conf : config) (l l0 : config_line) (body rest : list source_line)
    (i : nat) (f : FILE) :
  forallb (wf_line sizeof_buffer) (body ++ SrcClose i :: rest) = true ->
  balanced body = true ->
  nesting_within 10 0 body = true ->
  reader_at conf (render (body ++ SrcClose i :: rest)) ->
  is_section l = true ->
  file conf = Some f ->
  fs (path conf) = Some (content f) ->
  exists conf' l' iso final,
    config_isolate_section fs sizeof_buffer conf l = Some (true, conf', l', iso) /\
    file conf' = Some f /\
    config_read_all sizeof_buffer iso l0 = Some (records body, final) /\
    error_message final = None.
Proof.
  intros Hwf Hbal Hnest Hat Hl Hf Hfs.
  destruct (skip_fuel_source _ _ Hat) as (fuel & Hfuel & Hle).
  pose proof (find_section_end_loop_source sizeof_buffer _ _ (le_n _) 0 conf l
                fuel Hwf Hat ltac:(lia) Hle) as H.
  pose proof (skip_source_prefix 0 (SrcClose i :: rest) body 0 0
                (balanced_from_open_after _ _ Hbal) Hnest) as Hs.
  cbn [Nat.add] in Hs. rewrite Hs in H. cbn [skip_source Nat.eqb] in H.
  destruct H as (c1 & Hscan & Hat1).
  assert (find_section_end (skip_fuel conf) sizeof_buffer conf l 0 =
          Some (true, c1, ConfigSectionEnd)) as Hfind.
  { rewrite Hfuel. cbn [find_section_end Z.ltb Z.compare]. exact Hscan. }
  pose proof (proj1 (find_section_end_read_on sizeof_buffer _)
                _ _ _ _ _ _ _ Hf Hfind) as (Hadv & Hp & _).
  destruct Hadv as (g & f1 & Hg & Hf1 & Hc & _).
  rewrite Hf in Hg. injection Hg as <-.
  pose proof Hat as (He & _). pose proof Hat1 as (He1 & _).
  assert (exists conf' iso,
             config_isolate_section fs sizeof_buffer conf l =
             Some (true, conf', ConfigSectionEnd, iso)) as (conf' & iso & Hiso).
  { unfold config_isolate_section. rewrite He, Hl, Hf, Hfind. cbn [negb].
    replace (ftell f <? 0)%Z with false
      by (symmetry; apply Z.ltb_ge; unfold ftell; lia).
    cbn [set_line file path]. rewrite Hf1.
    replace (ftell f1 <? 0)%Z with false
      by (symmetry; apply Z.ltb_ge; unfold ftell; lia).
    unfold config_open. rewrite Hp, Hfs. cbn [file]. rewrite fseek_ftell.
    unfold isolate_resetpos. cbn [file set_line]. rewrite Hf1, fseek_ftell.
    unfold has_error. cbn [set_file set_line error_message negb orb].
    rewrite He1. cbn [negb]. eexists _, _. reflexivity. }
  destruct (isolation_facts fs sizeof_buffer conf conf' iso l ConfigSectionEnd f
              Hf Hfs Hiso)
    as (body' & after_close & Hbody' & _ & Hfi & Hei & Hend & Hf' & _).
  destruct (section_body_source sizeof_buffer i rest body 0 conf l
              (S (bytes_left conf)) Hwf (balanced_from_open_after _ _ Hbal) Hat)
    as (cE & Hbody & _).
  { rewrite (reader_at_bytes_left _ _ Hat).
    pose proof (length_render (body ++ SrcClose i :: rest)) as Hlen.
    rewrite length_app in Hlen. cbn [length] in Hlen. lia. }
  rewrite Hbody in Hbody'. injection Hbody' as <- <-.
  destruct (isolated_reads_body sizeof_buffer _ _ _ _ _ _ Hbody iso l0
              (S (bytes_left iso))) as (iE & Hread & (_ & _ & HeE & _));
    [congruence | exact Hei | exact Hend | lia |].
  exists conf', ConfigSectionEnd, iso, iE.
  split; [exact Hiso|]. split; [exact Hf'|]. split; [exact Hread|].
  congruence.
Qed.

Lemma isolation_of_well_formed_section_witness :
  exists conf' l' iso final,
    config_isolate_section listener_fs 1024
      (positioned "lwan.conf" listener_header
         (render (unclosed_body ++ SrcClose 0 :: sample_source)) 1)
      (ConfigSection (bytes "listener") (bytes "*:8080")) =
      Some (true, conf', l', iso) /\
    file conf' = Some (mkFILE listener_file (length listener_header)) /\
    config_read_all 1024 iso ConfigSectionEnd =
      Some (records unclosed_body, final) /\
    error_message final = None.
Proof.
  apply (isolation_of_well_formed_section listener_fs 1024 _ _ ConfigSectionEnd
           unclosed_body sample_source 0
           (mkFILE listener_file (length listener_header))).
  - vm_compute. reflexivity.
  - vm_compute. reflexivity.
  - vm_compute. reflexivity.
  - apply reader_at_positioned.
  - reflexivity.
  - reflexivity.
  - reflexivity.
Defined.

(** ** White space and comments at the end of a line *)

Lemma remove_trailing_spaces_blank (x ws : list ascii) :
  forallb isspace ws = true ->
  remove_trailing_spaces (x ++ ws) = remove_trailing_spaces x.
Proof.
  induction ws as [|c ws IH] using rev_ind; intros H; [now rewrite app_nil_r|].
  rewrite forallb_app in H. apply andb_prop in H as [Hws Hc].
  cbn [forallb] in Hc. apply andb_prop in Hc as [Hc _].
  rewrite app_assoc, remove_trailing_spaces_snoc_space by assumption.
  now apply IH.
Qed.

Lemma no_hash_blank (ws : list ascii) :
  forallb isspace ws = true -> no_char "#" ws = true.
Proof.
  induction ws as [|c ws IH]; [reflexivity|]. unfold no_char in *.
  cbn [forallb]. intros H. apply andb_prop in H as [Hc H].
  rewrite (IH H), andb_true_r.
  destruct (Ascii.eqb c "#") eqn:E; [|reflexivity].
  apply Ascii.eqb_eq in E. subst c. discriminate Hc.
Qed.

Lemma normalise_line_tail_eol (i : nat) (body ws eol : list ascii)
    (comment : option (list ascii)) :
  is_text body = true -> is_blank ws = true -> is_comment comment = true ->
  forallb isspace eol = true ->
  normalise ((spaces i ++ body ++ line_tail ws comment) ++ eol) = body.
Proof.
  intros H Hws Hcom Heol. apply is_text_inv in H as (Hs & Hc & Hne & Hh & Hl).
  unfold is_blank in Hws. apply andb_prop in Hws as [Hws _].
  pose proof (no_hash_blank _ Hws) as Hwh.
  pose proof (no_hash_blank _ Heol) as Heh.
  unfold normalise, line_tail. destruct comment as [t|].
  - cbn [is_comment] in Hcom. apply andb_prop in Hcom as [_ Ht].
    replace ((spaces i ++ body ++ ws ++ "#" :: t) ++ eol)
      with ((spaces i ++ body ++ ws) ++ "#" :: (t ++ eol))
      by (now rewrite <- !app_assoc).
    rewrite remove_comments_last_hash
      by (apply strrchr_none; now rewrite no_char_app, Ht).
    rewrite remove_leading_spaces_spaces.
    rewrite remove_leading_spaces_id by (now rewrite hd_app).
    rewrite remove_trailing_spaces_blank by assumption.
    now apply remove_trailing_spaces_id.
  - rewrite app_nil_r. unfold remove_comments.
    rewrite strrchr_none
      by (now rewrite !no_char_app, no_hash_spaces, Hc, Hwh).
    rewrite <- !app_assoc, remove_leading_spaces_spaces.
    rewrite remove_leading_spaces_id by (now rewrite hd_app).
    rewrite remove_trailing_spaces_blank
      by (rewrite forallb_app, Hws; assumption).
    now apply remove_trailing_spaces_id.
Qed.

Lemma normalise_line_tail (i : nat) (body ws : list ascii)
    (comment : option (list ascii)) :
  is_text body = true -> is_blank ws = true -> is_comment comment = true ->
  normalise ((spaces i ++ body ++ line_tail ws comment) ++ [LF]) = body.
Proof. intros. now apply normalise_line_tail_eol. Qed.

(** The text of a well-formed line that stands for a record by itself. *)
Lemma render_line_text (sizeof_buffer : nat) (s : source_line)
    (rec : config_line) :
  wf_line sizeof_buffer s = true ->
  continuation s = [] ->
  record_of s = Some rec ->
  exists i body,
    render_line s = spaces i ++ body /\ is_text body = true /\
    forall conf l, interpret_line conf l body = Some (true, conf, rec).
Proof.
  unfold wf_line. intros H Hc Hrec. apply andb_prop in H as [_ H].
  destruct s as [i k v|i k body|i n p|i|i t|i]; cbn [render_line record_of] in *;
    try discriminate Hrec; injection Hrec as <-.
  - split_andb.
    match goal with
    | Hk : is_text k = true, Hv : is_text v = true |- _ =>
        pose proof (is_text_assign k v Hk Hv) as Ht
    end.
    exists i, (k ++ bytes " = " ++ v). split; [reflexivity|].
    split; [assumption|].
    intros conf l. apply interpret_assign; try assumption;
      now apply negb_true_iff.
  - cbn in Hc. now destruct body.
  - split_andb.
    match goal with
    | Hn : is_word n = true, Hp : is_text p = true |- _ =>
        pose proof Hn as Hw; unfold is_word in Hn;
        apply andb_prop in Hn as [Hn _];
        pose proof (is_text_open n p Hn Hp) as Ht
    end.
    exists i, (n ++ bytes " " ++ p ++ bytes " {"). split; [reflexivity|].
    split; [assumption|]. intros conf l. now apply interpret_open.
  - exists i, (bytes "}"). split; [reflexivity|]. split; reflexivity.
Qed.

(** X19. What follows a record on its line is ignored: when a well-formed
    assignment, section opening or closing line is followed on the same
    physical line by white space (spaces, tabs, the carriage return of a
    CR-LF line ending) and possibly by a [#] and a comment without any
    other [#], [config_read_line] delivers the same record as for the bare
    line, and the reader is past the whole physical line. *)
Theorem line_tail_is_ignored (sizeof_buffer : nat) (conf : config)
    (l : config_line) (s : source_line) (rec : config_line)
    (ws : list ascii) (comment : option (list ascii)) (rest : list ascii) :
  wf_line sizeof_buffer s = true ->
  continuation s = [] ->
  record_of s = Some rec ->
  is_blank ws = true ->
  is_comment comment = true ->
  length (with_tail s ws comment) + 2 <= sizeof_buffer ->
  reader_at conf (with_tail s ws comment ++ LF :: rest) ->
  config_read_line sizeof_buffer conf l =
    Some (true, advance conf (S (length (with_tail s ws comment))) 1, rec) /\
  reader_at (advance conf (S (length (with_tail s ws comment))) 1) rest.
Proof.
  intros Hwf Hc Hrec Hws Hcom Hfit Hat.
  pose proof (wf_line_single_line _ _ Hwf) as Hs.
  destruct (render_line_text _ _ _ Hwf Hc Hrec) as (i & body & Hr & Ht & Hint).
  assert (single_line (with_tail s ws comment) = true) as Hline.
  { unfold with_tail, line_tail. rewrite !single_line_app, Hs.
    unfold is_blank in Hws. apply andb_prop in Hws as [_ ->].
    destruct comment as [t|]; [|reflexivity].
    cbn [is_comment] in Hcom. apply andb_prop in Hcom as [Hts _].
    change (single_line ("#" :: t)) with (single_line t). now rewrite Hts. }
  assert (normalise (with_tail s ws comment ++ [LF]) = body) as Hn.
  { unfold with_tail. rewrite Hr.
    replace (((spaces i ++ body) ++ line_tail ws comment) ++ [LF])
      with ((spaces i ++ body ++ line_tail ws comment) ++ [LF])
      by (now rewrite <- !app_assoc).
    now apply normalise_line_tail. }
  split; [|now apply reader_at_next].
  rewrite (config_read_line_first sizeof_buffer conf _ _ Hat Hline Hfit)
    by (rewrite Hn; now destruct (is_text_inv _ Ht) as (_ & _ & ? & _)).
  rewrite Hn. apply Hint.
Qed.

Lemma line_tail_is_ignored_witness :
  config_read_line 1024
    (opened "f"
       (with_tail (SrcOpen 0 (bytes "listener") (bytes "*:8080")) [" "; "009"]
          (Some (bytes " http" ++ ["013"])) ++ LF :: bytes "}" ++ [LF]))
    ConfigSectionEnd =
    Some (true,
          advance
            (opened "f"
               (with_tail (SrcOpen 0 (bytes "listener") (bytes "*:8080"))
                  [" "; "009"] (Some (bytes " http" ++ ["013"])) ++
                LF :: bytes "}" ++ [LF]))
            (S (length (with_tail (SrcOpen 0 (bytes "listener") (bytes "*:8080"))
                          [" "; "009"] (Some (bytes " http" ++ ["013"]))))) 1,
          ConfigSection (bytes "listener") (bytes "*:8080")) /\
  reader_at
    (advance
       (opened "f"
          (with_tail (SrcOpen 0 (bytes "listener") (bytes "*:8080"))
             [" "; "009"] (Some (bytes " http" ++ ["013"])) ++
           LF :: bytes "}" ++ [LF]))
       (S (length (with_tail (SrcOpen 0 (bytes "listener") (bytes "*:8080"))
                     [" "; "009"] (Some (bytes " http" ++ ["013"]))))) 1)
    (bytes "}" ++ [LF]).
Proof.
  apply (line_tail_is_ignored 1024 _ ConfigSectionEnd
           (SrcOpen 0 (bytes "listener") (bytes "*:8080"))
           (ConfigSection (bytes "listener") (bytes "*:8080"))
           [" "; "009"] (Some (bytes " http" ++ ["013"]))
           (bytes "}" ++ [LF])).
  - reflexivity.
  - reflexivity.
  - reflexivity.
  - reflexivity.
  - reflexivity.
  - vm_compute. lia.
  - apply (reader_at_positioned "f" []).
Defined.

(** ** The last line of a file *)

Lemma fgets_chunk_last (ln : list ascii) :
  single_line ln = true ->
  forall k, length ln <= k -> fgets_chunk k ln = ln.
Proof.
  induction ln as [|c r IH]; intros H k Hk.
  - now destruct k.
  - cbn in H. apply andb_prop in H as [Hc Hr]. apply andb_prop in Hc as [Hl _].
    apply negb_true_iff in Hl.
    destruct k; [simpl in Hk; lia|]. cbn. rewrite Hl. f_equal.
    apply IH; [assumption | simpl in Hk; lia].
Qed.

Lemma config_fgets_last (conf : config) (n : nat) (ln : list ascii) :
  reader_at conf ln ->
  single_line ln = true -> ln <> [] -> length ln < n ->
  config_fgets conf n = Some (Some ln, advance conf (length ln) 1).
Proof.
  intros (He & Hi & f & Hf & Hr) Hs Hne Hn.
  unfold config_fgets, fgets, advance. rewrite Hf, Hr.
  rewrite fgets_chunk_last by (assumption || lia).
  destruct ln; [congruence|].
  cbn [set_file set_line isolated_end file path strbuf error_message line].
  apply Z.ltb_ge in Hi. rewrite Hi. reflexivity.
Qed.

(** X20. The last line of a file needs no newline: a well-formed
    assignment, section opening or closing line (with white space or a
    comment after it, or not) that ends the file without a newline is
    delivered like any other, and the reader is then at the end of the
    file. *)
Theorem last_line_needs_no_newline (sizeof_buffer : nat) (conf : config)
    (l : config_line) (s : source_line) (rec : config_line)
    (ws : list ascii) (comment : option (list ascii)) :
  wf_line sizeof_buffer s = true ->
  continuation s = [] ->
  record_of s = Some rec ->
  is_blank ws = true ->
  is_comment comment = true ->
  length (with_tail s ws comment) + 2 <= sizeof_buffer ->
  reader_at conf (with_tail s ws comment) ->
  config_read_line sizeof_buffer conf l =
    Some (true, advance conf (length (with_tail s ws comment)) 1, rec) /\
  reader_at (advance conf (length (with_tail s ws comment)) 1) [].
Proof.
  intros Hwf Hc Hrec Hws Hcom Hfit Hat.
  pose proof (wf_line_single_line _ _ Hwf) as Hs.
  destruct (render_line_text _ _ _ Hwf Hc Hrec) as (i & body & Hr & Ht & Hint).
  pose proof (is_text_inv _ Ht) as (_ & _ & Hbody & _).
  assert (single_line (with_tail s ws comment) = true) as Hline.
  { unfold with_tail, line_tail. rewrite !single_line_app, Hs.
    pose proof Hws as Hws'. unfold is_blank in Hws'.
    apply andb_prop in Hws' as [_ ->].
    destruct comment as [t|]; [|reflexivity].
    cbn [is_comment] in Hcom. apply andb_prop in Hcom as [Hts _].
    change (single_line ("#" :: t)) with (single_line t). now rewrite Hts. }
  assert (normalise (with_tail s ws comment) = body) as Hn.
  { unfold with_tail. rewrite Hr.
    rewrite <- (app_nil_r ((spaces i ++ body) ++ line_tail ws comment)).
    replace (((spaces i ++ body) ++ line_tail ws comment) ++ [])
      with ((spaces i ++ body ++ line_tail ws comment) ++ [])
      by (now rewrite <- !app_assoc).
    now apply normalise_line_tail_eol. }
  assert (with_tail s ws comment <> []) as Hne.
  { unfold with_tail. rewrite Hr. intros E.
    apply app_eq_nil in E as [E _]. apply app_eq_nil in E as [_ E].
    contradiction. }
  split.
  - unfold config_read_line. pose proof Hat as (He & _). rewrite He.
    cbn [read_nonempty_line].
    rewrite (config_fgets_last conf sizeof_buffer _ Hat Hline Hne) by lia.
    rewrite c_str_single_line by assumption.
    fold (normalise (with_tail s ws comment)). rewrite Hn.
    destruct body as [|b body']; [congruence|]. apply Hint.
  - rewrite <- (app_nil_r (with_tail s ws comment)) in Hat.
    exact (reader_at_advance _ _ _ 1 Hat).
Qed.

Lemma last_line_needs_no_newline_witness :
  config_read_line 1024
    (opened "f" (with_tail (SrcAssign 0 (bytes "port") (bytes "8080")) [] None))
    ConfigSectionEnd =
    Some (true,
          advance
            (opened "f"
               (with_tail (SrcAssign 0 (bytes "port") (bytes "8080")) [] None))
            (length (with_tail (SrcAssign 0 (bytes "port") (bytes "8080")) [] None))
            1,
          ConfigLine (bytes "port") (bytes "8080")) /\
  reader_at
    (advance
       (opened "f" (with_tail (SrcAssign 0 (bytes "port") (bytes "8080")) [] None))
       (length (with_tail (SrcAssign 0 (bytes "port") (bytes "8080")) [] None)) 1)
    [].
Proof.
  apply (last_line_needs_no_newline 1024 _ ConfigSectionEnd
           (SrcAssign 0 (bytes "port") (bytes "8080"))
           (ConfigLine (bytes "port") (bytes "8080")) [] None).
  - reflexivity.
  - reflexivity.
  - reflexivity.
  - reflexivity.
  - reflexivity.
  - vm_compute. lia.
  - apply (reader_at_positioned "f" []).
Defined.

(** ** Lines that are refused *)

Lemma strchr_none (c : ascii) (s : list ascii) :
  no_char c s = true -> strchr s c = None.
Proof.
  induction s as [|x s IH]; [reflexivity|]. unfold no_char in *.
  cbn [forallb strchr]. intros H.
  apply andb_prop in H as [Hx Hs]. apply negb_true_iff in Hx.
  now rewrite Hx, IH.
Qed.

(** X21. A line that is neither a section opening, nor a closing line, nor
    an assignment is an error: when the text of a physical line (its
    indentation, trailing white space and comment apart) holds no [=],
    does not end with [{] and is not [}], [config_read_line] returns
    [false] with the reader past the line and the message
    [Expecting section or key=value]. *)
Theorem line_without_equal_is_refused (sizeof_buffer : nat) (conf : config)
    (l : config_line) (i : nat) (body ws : list ascii)
    (comment : option (list ascii)) (rest : list ascii) :
  is_text body = true ->
  no_char "=" body = true ->
  Ascii.eqb (find_line_end body) "{" = false ->
  body <> bytes "}" ->
  is_blank ws = true ->
  is_comment comment = true ->
  length (spaces i ++ body ++ line_tail ws comment) + 2 <= sizeof_buffer ->
  reader_at conf ((spaces i ++ body ++ line_tail ws comment) ++ LF :: rest) ->
  config_read_line sizeof_buffer conf l =
    Some (false,
          set_error_message
            (advance conf (S (length (spaces i ++ body ++ line_tail ws comment))) 1)
            (Some "Expecting section or key=value"%string),
          l).
Proof.
  intros Ht Heq Hbrace Hclose Hws Hcom Hfit Hat.
  pose proof (is_text_inv _ Ht) as (Hs & _ & Hne & _).
  assert (single_line (spaces i ++ body ++ line_tail ws comment) = true) as Hline.
  { unfold line_tail. rewrite !single_line_app, single_line_spaces, Hs.
    pose proof Hws as Hws'. unfold is_blank in Hws'.
    apply andb_prop in Hws' as [_ ->].
    destruct comment as [t|]; [|reflexivity].
    cbn [is_comment] in Hcom. apply andb_prop in Hcom as [Hts _].
    change (single_line ("#" :: t)) with (single_line t). now rewrite Hts. }
  pose proof (normalise_line_tail i body ws comment Ht Hws Hcom) as Hn.
  rewrite (config_read_line_first sizeof_buffer conf _ _ Hat Hline Hfit)
    by (now rewrite Hn).
  rewrite Hn. unfold interpret_line. rewrite Hbrace.
  replace (Ascii.eqb (hd NUL body) "}" && (length body =? 1)%nat) with false.
  2: { symmetry. apply andb_false_iff.
       destruct body as [|b [|b' r]]; [congruence| |now right].
       left. cbn [hd]. destruct (Ascii.eqb b "}") eqn:E; [|reflexivity].
       apply Ascii.eqb_eq in E. subst b. now contradiction Hclose. }
  rewrite strchr_none by assumption.
  pose proof (reader_at_next _ _ _ 1 Hat) as (He & _).
  unfold config_error. now rewrite He.
Qed.

Lemma line_without_equal_is_refused_witness :
  config_read_line 1024
    (opened "f" ((spaces 2 ++ bytes "} else" ++ line_tail [] None) ++
                 LF :: bytes "a = 1" ++ [LF]))
    ConfigSectionEnd =
    Some (false,
          set_error_message
            (advance
               (opened "f" ((spaces 2 ++ bytes "} else" ++ line_tail [] None) ++
                            LF :: bytes "a = 1" ++ [LF]))
               (S (length (spaces 2 ++ bytes "} else" ++ line_tail [] None))) 1)
            (Some "Expecting section or key=value"%string),
          ConfigSectionEnd).
Proof.
  apply (line_without_equal_is_refused 1024 _ ConfigSectionEnd 2
           (bytes "} else") [] None (bytes "a = 1" ++ [LF])).
  - reflexivity.
  - reflexivity.
  - reflexivity.
  - discriminate.
  - reflexivity.
  - reflexivity.
  - vm_compute. lia.
  - apply (reader_at_positioned "f" []).
Defined.

(** X22. A section opening needs a space: when the text of a physical line
    ends with [{] and holds no space character at all (as in [name{], a
    lone [{], or a name separated from the brace by a tab only),
    [config_read_line] returns [false] with the reader past the line and
    the message [Malformed section opening]. *)
Theorem section_without_space_is_refused (sizeof_buffer : nat)
    (conf : config) (l : config_line) (i : nat) (body ws : list ascii)
    (comment : option (list ascii)) (rest : list ascii) :
  is_text body = true ->
  no_char " " body = true ->
  Ascii.eqb (find_line_end body) "{" = true ->
  is_blank ws = true ->
  is_comment comment = true ->
  length (spaces i ++ body ++ line_tail ws comment) + 2 <= sizeof_buffer ->
  reader_at conf ((spaces i ++ body ++ line_tail ws comment) ++ LF :: rest) ->
  config_read_line sizeof_buffer conf l =
    Some (false,
          set_error_message
            (advance conf (S (length (spaces i ++ body ++ line_tail ws comment))) 1)
            (Some "Malformed section opening"%string),
          l).
Proof.
  intros Ht Hsp Hbrace Hws Hcom Hfit Hat.
  pose proof (is_text_inv _ Ht) as (Hs & _ & Hne & _).
  assert (single_line (spaces i ++ body ++ line_tail ws comment) = true) as Hline.
  { unfold line_tail. rewrite !single_line_app, single_line_spaces, Hs.
    pose proof Hws as Hws'. unfold is_blank in Hws'.
    apply andb_prop in Hws' as [_ ->].
    destruct comment as [t|]; [|reflexivity].
    cbn [is_comment] in Hcom. apply andb_prop in Hcom as [Hts _].
    change (single_line ("#" :: t)) with (single_line t). now rewrite Hts. }
  pose proof (normalise_line_tail i body ws comment Ht Hws Hcom) as Hn.
  rewrite (config_read_line_first sizeof_buffer conf _ _ Hat Hline Hfit)
    by (now rewrite Hn).
  rewrite Hn. unfold interpret_line, parse_section. rewrite Hbrace.
  rewrite strchr_none by assumption.
  pose proof (reader_at_next _ _ _ 1 Hat) as (He & _).
  unfold config_error. now rewrite He.
Qed.

Lemma section_without_space_is_refused_witness :
  config_read_line 1024
    (opened "f" ((spaces 0 ++ bytes "listener{" ++ line_tail [" "] (Some (bytes " x"))) ++
                 LF :: bytes "}" ++ [LF]))
    ConfigSectionEnd =
    Some (false,
          set_error_message
            (advance
               (opened "f"
                  ((spaces 0 ++ bytes "listener{" ++ line_tail [" "] (Some (bytes " x"))) ++
                   LF :: bytes "}" ++ [LF]))
               (S (length (spaces 0 ++ bytes "listener{" ++
                           line_tail [" "] (Some (bytes " x"))))) 1)
            (Some "Malformed section opening"%string),
          ConfigSectionEnd).
Proof.
  apply (section_without_space_is_refused 1024 _ ConfigSectionEnd 0
           (bytes "listener{") [" "] (Some (bytes " x")) (bytes "}" ++ [LF])).
  - reflexivity.
  - reflexivity.
  - reflexivity.
  - reflexivity.
  - reflexivity.
  - vm_compute. lia.
  - apply (reader_at_positioned "f" []).
Defined.

(** ** Other failures of [config_isolate_section] *)

(** The code under the label [resetpos] when it is reached with [r] false. *)
Lemma isolate_resetpos_failed (c i : config) (l : config_line) (f f1 : FILE) :
  file c = Some f1 -> content f1 = content f ->
  isolate_resetpos false c l i (ftell f) =
  Some (false,
        snd (config_error (set_file c (Some f))
               "Unknown error while isolating section"),
        l, config_close i).
Proof.
  intros Hf1 Hc. unfold isolate_resetpos. rewrite Hf1, fseek_ftell, Hc.
  destruct f as [data p]. cbn [content pos negb orb]. reflexivity.
Qed.

(** X23. When the scan of [config_isolate_section] meets the depth limit
    (ten sections left open inside the section, then one more opening, in
    well-formed input), the call returns [false], the original reader has
    its cursor back, and the message it keeps is the one of the scan,
    [Recursion level too deep]: the first message recorded wins over
    [Unknown error while isolating section]. The isolated reader has no
    stream. *)
Theorem isolation_beyond_the_depth_limit_fails
    (fs : string -> option (list ascii)) (sizeof_buffer : nat)
    (conf : config) (l : config_line) (pre rest : list source_line)
    (i : nat) (n p : list ascii) :
  forallb (wf_line sizeof_buffer) (pre ++ SrcOpen i n p :: rest) = true ->
  open_after 0 pre = Some 10 ->
  nesting_within 10 0 pre = true ->
  reader_at conf (render (pre ++ SrcOpen i n p :: rest)) ->
  is_section l = true ->
  exists c' l' iso,
    config_isolate_section fs sizeof_buffer conf l = Some (false, c', l', iso) /\
    file c' = file conf /\
    error_message c' = Some "Recursion level too deep"%string /\
    file iso = None.
Proof.
  intros Hwf Hopen Hnest Hat Hl.
  destruct (skip_fuel_source _ _ Hat) as (fuel & Hfuel & Hle).
  pose proof (find_section_end_loop_source sizeof_buffer _ _ (le_n _) 0 conf l
                fuel Hwf Hat ltac:(lia) Hle) as H.
  pose proof (skip_source_prefix 0 (SrcOpen i n p :: rest) pre 0 10
                Hopen Hnest) as Hs.
  cbn [Nat.add] in Hs. rewrite Hs in H. cbn [skip_source Nat.ltb Nat.leb] in H.
  destruct H as (c1 & l1 & Hscan & Herr).
  assert (find_section_end (skip_fuel conf) sizeof_buffer conf l 0 =
          Some (false, c1, l1)) as Hfind.
  { rewrite Hfuel. cbn [find_section_end Z.ltb Z.compare]. exact Hscan. }
  destruct Hat as (He & _ & f & Hf & _).
  pose proof (proj1 (find_section_end_read_on sizeof_buffer _)
                _ _ _ _ _ _ _ Hf Hfind) as (Hadv & _).
  destruct Hadv as (g & f1 & Hg & Hf1 & Hc & _).
  rewrite Hf in Hg. injection Hg as <-.
  unfold config_isolate_section. rewrite He, Hl, Hf, Hfind. cbn [negb].
  replace (ftell f <? 0)%Z with false
    by (symmetry; apply Z.ltb_ge; unfold ftell; lia).
  rewrite (isolate_resetpos_failed c1 _ l1 f f1 Hf1 Hc).
  unfold config_error. cbn [set_file error_message]. rewrite Herr. cbn [snd].
  eexists _, _, _. split; [reflexivity|].
  split; [reflexivity|]. split; [exact Herr | reflexivity].
Qed.

Lemma isolation_beyond_the_depth_limit_fails_witness :
  exists c' l' iso,
    config_isolate_section listener_fs 1024
      (positioned "lwan.conf" listener_header
         (render (ten_open ++ SrcOpen 11 (bytes "one") (bytes "more") :: sample_source)) 1)
      (ConfigSection (bytes "listener") (bytes "*:8080")) =
      Some (false, c', l', iso) /\
    file c' =
      file (positioned "lwan.conf" listener_header
              (render (ten_open ++
                       SrcOpen 11 (bytes "one") (bytes "more") :: sample_source)) 1) /\
    error_message c' = Some "Recursion level too deep"%string /\
    file iso = None.
Proof.
  apply (isolation_beyond_the_depth_limit_fails listener_fs 1024 _ _ ten_open
           sample_source 11 (bytes "one") (bytes "more")).
  - vm_compute. reflexivity.
  - vm_compute. reflexivity.
  - vm_compute. reflexivity.
  - apply reader_at_positioned.
  - reflexivity.
Defined.

(** X24. When the file cannot be opened again at the path of the reader,
    [config_isolate_section] fails also on a section that is complete and
    well formed: it returns [false], the original reader has its cursor and
    its line counter back and records
    [Unknown error while isolating section], and the isolated reader has no
    stream. *)
Theorem isolation_fails_when_reopening_fails
    (fs : string -> option (list ascii)) (sizeof_buffer : nat)
    (conf : config) (l : config_line) (body rest : list source_line)
    (i : nat) :
  forallb (wf_line sizeof_buffer) (body ++ SrcClose i :: rest) = true ->
  balanced body = true ->
  nesting_within 10 0 body = true ->
  reader_at conf (render (body ++ SrcClose i :: rest)) ->
  is_section l = true ->
  fs (path conf) = None ->
  exists c' iso,
    config_isolate_section fs sizeof_buffer conf l =
      Some (false, c', ConfigSectionEnd, iso) /\
    file c' = file conf /\ line c' = line conf /\
    error_message c' = Some "Unknown error while isolating section"%string /\
    file iso = None.
Proof.
  intros Hwf Hbal Hnest Hat Hl Hfs.
  destruct (skip_fuel_source _ _ Hat) as (fuel & Hfuel & Hle).
  pose proof (find_section_end_loop_source sizeof_buffer _ _ (le_n _) 0 conf l
                fuel Hwf Hat ltac:(lia) Hle) as H.
  pose proof (skip_source_prefix 0 (SrcClose i :: rest) body 0 0
                (balanced_from_open_after _ _ Hbal) Hnest) as Hs.
  cbn [Nat.add] in Hs. rewrite Hs in H. cbn [skip_source Nat.eqb] in H.
  destruct H as (c1 & Hscan & Hat1).
  assert (find_section_end (skip_fuel conf) sizeof_buffer conf l 0 =
          Some (true, c1, ConfigSectionEnd)) as Hfind.
  { rewrite Hfuel. cbn [find_section_end Z.ltb Z.compare]. exact Hscan. }
  destruct Hat as (He & _ & f & Hf & _).
  pose proof (proj1 (find_section_end_read_on sizeof_buffer _)
                _ _ _ _ _ _ _ Hf Hfind) as (Hadv & Hp & _).
  destruct Hadv as (g & f1 & Hg & Hf1 & Hc & _).
  rewrite Hf in Hg. injection Hg as <-.
  destruct Hat1 as (He1 & _).
  unfold config_isolate_section. rewrite He, Hl, Hf, Hfind. cbn [negb].
  replace (ftell f <? 0)%Z with false
    by (symmetry; apply Z.ltb_ge; unfold ftell; lia).
  cbn [set_line file path]. rewrite Hf1.
  replace (ftell f1 <? 0)%Z with false
    by (symmetry; apply Z.ltb_ge; unfold ftell; lia).
  unfold config_open. rewrite Hp, Hfs.
  rewrite (isolate_resetpos_failed _ _ ConfigSectionEnd f f1)
    by (cbn [set_line file]; assumption).
  unfold config_error. cbn [set_file set_line error_message]. rewrite He1.
  cbn [snd]. eexists _, _. split; [reflexivity|].
  cbn [set_error_message file line error_message]. repeat split.
Qed.

Lemma isolation_fails_when_reopening_fails_witness :
  exists c' iso,
    config_isolate_section (fun _ => None) 1024
      (positioned "lwan.conf" listener_header
         (render (unclosed_body ++ SrcClose 0 :: sample_source)) 1)
      (ConfigSection (bytes "listener") (bytes "*:8080")) =
      Some (false, c', ConfigSectionEnd, iso) /\
    file c' =
      file (positioned "lwan.conf" listener_header
              (render (unclosed_body ++ SrcClose 0 :: sample_source)) 1) /\
    line c' =
      line (positioned "lwan.conf" listener_header
              (render (unclosed_body ++ SrcClose 0 :: sample_source)) 1) /\
    error_message c' = Some "Unknown error while isolating section"%string /\
    file iso = None.
Proof.
  apply (isolation_fails_when_reopening_fails (fun _ => None) 1024 _ _
           unclosed_body sample_source 0).
  - vm_compute. reflexivity.
  - vm_compute. reflexivity.
  - vm_compute. reflexivity.
  - apply reader_at_positioned.
  - reflexivity.
  - reflexivity.
Defined.

(** ** A number followed by something else *)

Lemma strtol_digit_not_decimal (c : ascii) :
  isdigit c = false ->
  match strtol_digit c with
  | Some d => (d <? 10)%Z = false
  | None => True
  end.
Proof.
  destruct c as [[] [] [] [] [] [] [] []]; intros H; vm_compute in H;
    try discriminate H; vm_compute; exact I || reflexivity.
Qed.

Lemma strtol_digits_decimal_app (c : ascii) (r : list ascii) :
  isdigit c = false ->
  forall ds acc,
    forallb isdigit ds = true ->
    strtol_digits 10 (ds ++ c :: r) acc =
    (fold_left (fun a x => (10 * a + digit_value x)%Z) ds acc, c :: r).
Proof.
  intros Hc. induction ds as [|d ds IH]; intros acc H.
  - cbn [app fold_left strtol_digits].
    pose proof (strtol_digit_not_decimal c Hc) as Hd.
    destruct (strtol_digit c); [now rewrite Hd | reflexivity].
  - cbn [forallb] in H. apply andb_prop in H as [Hd H].
    destruct (strtol_digit_decimal _ Hd) as (Hv & Hr).
    cbn [app strtol_digits fold_left]. rewrite Hv.
    replace (digit_value d <? 10)%Z with true by (symmetry; apply Z.ltb_lt; lia).
    now apply IH.
Qed.

(** X25. [parse_long] takes the whole string or nothing: a decimal literal
    that does not start with [0], followed by any character that is not a
    digit (a unit as in [15s], a decimal point, a trailing space) and by
    anything else, gives the default value; white space is accepted before
    a number, not after it. *)
Theorem parse_long_refuses_a_suffix (i : nat) (negative : bool)
    (ds : list ascii) (c : ascii) (r : list ascii) (default_value : Z) :
  is_decimal ds = true ->
  Ascii.eqb (hd "0" ds) "0" = false ->
  isdigit c = false ->
  parse_long (literal_text i negative ds ++ c :: r) default_value =
  default_value.
Proof.
  unfold is_decimal. intros H Hz Hc. apply andb_prop in H as [Hds _].
  destruct ds as [|d ds']; [discriminate Hz|]. cbn [hd] in Hz.
  pose proof Hds as Hds'. cbn [forallb] in Hds'.
  apply andb_prop in Hds' as [Hd _].
  destruct (isdigit_facts _ Hd) as (Hdsp & Hminus & Hplus).
  unfold parse_long, strtol, literal_text.
  rewrite <- !app_assoc, remove_leading_spaces_spaces.
  assert (strtol_sign
            (remove_leading_spaces
               ((if negative then ["-"] else []) ++ (d :: ds') ++ c :: r))
          = (negative, (d :: ds') ++ c :: r)) as Hsign.
  { destruct negative; cbn [app].
    - reflexivity.
    - rewrite remove_leading_spaces_id by exact Hdsp.
      cbn [strtol_sign]. now rewrite Hminus, Hplus. }
  rewrite Hsign.
  assert (strtol_base ((d :: ds') ++ c :: r) = (10%Z, (d :: ds') ++ c :: r, false))
    as Hbase by (cbn [app strtol_base]; now rewrite Hz).
  rewrite Hbase, (strtol_digits_decimal_app c r Hc (d :: ds') 0 Hds).
  replace (length (c :: r) =? length ((d :: ds') ++ c :: r))%nat with false
    by (symmetry; apply Nat.eqb_neq; rewrite length_app; cbn [length]; lia).
  set (value := spaces i ++ (if negative then ["-"] else []) ++ (d :: ds') ++ c :: r).
  assert ((length value - length (c :: r) =? length value)%nat = false) as Hend.
  { apply Nat.eqb_neq. subst value. rewrite !length_app. cbn [length]. lia. }
  cbv zeta.
  destruct (_ <? LONG_MIN)%Z; [reflexivity|].
  destruct (LONG_MAX <? _)%Z; [reflexivity|].
  now rewrite Hend.
Qed.

Lemma parse_long_refuses_a_suffix_witness :
  parse_long (literal_text 0 false (bytes "8080") ++ " " :: []) 80 = 80%Z.
Proof.
  apply (parse_long_refuses_a_suffix 0 false (bytes "8080") " " [] 80).
  - reflexivity.
  - reflexivity.
  - reflexivity.
Defined.

(** ** Skipping a section and reading on *)

(** X26. Skipping composes with reading: after [config_skip_section] on a
    section of well-formed input, calling [config_read_line] until it
    returns [false] delivers exactly the records that follow the closing
    line of the skipped section, none of its body, and ends at the end of
    the file without error. *)
Theorem skip_then_read_delivers_the_rest (sizeof_buffer : nat)
    (conf : config) (l : config_line) (body rest : list source_line)
    (i : nat) :
  forallb (wf_line sizeof_buffer) (body ++ SrcClose i :: rest) = true ->
  balanced body = true ->
  nesting_within 10 0 body = true ->
  reader_at conf (render (body ++ SrcClose i :: rest)) ->
  is_section l = true ->
  exists c' final,
    config_skip_section sizeof_buffer conf l =
      Some (true, c', ConfigSectionEnd) /\
    config_read_all sizeof_buffer c' ConfigSectionEnd =
      Some (records rest, final) /\
    error_message final = None /\ bytes_left final = 0.
Proof.
  intros Hwf Hbal Hnest Hat Hl.
  destruct (skip_fuel_source _ _ Hat) as (fuel & Hfuel & Hle).
  pose proof (find_section_end_loop_source sizeof_buffer _ _ (le_n _) 0 conf l
                fuel Hwf Hat ltac:(lia) Hle) as H.
  pose proof (skip_source_prefix 0 (SrcClose i :: rest) body 0 0
                (balanced_from_open_after _ _ Hbal) Hnest) as Hs.
  cbn [Nat.add] in Hs. rewrite Hs in H. cbn [skip_source Nat.eqb] in H.
  destruct H as (c' & H & Hat').
  assert (forallb (wf_line sizeof_buffer) rest = true) as Hrest.
  { rewrite forallb_app in Hwf. apply andb_prop in Hwf as [_ Hwf].
    cbn [forallb] in Hwf. now apply andb_prop in Hwf as [_ ?]. }
  destruct (read_lines_source sizeof_buffer rest (S (bytes_left c'))
              c' ConfigSectionEnd Hrest Hat') as (final & Hread & Hm).
  { rewrite (reader_at_bytes_left _ _ Hat'). pose proof (length_render rest). lia. }
  exists c', final. split; [|split; [exact Hread|]].
  - unfold config_skip_section. destruct Hat as (He & _). rewrite He, Hl, Hfuel.
    cbn [negb find_section_end Z.ltb Z.compare]. exact H.
  - rewrite <- (app_nil_r (render rest)) in Hat'.
    pose proof (reader_at_moved _ _ _ _ Hat' Hm) as Hend.
    split; [apply Hend | exact (reader_at_bytes_left _ _ Hend)].
Qed.

Lemma skip_then_read_delivers_the_rest_witness :
  exists c' final,
    config_skip_section 1024
      (positioned "lwan.conf" listener_header
         (render (unclosed_body ++ SrcClose 0 :: sample_source)) 1)
      (ConfigSection (bytes "listener") (bytes "*:8080")) =
      Some (true, c', ConfigSectionEnd) /\
    config_read_all 1024 c' ConfigSectionEnd =
      Some (records sample_source, final) /\
    error_message final = None /\ bytes_left final = 0.
Proof.
  apply (skip_then_read_delivers_the_rest 1024 _ _ unclosed_body sample_source 0).
  - vm_compute. reflexivity.
  - vm_compute. reflexivity.
  - vm_compute. reflexivity.
  - apply reader_at_positioned.
  - reflexivity.
Defined.

(** ** The string buffer of the isolated reader *)

(** The isolated reader shares the string buffer of the original: when the
    scan of a section fails after it has captured a multiline value, the
    buffer of the isolated reader holds that value too. *)
Example isolated_copy_shares_the_buffer :
  exists c' l' iso,
    config_isolate_section (fun _ => None) 1024
      (positioned "lwan.conf" listener_header
         (render [SrcMultiline 2 (bytes "k") [bytes "abc"]]) 1)
      (ConfigSection (bytes "listener") (bytes "*:8080")) =
      Some (false, c', l', iso) /\
    strbuf c' = bytes "abc" ++ [LF] /\
    strbuf iso = bytes "abc" ++ [LF] /\
    file iso = None.
Proof.
  eexists _, _, _. split; [vm_compute; reflexivity|].
  repeat split.
Qed.
